(** * TTRG_Tutor: the asynchronous file cache of [app.py]

    A shallow embedding of [CachedFile] and [OptimizedFileCache]
    (app.py, lines 92-205) and of the code that calls the cache: the
    selection and registration of uploads in [display_file_manager]
    (lines 691-731) and the content of a prompt in [handle_user_prompt]
    (lines 799-812) with [SecuritySystem.anonymize_data] (lines 227-232).
    The properties of the cache that the design document states come
    first; further properties of the code follow.

    Modelling choices.
    - Python [dict]s keep insertion order, and the code depends on it
      ([find_by_hash] returns the first match, [sorted] is stable), so a
      dict is an association list with Python's update discipline.
    - Python values that the code handles dynamically ([processed_data])
      are a small universe [pyval]; an operation applied to a value of the
      wrong shape raises, as in Python.
    - A [str] is represented by its UTF-8 encoding (a [string] is a
      sequence of bytes), so [s.encode()] is the byte sequence itself.
    - Exceptions are values: fallible code returns [result].
    - [hashlib], [PIL] and [fitz] are libraries outside the repository;
      they are the fields of [Externals].  Python's [str.strip] and
      [re] are parameters of the code that uses them.
    - The [ThreadPoolExecutor] is an explicit store of futures.  A worker
      runs [process_file_async] in several steps, one per stretch of code
      that runs without releasing [self.lock]; the callers' methods hold
      the lock from start to end and are single steps.  [time.time()] is
      supplied by the event that reads the clock. *)

From Stdlib Require Import List ZArith String Ascii Strings.Byte Bool Lia.
From Stdlib Require Import Permutation Sorted DecimalString.
Import ListNotations.

Open Scope string_scope.
Open Scope Z_scope.

(** ** Python values *)

Inductive result (A : Type) : Type :=
| Ok (a : A)
| Raise (e : string).
Arguments Ok {A} a.
Arguments Raise {A} e.

Definition bind {A B : Type} (r : result A) (k : A -> result B) : result B :=
  match r with
  | Ok a => k a
  | Raise e => Raise e
  end.

Notation "x <- r ;; k" := (bind r (fun x => k))
  (at level 61, r at next level, right associativity).

Definition bytes := list byte.

(** A [PIL.Image.Image]: what the cache reads of it. *)
Record Image := {
  mode : string;
  width : Z;
  height : Z;
  pixels : bytes
}.

#[warnings="-register-all"]
Inductive pyval : Type :=
| VNone
| VStr (s : string)
| VBool (b : bool)
| VImage (img : Image)
| VDict (d : list (string * pyval)).

Definition is_None (v : pyval) : bool :=
  match v with
  | VNone => true
  | _ => false
  end.

(** ** Insertion-ordered dictionaries with [str] keys *)

Definition dict (V : Type) := list (string * V).

Fixpoint dict_get {V : Type} (k : string) (d : dict V) : option V :=
  match d with
  | [] => None
  | (k', v) :: r => if String.eqb k k' then Some v else dict_get k r
  end.

Definition dict_mem {V : Type} (k : string) (d : dict V) : bool :=
  match dict_get k d with
  | Some _ => true
  | None => false
  end.

(** [d[k] = v]: an existing key keeps its place, a new key goes last. *)
Fixpoint dict_set {V : Type} (k : string) (v : V) (d : dict V) : dict V :=
  match d with
  | [] => [(k, v)]
  | (k', v') :: r =>
      if String.eqb k k' then (k, v) :: r else (k', v') :: dict_set k v r
  end.

(** [d.pop(k, None)], the dictionary that remains: no binding of [k] is
    left (the keys of a dict are distinct, so there was at most one). *)
Fixpoint dict_pop {V : Type} (k : string) (d : dict V) : dict V :=
  match d with
  | [] => []
  | (k', v') :: r =>
      if String.eqb k k' then dict_pop k r else (k', v') :: dict_pop k r
  end.

Definition keys {V : Type} (d : dict V) : list string := map fst d.
Definition values {V : Type} (d : dict V) : list V := map snd d.

(** [len(s.encode())] *)
Definition encode (s : string) : bytes := list_byte_of_string s.
Definition len {A : Type} (l : list A) : Z := Z.of_nat (List.length l).

(** ** CachedFile (app.py, lines 92-111) *)

Record CachedFile := {
  file_id : string;
  filename : string;
  content_type : string;
  processed_data : pyval;
  memory_usage : Z;
  file_hash : string;
  is_placeholder : bool
}.

(** [CachedFile.__init__] *)
Definition new_CachedFile (fid fname ctype : string) (data : pyval)
    (usage : Z) (fhash : string) : CachedFile :=
  {| file_id := fid; filename := fname; content_type := ctype;
     processed_data := data; memory_usage := usage;
     file_hash := fhash; is_placeholder := false |}.

Definition placeholder (fid fname : string) : CachedFile :=
  let ph := new_CachedFile fid fname "processing" VNone 0 "" in
  {| file_id := ph.(file_id); filename := ph.(filename);
     content_type := ph.(content_type);
     processed_data := ph.(processed_data);
     memory_usage := ph.(memory_usage); file_hash := ph.(file_hash);
     is_placeholder := true |}.

Definition is_ready (self : CachedFile) : bool :=
  negb self.(is_placeholder) && negb (is_None self.(processed_data)).

(** [v.get(k)]: only a dict has the method. *)
Definition py_get (v : pyval) (k : string) : result pyval :=
  match v with
  | VDict d =>
      match dict_get k d with
      | Some x => Ok x
      | None => Ok VNone
      end
  | _ => Raise "AttributeError: object has no attribute 'get'"
  end.

Definition get_for_ai_model (self : CachedFile) : result pyval :=
  if negb (is_ready self) then Ok VNone
  else if String.eqb self.(content_type) "image"
       then Ok self.(processed_data)
  else if String.eqb self.(content_type) "pdf"
       then py_get self.(processed_data) "text_content"
  else Ok VNone.

(** ** The uploaded file object and the external libraries *)

(** Streamlit's [UploadedFile]: [name], [type] and the outcome of
    [getvalue()]. *)
Record UploadedFile := {
  name : string;
  type : string;
  getvalue : result bytes
}.

Record Externals := {
  (** [hashlib.blake2b(data, digest_size=n).hexdigest()] *)
  blake2b_hexdigest : nat -> bytes -> string;
  (** [Image.open(BytesIO(data))] *)
  Image_open : bytes -> result Image;
  (** [img.convert(mode)] *)
  Image_convert : string -> Image -> result Image;
  (** [img.thumbnail(size, Image.Resampling.LANCZOS)], the image after
      the call *)
  Image_thumbnail : Z * Z -> Image -> result Image;
  (** [fitz.open(stream=data, filetype="pdf")]: the pages, each with the
      outcome of its [get_text()] *)
  fitz_open : bytes -> result (list (result string))
}.

(** ** The executor's futures

    [concurrent.futures.Future] has the states PENDING, RUNNING, CANCELLED
    and FINISHED.  A running future also records how far its worker is in
    [process_file_async]. *)

Inductive Phase : Type :=
| AtStart                                (* about to run line 155 *)
| Processed (cached_file : CachedFile)   (* about to run line 165 *)
| Evicted (cached_file : CachedFile)     (* about to run lines 166-168 *)
| Inserted (cached_file : CachedFile).   (* about to run line 169 *)

Inductive FutureState : Type :=
| PENDING
| RUNNING (pc : Phase)
| CANCELLED
| FINISHED (r : CachedFile).

Record Future := {
  job_file_id : string;
  job_file_obj : UploadedFile;
  state : FutureState
}.

Record ThreadPoolExecutor := {
  max_workers : nat;
  futures : list Future
}.

Definition with_state (st : FutureState) (fu : Future) : Future :=
  {| job_file_id := fu.(job_file_id); job_file_obj := fu.(job_file_obj);
     state := st |}.

Fixpoint update_nth {A : Type} (n : nat) (f : A -> A) (l : list A) : list A :=
  match l, n with
  | [], _ => []
  | x :: r, O => f x :: r
  | x :: r, S n' => x :: update_nth n' f r
  end.

(** [future.done()] *)
Definition done (fu : Future) : bool :=
  match fu.(state) with
  | CANCELLED | FINISHED _ => true
  | PENDING | RUNNING _ => false
  end.

(** [future.cancel()]: only a future that has not started is cancelled. *)
Definition cancel (fu : Future) : Future :=
  match fu.(state) with
  | PENDING => with_state CANCELLED fu
  | _ => fu
  end.

(** [future.result()] of a future that is done. *)
Definition future_result (fu : Future) : result CachedFile :=
  match fu.(state) with
  | FINISHED r => Ok r
  | _ => Raise "CancelledError"
  end.

Definition is_running (fu : Future) : bool :=
  match fu.(state) with
  | RUNNING _ => true
  | _ => false
  end.

Definition is_pending (fu : Future) : bool :=
  match fu.(state) with
  | PENDING => true
  | _ => false
  end.

Fixpoint first_pending (fs : list Future) : option nat :=
  match fs with
  | [] => None
  | fu :: r =>
      if is_pending fu then Some O
      else match first_pending r with
           | Some h => Some (S h)
           | None => None
           end
  end.

(** [executor.submit(fn, file_id, file_obj)]: the executor and the handle
    of the new future. *)
Definition submit (ex : ThreadPoolExecutor) (fid : string)
    (file_obj : UploadedFile) : ThreadPoolExecutor * nat :=
  ({| max_workers := ex.(max_workers);
      futures := ex.(futures) ++
        [{| job_file_id := fid; job_file_obj := file_obj;
            state := PENDING |}] |},
   List.length ex.(futures)).

(** ** OptimizedFileCache (app.py, lines 113-205) *)

Record OptimizedFileCache := {
  max_memory_bytes : Z;
  cache : dict CachedFile;
  processing_queue : dict nat;
  access_times : dict Z;
  current_memory_usage : Z;
  executor : ThreadPoolExecutor;
  (** instrumentation, not a field of the class: how often
      [extract_pdf_text] or [optimize_image] has been called *)
  processor_calls : nat
}.

(** [OptimizedFileCache.__init__] *)
Definition new_OptimizedFileCache (max_memory_mb : Z)
    (max_concurrent_processing : nat) : OptimizedFileCache :=
  {| max_memory_bytes := max_memory_mb * 1024 * 1024;
     cache := []; processing_queue := []; access_times := [];
     current_memory_usage := 0;
     executor := {| max_workers := max_concurrent_processing;
                    futures := [] |};
     processor_calls := 0 |}.

Definition set_store (c : dict CachedFile) (a : dict Z) (u : Z)
    (self : OptimizedFileCache) : OptimizedFileCache :=
  {| max_memory_bytes := self.(max_memory_bytes);
     cache := c; processing_queue := self.(processing_queue);
     access_times := a; current_memory_usage := u;
     executor := self.(executor);
     processor_calls := self.(processor_calls) |}.

Definition set_access_times (a : dict Z) (self : OptimizedFileCache)
    : OptimizedFileCache :=
  set_store self.(cache) a self.(current_memory_usage) self.

Definition set_processing_queue (q : dict nat) (self : OptimizedFileCache)
    : OptimizedFileCache :=
  {| max_memory_bytes := self.(max_memory_bytes);
     cache := self.(cache); processing_queue := q;
     access_times := self.(access_times);
     current_memory_usage := self.(current_memory_usage);
     executor := self.(executor);
     processor_calls := self.(processor_calls) |}.

Definition set_executor (ex : ThreadPoolExecutor)
    (self : OptimizedFileCache) : OptimizedFileCache :=
  {| max_memory_bytes := self.(max_memory_bytes);
     cache := self.(cache); processing_queue := self.(processing_queue);
     access_times := self.(access_times);
     current_memory_usage := self.(current_memory_usage);
     executor := ex;
     processor_calls := self.(processor_calls) |}.

Definition set_futures (fs : list Future) (self : OptimizedFileCache)
    : OptimizedFileCache :=
  set_executor {| max_workers := self.(executor).(max_workers);
                  futures := fs |} self.

Definition count_processor_call (self : OptimizedFileCache)
    : OptimizedFileCache :=
  {| max_memory_bytes := self.(max_memory_bytes);
     cache := self.(cache); processing_queue := self.(processing_queue);
     access_times := self.(access_times);
     current_memory_usage := self.(current_memory_usage);
     executor := self.(executor);
     processor_calls := S self.(processor_calls) |}.

Definition future_at (h : nat) (self : OptimizedFileCache) : option Future :=
  nth_error self.(executor).(futures) h.

Definition set_future_state (h : nat) (st : FutureState)
    (self : OptimizedFileCache) : OptimizedFileCache :=
  set_futures (update_nth h (with_state st) self.(executor).(futures)) self.

(** [sorted(items, key=lambda x: x[1])]: a stable sort on the values. *)
Fixpoint insert_by_value (x : string * Z) (l : list (string * Z))
    : list (string * Z) :=
  match l with
  | [] => [x]
  | y :: r =>
      if snd x <=? snd y then x :: y :: r else y :: insert_by_value x r
  end.

Fixpoint sorted_by_value (l : list (string * Z)) : list (string * Z) :=
  match l with
  | [] => []
  | x :: r => insert_by_value x (sorted_by_value r)
  end.

(** The [for] loop of [evict_lru_if_needed] (lines 131-137).  Every
    [file_id] comes from [access_times], whose keys are distinct, so
    [access_times.pop(file_id)] finds its key. *)
Fixpoint evict_loop (needed_bytes : Z) (sorted_files : list (string * Z))
    (self : OptimizedFileCache) : OptimizedFileCache :=
  match sorted_files with
  | [] => self
  | (fid, _) :: rest =>
      if self.(current_memory_usage) + needed_bytes
           <=? self.(max_memory_bytes)
      then self
      else match dict_get fid self.(cache) with
           | Some cached_file =>
               evict_loop needed_bytes rest
                 (set_store (dict_pop fid self.(cache))
                            (dict_pop fid self.(access_times))
                            (self.(current_memory_usage)
                               - cached_file.(memory_usage))
                            self)
           | None => evict_loop needed_bytes rest self
           end
  end.

Definition evict_lru_if_needed (needed_bytes : Z)
    (self : OptimizedFileCache) : OptimizedFileCache :=
  if self.(current_memory_usage) + needed_bytes <=? self.(max_memory_bytes)
  then self
  else evict_loop needed_bytes (sorted_by_value self.(access_times)) self.

(** [next((f for f in self.cache.values() if f.file_hash == file_hash),
    None)] *)
Definition find_by_hash (self : OptimizedFileCache) (fhash : string)
    : option CachedFile :=
  find (fun f => String.eqb f.(file_hash) fhash) (values self.(cache)).

Definition remove_file (fid : string) (self : OptimizedFileCache)
    : OptimizedFileCache :=
  match dict_get fid self.(cache) with
  | Some cached_file =>
      set_store (dict_pop fid self.(cache))
                (dict_pop fid self.(access_times))
                (self.(current_memory_usage) - cached_file.(memory_usage))
                self
  | None => self
  end.

(** [for future in self.processing_queue.values(): future.cancel()] *)
Fixpoint cancel_all (hs : list nat) (fs : list Future) : list Future :=
  match hs with
  | [] => fs
  | h :: r => cancel_all r (update_nth h cancel fs)
  end.

Definition clear (self : OptimizedFileCache) : OptimizedFileCache :=
  set_processing_queue []
    (set_futures
       (cancel_all (values self.(processing_queue))
                   self.(executor).(futures))
       (set_store [] [] 0 self)).

(** [get_or_create]: the cache after the call and what the call returns.
    [now] is the value of [time.time()] if the call reads the clock. *)
Definition get_or_create (fid : string) (file_obj : UploadedFile) (now : Z)
    (self : OptimizedFileCache) : OptimizedFileCache * result CachedFile :=
  match dict_get fid self.(cache) with
  | Some cached_file =>
      (set_access_times (dict_set fid now self.(access_times)) self,
       Ok cached_file)
  | None =>
      match dict_get fid self.(processing_queue) with
      | Some h =>
          match future_at h self with
          | Some future =>
              if done future
              then (set_processing_queue
                      (dict_pop fid self.(processing_queue)) self,
                    future_result future)
              else (self, Ok (placeholder fid file_obj.(name)))
          | None => (self, Raise "no such future")
          end
      | None =>
          let (ex, h) := submit self.(executor) fid file_obj in
          (set_processing_queue (dict_set fid h self.(processing_queue))
             (set_executor ex self),
           Ok (placeholder fid file_obj.(name)))
      end
  end.

(** ** Content hashing and processing *)

Definition LF : string := String (ascii_of_nat 10) EmptyString.

(** [processed_data["text_content"]] and the like *)
Definition py_getitem (v : pyval) (k : string) : result pyval :=
  match v with
  | VDict d =>
      match dict_get k d with
      | Some x => Ok x
      | None => Raise ("KeyError: " ++ k)
      end
  | _ => Raise "TypeError: object is not subscriptable"
  end.

(** [len(v.encode())] *)
Definition py_encoded_len (v : pyval) : result Z :=
  match v with
  | VStr s => Ok (len (encode s))
  | _ => Raise "AttributeError: object has no attribute 'encode'"
  end.

(** [v.width * v.height * 3] *)
Definition py_rgb_size (v : pyval) : result Z :=
  match v with
  | VImage img => Ok (img.(width) * img.(height) * 3)
  | _ => Raise "AttributeError: object has no attribute 'width'"
  end.

(** [[p.get_text() for p in pages]]: the first page that fails raises. *)
Fixpoint get_texts (pages : list (result string)) : result (list string) :=
  match pages with
  | [] => Ok []
  | p :: r => t <- p ;; ts <- get_texts r ;; Ok (t :: ts)
  end.

(** What [process_file_async] knows after line 157. *)
Inductive Lookup : Type :=
| Hit (existing : CachedFile)
| Miss (file_data : bytes) (fhash : string).

Inductive Event : Type :=
| GetOrCreate (fid : string) (file_obj : UploadedFile) (now : Z)
| RemoveFile (fid : string)
| Clear
| WorkerBegin                          (* a free worker takes the next job *)
| WorkerLookup (h : nat)               (* lines 155-163 *)
| WorkerEvict (h : nat)                (* line 165 *)
| WorkerInsert (h : nat) (now : Z)     (* lines 166-168 *)
| WorkerReturn (h : nat).              (* line 169 *)

Section Cache.

Variable E : Externals.

Definition get_file_hash (file_data : bytes) : string :=
  E.(blake2b_hexdigest) 8%nat (firstn (Z.to_nat 8192) file_data).

Definition optimize_image (image_data : bytes) : result Image :=
  img <- E.(Image_open) image_data ;;
  img <- (if negb (String.eqb img.(mode) "RGB")
          then E.(Image_convert) "RGB" img else Ok img) ;;
  img <- E.(Image_thumbnail) (1024, 1024) img ;;
  Ok img.

(** The [try] block of [extract_pdf_text] up to the list of page texts
    (lines 147-148). *)
Definition read_pdf_pages (pdf_data : bytes) (max_pages : Z)
    : result (list string) :=
  doc <- E.(fitz_open) pdf_data ;;
  get_texts (firstn (Z.to_nat (Z.min max_pages (len doc))) doc).

Definition extract_pdf_text (pdf_data : bytes) (max_pages : Z)
    : dict pyval :=
  match read_pdf_pages pdf_data max_pages with
  | Ok text_content =>
      [("text_content", VStr (String.concat (LF ++ LF) text_content))]
  | Raise e =>
      [("text_content", VStr ("[Errore estrazione PDF: " ++ e ++ "]"));
       ("error", VBool true)]
  end.

(** Lines 155-157 of [process_file_async]. *)
Definition process_lookup (file_obj : UploadedFile)
    (self : OptimizedFileCache) : result Lookup :=
  file_data <- file_obj.(getvalue) ;;
  let fhash := get_file_hash file_data in
  match find_by_hash self fhash with
  | Some existing => Ok (Hit existing)
  | None => Ok (Miss file_data fhash)
  end.

(** Lines 159-163 of [process_file_async]. *)
Definition process_content (fid : string) (file_obj : UploadedFile)
    (file_data : bytes) (fhash : string) : result CachedFile :=
  let ctype :=
    if String.eqb file_obj.(type) "application/pdf" then "pdf" else "image" in
  data <- (if String.eqb ctype "pdf"
           then Ok (VDict (extract_pdf_text file_data 10))
           else img <- optimize_image file_data ;; Ok (VImage img)) ;;
  usage <- (if String.eqb ctype "pdf"
            then t <- py_getitem data "text_content" ;; py_encoded_len t
            else py_rgb_size data) ;;
  Ok (new_CachedFile fid file_obj.(name) ctype data usage fhash).

(** The [except] branch of [process_file_async] (line 171); an uploaded
    file has a [name]. *)
Definition error_entry (fid : string) (file_obj : UploadedFile)
    (e : string) : CachedFile :=
  new_CachedFile fid file_obj.(name) "error" (VDict [("error", VStr e)]) 0 "".

(** *** The steps of a worker *)

Definition running_count (self : OptimizedFileCache) : nat :=
  List.length (filter is_running self.(executor).(futures)).

Definition worker_begin (self : OptimizedFileCache) : OptimizedFileCache :=
  if (running_count self <? self.(executor).(max_workers))%nat
  then match first_pending self.(executor).(futures) with
       | Some h => set_future_state h (RUNNING AtStart) self
       | None => self
       end
  else self.

Definition worker_lookup (h : nat) (self : OptimizedFileCache)
    : OptimizedFileCache :=
  match future_at h self with
  | Some fu =>
      match fu.(state) with
      | RUNNING AtStart =>
          let fid := fu.(job_file_id) in
          let file_obj := fu.(job_file_obj) in
          match process_lookup file_obj self with
          | Ok (Hit existing) => set_future_state h (FINISHED existing) self
          | Ok (Miss file_data fhash) =>
              match process_content fid file_obj file_data fhash with
              | Ok cached_file =>
                  set_future_state h (RUNNING (Processed cached_file))
                    (count_processor_call self)
              | Raise e =>
                  set_future_state h (FINISHED (error_entry fid file_obj e))
                    (count_processor_call self)
              end
          | Raise e =>
              set_future_state h (FINISHED (error_entry fid file_obj e)) self
          end
      | _ => self
      end
  | None => self
  end.

Definition worker_evict (h : nat) (self : OptimizedFileCache)
    : OptimizedFileCache :=
  match future_at h self with
  | Some fu =>
      match fu.(state) with
      | RUNNING (Processed cached_file) =>
          set_future_state h (RUNNING (Evicted cached_file))
            (evict_lru_if_needed cached_file.(memory_usage) self)
      | _ => self
      end
  | None => self
  end.

Definition worker_insert (h : nat) (now : Z) (self : OptimizedFileCache)
    : OptimizedFileCache :=
  match future_at h self with
  | Some fu =>
      match fu.(state) with
      | RUNNING (Evicted cached_file) =>
          let fid := fu.(job_file_id) in
          set_future_state h (RUNNING (Inserted cached_file))
            (set_store (dict_set fid cached_file self.(cache))
                       (dict_set fid now self.(access_times))
                       (self.(current_memory_usage)
                          + cached_file.(memory_usage))
                       self)
      | _ => self
      end
  | None => self
  end.

Definition worker_return (h : nat) (self : OptimizedFileCache)
    : OptimizedFileCache :=
  match future_at h self with
  | Some fu =>
      match fu.(state) with
      | RUNNING (Inserted cached_file) =>
          set_future_state h (FINISHED cached_file) self
      | _ => self
      end
  | None => self
  end.

(** One step of the system: a caller's method under the lock, or one
    stretch of a worker. *)
Definition step (ev : Event) (self : OptimizedFileCache)
    : OptimizedFileCache :=
  match ev with
  | GetOrCreate fid file_obj now => fst (get_or_create fid file_obj now self)
  | RemoveFile fid => remove_file fid self
  | Clear => clear self
  | WorkerBegin => worker_begin self
  | WorkerLookup h => worker_lookup h self
  | WorkerEvict h => worker_evict h self
  | WorkerInsert h now => worker_insert h now self
  | WorkerReturn h => worker_return h self
  end.

Fixpoint run (evs : list Event) (self : OptimizedFileCache)
    : OptimizedFileCache :=
  match evs with
  | [] => self
  | ev :: r => run r (step ev self)
  end.

(** A job that runs from start to end with no other step in between. *)
Definition whole_job (h : nat) (now : Z) : list Event :=
  [WorkerLookup h; WorkerEvict h; WorkerInsert h now; WorkerReturn h].

End Cache.

(** ** The callers of the cache (app.py, lines 213-232 and 671-812) *)

Definition PDF_MAX_SIZE_MB : Z := 20.
Definition MAX_IMAGE_SIZE_MB : Z := 5.
Definition MAX_CONCURRENT_FILES : Z := 5.

(** An uploaded file as the file manager sees it: its [file_id] and [size]
    attributes, and the attributes that the cache reads. *)
Record SessionFile := {
  upload_id : string;
  size : Z;
  file : UploadedFile
}.

(** [str(n)] of an [int] *)
Definition str_of_int (n : Z) : string := NilZero.string_of_int (Z.to_int n).

(** [l[:n]]: a negative [n] counts from the end. *)
Definition py_slice_to {A : Type} (n : Z) (l : list A) : list A :=
  if 0 <=? n then firstn (Z.to_nat n) l
  else firstn (List.length l - Z.to_nat (- n)) l.

(** The loop of [display_file_manager] over [file_potenziali] (lines
    699-706): the messages for the files that are too large and the files
    that are accepted, both in the order of the upload. *)
Fixpoint check_sizes (file_potenziali : list SessionFile)
    : list string * list SessionFile :=
  match file_potenziali with
  | [] => ([], [])
  | f :: r =>
      let (errori_dimensioni, file_validi) := check_sizes r in
      if String.prefix "image/" f.(file).(type)
         && (f.(size) >? MAX_IMAGE_SIZE_MB * 1024 * 1024)
      then (("🖼️ L'immagine '" ++ f.(file).(name)
             ++ "' è troppo grande. Limite: "
             ++ str_of_int MAX_IMAGE_SIZE_MB ++ " MB.")
            :: errori_dimensioni, file_validi)
      else if String.eqb f.(file).(type) "application/pdf"
              && (f.(size) >? PDF_MAX_SIZE_MB * 1024 * 1024)
      then (("📄 Il PDF '" ++ f.(file).(name)
             ++ "' è troppo grande. Limite: "
             ++ str_of_int PDF_MAX_SIZE_MB ++ " MB.")
            :: errori_dimensioni, file_validi)
      else (errori_dimensioni, f :: file_validi)
  end.

Record UploadOutcome := {
  errori_dimensioni : list string;
  warning_troppi_file : option string;
  file_finali : list SessionFile
}.

(** Lines 692-715 of [display_file_manager]: which of the newly uploaded
    files are added to the session. *)
Definition select_uploads
    (files_nella_sessione nuovi_file_caricati : list SessionFile)
    : UploadOutcome :=
  let files_count := len files_nella_sessione in
  let id_esistenti := map upload_id files_nella_sessione in
  let file_potenziali :=
    filter (fun f => negb (existsb (String.eqb f.(upload_id)) id_esistenti))
           nuovi_file_caricati in
  let (errori, file_validi) := check_sizes file_potenziali in
  let spazio_disponibile := MAX_CONCURRENT_FILES - files_count in
  {| errori_dimensioni := errori;
     warning_troppi_file :=
       if len file_validi >? spazio_disponibile
       then Some ("⚠️ Hai caricato troppi file. C'è spazio solo per "
                  ++ str_of_int spazio_disponibile
                  ++ " files. Verranno aggiunti solo i primi file idonei.")
       else None;
     file_finali := py_slice_to spazio_disponibile file_validi |}.

(** [for file in file_finali: cache.get_or_create(file.file_id, file)]
    (lines 730-731); [clock i] is the value of [time.time()] in the call
    for the file at position [i]. *)
Fixpoint register_files (clock : nat -> Z) (i : nat)
    (files : list SessionFile) (self : OptimizedFileCache)
    : OptimizedFileCache * result unit :=
  match files with
  | [] => (self, Ok tt)
  | f :: r =>
      let (s1, res) := get_or_create f.(upload_id) f.(file) (clock i) self in
      match res with
      | Ok _ => register_files clock (S i) r s1
      | Raise e => (s1, Raise e)
      end
  end.

(** The truth value of a Python value ([if ai_content:]). *)
Definition truthy (v : pyval) : bool :=
  match v with
  | VNone => false
  | VStr s => negb (String.eqb s "")
  | VBool b => b
  | VImage _ => true
  | VDict d => match d with [] => false | _ => true end
  end.

(** The loop of [handle_user_prompt] over the uploaded files (lines
    807-812): the cache after the loop and what was appended to
    [model_content]. *)
Fixpoint collect_ai_content (clock : nat -> Z) (i : nat)
    (uploaded_files : list SessionFile) (self : OptimizedFileCache)
    : OptimizedFileCache * result (list pyval) :=
  match uploaded_files with
  | [] => (self, Ok [])
  | f :: r =>
      let (s1, res) := get_or_create f.(upload_id) f.(file) (clock i) self in
      match res with
      | Raise e => (s1, Raise e)
      | Ok cached_file =>
          if is_ready cached_file
          then match get_for_ai_model cached_file with
               | Raise e => (s1, Raise e)
               | Ok ai_content =>
                   let (s2, rest) := collect_ai_content clock (S i) r s1 in
                   (s2, tail <- rest ;;
                        Ok (if truthy ai_content then ai_content :: tail
                            else tail))
               end
          else collect_ai_content clock (S i) r s1
      end
  end.

Section Prompt.

(** [str.strip] and [re.compile(pattern, re.IGNORECASE).sub(repl, text)]
    are Python's. *)
Variable strip : string -> string.
Variable re_sub : string -> string -> string -> string.

(** [SecuritySystem.anonymize_data] (lines 227-232) with the patterns of
    [_initialize_data_patterns], in the order of the dict. *)
Definition anonymize_data (text : string) : string :=
  if String.eqb text "" then text
  else
    let anonymized_text :=
      re_sub ("\b[A-Za-z0-9._%+-]+@[A-Za-z0-9.-]+\.[A-Z|a-z]{2,}\b")
             "[EMAIL_ANONIMIZZATO]" text in
    re_sub ("\bAIza[0-9A-Za-z\-_]{35}\b")
           "[API_KEY_ANONIMIZZATO]" anonymized_text.

(** Lines 799-812 of [handle_user_prompt]: [None] when the prompt is blank,
    else the content that is sent to the model. *)
Definition model_content_of (user_prompt : string) (clock : nat -> Z)
    (uploaded_files : list SessionFile) (self : OptimizedFileCache)
    : OptimizedFileCache * result (option (list pyval)) :=
  if String.eqb (strip user_prompt) "" then (self, Ok None)
  else
    let sanitized_prompt := anonymize_data user_prompt in
    let (s1, rest) := collect_ai_content clock 0 uploaded_files self in
    (s1, tail <- rest ;; Ok (Some (VStr sanitized_prompt :: tail))).

End Prompt.

(** ** Stand-ins for the external libraries, to run the cache on examples

    Any functions would do; these are small enough to evaluate. *)

Module Demo.

Definition digest (n : nat) (data : bytes) : string :=
  string_of_list_byte (firstn (2 * n) data).

Definition open_image (data : bytes) : result Image :=
  match data with
  | [] => Raise "cannot identify image file"
  | x42 :: _ =>
      Ok {| mode := "RGB"; width := 1024; height := 1024; pixels := data |}
  | _ => Ok {| mode := "RGB"; width := 512; height := 512; pixels := data |}
  end.

Definition convert (m : string) (img : Image) : result Image :=
  Ok {| mode := m; width := img.(width); height := img.(height);
        pixels := img.(pixels) |}.

Definition thumbnail (size : Z * Z) (img : Image) : result Image :=
  Ok {| mode := img.(mode);
        width := Z.max 0 (Z.min (fst size) img.(width));
        height := Z.max 0 (Z.min (snd size) img.(height));
        pixels := img.(pixels) |}.

Definition open_pdf (data : bytes) : result (list (result string)) :=
  match data with
  | x25 :: _ => Ok [Ok (string_of_list_byte data)]
  | _ => Raise "Failed to open stream"
  end.

Definition ext : Externals :=
  {| blake2b_hexdigest := digest; Image_open := open_image;
     Image_convert := convert; Image_thumbnail := thumbnail;
     fitz_open := open_pdf |}.

Definition upload (fname mime : string) (data : string) : UploadedFile :=
  {| name := fname; type := mime; getvalue := Ok (list_byte_of_string data) |}.

Definition png_a : UploadedFile := upload "a.png" "image/png" "PNG-one".
Definition png_b : UploadedFile := upload "b.png" "image/png" "PNG-one".
Definition png_c : UploadedFile := upload "c.png" "image/png" "PNG-two".
Definition png_e : UploadedFile := upload "e.png" "image/png" "PNG-three".
Definition big_d : UploadedFile := upload "d.png" "image/png" "BIG".
Definition bad_png : UploadedFile := upload "bad.png" "image/png" "".
Definition bad_pdf : UploadedFile := upload "bad.pdf" "application/pdf" "junk".
Definition unreadable : UploadedFile :=
  {| name := "gone.png"; type := "image/png"; getvalue := Raise "I/O error" |}.

End Demo.

(** The entries that the cache builds: a placeholder, the entry of a
    processed file, or the entry of a failed job. *)
Inductive built (E : Externals) : CachedFile -> Prop :=
| built_placeholder (fid fname : string) :
    built E (placeholder fid fname)
| built_content (fid : string) (file_obj : UploadedFile)
    (file_data : bytes) (fhash : string) (cached_file : CachedFile) :
    process_content E fid file_obj file_data fhash = Ok cached_file ->
    built E cached_file
| built_error (fid : string) (file_obj : UploadedFile) (e : string) :
    built E (error_entry fid file_obj e).

(** [fid] is pending: it has no entry, its job is recorded under handle
    [h] and the job is not done. *)
Definition pending_on (fid : string) (h : nat) (self : OptimizedFileCache)
    : Prop :=
  dict_get fid self.(cache) = None /\
  dict_get fid self.(processing_queue) = Some h /\
  exists fu, future_at h self = Some fu /\ done fu = false.

(** The exception, if any, that a job for [fid] and [file_obj] raises in
    lines 155-163 of [process_file_async] when it looks the cache up in
    state [self]. *)
Definition job_raises (E : Externals) (fid : string)
    (file_obj : UploadedFile) (self : OptimizedFileCache) : option string :=
  match process_lookup E file_obj self with
  | Raise e => Some e
  | Ok (Hit _) => None
  | Ok (Miss file_data fhash) =>
      match process_content E fid file_obj file_data fhash with
      | Raise e => Some e
      | Ok _ => None
      end
  end.

(** ** Vocabulary of the statements *)

(** [needed_bytes] more fit into the budget. *)
Definition fits (needed_bytes : Z) (self : OptimizedFileCache) : Prop :=
  self.(current_memory_usage) + needed_bytes <= self.(max_memory_bytes).

(** [d] after [d.pop(k)] for each [k] of [ks]. *)
Fixpoint pop_all {V : Type} (ks : list string) (d : dict V) : dict V :=
  match ks with
  | [] => d
  | k :: r => pop_all r (dict_pop k d)
  end.

Definition cost_in (c : dict CachedFile) (k : string) : Z :=
  match dict_get k c with
  | Some cached_file => cached_file.(memory_usage)
  | None => 0
  end.

Definition sum (l : list Z) : Z := fold_right Z.add 0 l.

(** The memory usage of the entries of [c] under the keys [ks]. *)
Definition total_cost (c : dict CachedFile) (ks : list string) : Z :=
  sum (map (cost_in c) ks).

(** [sum(f.memory_usage for f in self.cache.values())] *)
Definition cached_bytes (self : OptimizedFileCache) : Z :=
  sum (map memory_usage (values self.(cache))).

Definition by_time (x y : string * Z) : Prop := snd x <= snd y.

(** [cache] and [access_times] have the same keys. *)
Definition keys_agree (self : OptimizedFileCache) : Prop :=
  forall fid,
    dict_mem fid self.(cache) = dict_mem fid self.(access_times).

(** The keys of each dict are distinct, and the two dicts of the store
    have the same keys. *)
Definition store_wf (self : OptimizedFileCache) : Prop :=
  NoDup (keys self.(cache)) /\
  NoDup (keys self.(access_times)) /\
  keys_agree self.

(** The store is well formed and the counter is the sum of the costs. *)
Definition accounted (s : OptimizedFileCache) : Prop :=
  store_wf s /\ s.(current_memory_usage) = cached_bytes s.

(** Every handle recorded in [processing_queue] refers to a future of the
    executor, and that future has not been cancelled. *)
Definition handles_live (self : OptimizedFileCache) : Prop :=
  forall fid h,
    dict_get fid self.(processing_queue) = Some h ->
    exists fu, future_at h self = Some fu /\ fu.(state) <> CANCELLED.

(** [cf] is the entry that processing some file gives. *)
Definition processed (E : Externals) (cf : CachedFile) : Prop :=
  exists fid file_obj file_data fhash,
    process_content E fid file_obj file_data fhash = Ok cf.

(** The entry that a running job holds after line 163. *)
Definition phase_entry (st : FutureState) : option CachedFile :=
  match st with
  | RUNNING (Processed cf) | RUNNING (Evicted cf) | RUNNING (Inserted cf) =>
      Some cf
  | _ => None
  end.

(** Every entry in the cache, and every entry that a running job is about
    to insert, comes from [process_content]. *)
Definition entries_processed (E : Externals) (self : OptimizedFileCache)
    : Prop :=
  (forall x, In x (values self.(cache)) -> processed E x) /\
  (forall h fu cf,
     future_at h self = Some fu -> phase_entry fu.(state) = Some cf ->
     processed E cf).

(** Every job that has not started is recorded in [processing_queue]
    under its identifier. *)
Definition pending_recorded (self : OptimizedFileCache) : Prop :=
  forall h fu,
    future_at h self = Some fu -> fu.(state) = PENDING ->
    dict_get fu.(job_file_id) self.(processing_queue) = Some h.

(** [cf] is what a job for [fid] and [file_obj] makes when it finds no
    entry with the fingerprint of the file (lines 155-163). *)
Definition made_from (E : Externals) (fid : string)
    (file_obj : UploadedFile) (cf : CachedFile) : Prop :=
  exists file_data,
    file_obj.(getvalue) = Ok file_data /\
    process_content E fid file_obj file_data (get_file_hash E file_data)
      = Ok cf.

(** Every entry of the cache was made from an uploaded file under the
    identifier it is stored under, and so will be every entry that a
    running job is about to insert. *)
Definition entries_own_id (E : Externals) (self : OptimizedFileCache)
    : Prop :=
  (forall fid cf,
     dict_get fid self.(cache) = Some cf ->
     exists file_obj, made_from E fid file_obj cf) /\
  (forall h fu cf,
     future_at h self = Some fu -> phase_entry fu.(state) = Some cf ->
     made_from E fu.(job_file_id) fu.(job_file_obj) cf).

(** The result of every finished job is the entry of a processed file or
    the error entry of the job. *)
Definition results_final (E : Externals) (self : OptimizedFileCache)
    : Prop :=
  forall h fu r,
    future_at h self = Some fu -> fu.(state) = FINISHED r ->
    processed E r \/
    exists e, r = error_entry fu.(job_file_id) fu.(job_file_obj) e.

(** What a file contributes to the content of a prompt: an image, or a
    text that is not empty. *)
Definition is_payload (v : pyval) : Prop :=
  (exists img, v = VImage img) \/
  (exists text, v = VStr text /\ text <> ""%string).

(** The job has not yet inserted its entry. *)
Definition not_inserted (st : FutureState) : bool :=
  match st with
  | RUNNING (Inserted _) => false
  | _ => true
  end.

(** Every job that is not over is the one recorded in [processing_queue]
    under its identifier, and until it inserts its entry the cache has no
    entry under that identifier. *)
Definition jobs_tracked (self : OptimizedFileCache) : Prop :=
  forall h fu,
    future_at h self = Some fu -> done fu = false ->
    dict_get fu.(job_file_id) self.(processing_queue) = Some h /\
    (not_inserted fu.(state) = true ->
     dict_get fu.(job_file_id) self.(cache) = None).

Definition no_clear (ev : Event) : bool :=
  match ev with
  | Clear => false
  | _ => true
  end.

(** Every handle recorded in [processing_queue] is that of a job for the
    identifier it is recorded under. *)
Definition queue_named (self : OptimizedFileCache) : Prop :=
  forall fid h,
    dict_get fid self.(processing_queue) = Some h ->
    exists fu, future_at h self = Some fu /\ fu.(job_file_id) = fid.

(** The entry of an identifier whose job is recorded is the entry that
    this job has inserted. *)
Definition published_own (self : OptimizedFileCache) : Prop :=
  forall fid h fu entry,
    dict_get fid self.(processing_queue) = Some h ->
    future_at h self = Some fu ->
    dict_get fid self.(cache) = Some entry ->
    fu.(state) = RUNNING (Inserted entry) \/ fu.(state) = FINISHED entry.

(** Every entry of the cache was made by a job of the executor for the
    identifier it is stored under, from the file that was uploaded with
    that job. *)
Definition entries_from_jobs (E : Externals) (self : OptimizedFileCache)
    : Prop :=
  forall fid cf,
    dict_get fid self.(cache) = Some cf ->
    exists h fu,
      future_at h self = Some fu /\ fu.(job_file_id) = fid /\
      made_from E fid fu.(job_file_obj) cf.



(** The states that the cache reaches from its construction. *)
Definition reachable (E : Externals) (self : OptimizedFileCache) : Prop :=
  exists max_memory_mb workers evs,
    self = run E evs (new_OptimizedFileCache max_memory_mb workers).

(** [self] after the entry [cached_file] under [fid] has been taken out:
    the body of [remove_file] and of the eviction loop. *)
Definition pop_entry (fid : string) (cached_file : CachedFile)
    (self : OptimizedFileCache) : OptimizedFileCache :=
  set_store (dict_pop fid self.(cache))
            (dict_pop fid self.(access_times))
            (self.(current_memory_usage) - cached_file.(memory_usage))
            self.

(** The memory usage is within the budget, or the cache holds a single
    entry that by itself exceeds the budget. *)
Definition within_budget (self : OptimizedFileCache) : Prop :=
  self.(current_memory_usage) <= self.(max_memory_bytes) \/
  exists fid cached_file,
    self.(cache) = [(fid, cached_file)] /\
    self.(max_memory_bytes) < cached_file.(memory_usage).

(** *** Runs in which no job is interleaved with anything else

    Each job runs from the moment a worker takes it to its return without
    any other step in between. *)

Inductive SerialEvent : Type :=
| SGetOrCreate (fid : string) (file_obj : UploadedFile) (now : Z)
| SRemoveFile (fid : string)
| SClear
| SJob (now : Z).

Definition serial_step (E : Externals) (ev : SerialEvent)
    (self : OptimizedFileCache) : OptimizedFileCache :=
  match ev with
  | SGetOrCreate fid file_obj now => step E (GetOrCreate fid file_obj now) self
  | SRemoveFile fid => step E (RemoveFile fid) self
  | SClear => step E Clear self
  | SJob now =>
      match first_pending self.(executor).(futures) with
      | Some h => run E (WorkerBegin :: whole_job h now) self
      | None => self
      end
  end.

Fixpoint serial_run (E : Externals) (evs : list SerialEvent)
    (self : OptimizedFileCache) : OptimizedFileCache :=
  match evs with
  | [] => self
  | ev :: r => serial_run E r (serial_step E ev self)
  end.

(** What holds between the steps of such a run. *)
Record serial_inv (self : OptimizedFileCache) : Prop := {
  inv_wf : store_wf self;
  inv_sum : self.(current_memory_usage) = cached_bytes self;
  inv_idle : forall h fu, future_at h self = Some fu -> is_running fu = false;
  inv_pending :
    forall h fu, future_at h self = Some fu -> fu.(state) = PENDING ->
      dict_get fu.(job_file_id) self.(processing_queue) = Some h /\
      dict_get fu.(job_file_id) self.(cache) = None;
  inv_workers : (0 < self.(executor).(max_workers))%nat
}.

(** The sizes that the image library reports are not negative. *)
Definition sizes_nonneg (E : Externals) : Prop :=
  forall size img img',
    E.(Image_thumbnail) size img = Ok img' ->
    0 <= img'.(width) /\ 0 <= img'.(height).

(** No entry of the cache has a negative cost. *)
Definition costs_nonneg (self : OptimizedFileCache) : Prop :=
  forall fid cached_file,
    dict_get fid self.(cache) = Some cached_file ->
    0 <= cached_file.(memory_usage).

(** ** Runs of the cache on the stand-ins *)

Module Scenario.

Import Demo.

(** A cache of 1 MiB with two workers. *)
Definition fresh : OptimizedFileCache := new_OptimizedFileCache 1 2.

(** The entry that processing [png_a] under identifier "a" gives. *)
Definition entry_a : CachedFile :=
  new_CachedFile "a" "a.png" "image"
    (VImage {| mode := "RGB"; width := 512; height := 512;
               pixels := list_byte_of_string "PNG-one" |})
    786432 "PNG-one".

(** "a" is uploaded and its job runs to the end. *)
Definition a_ready : OptimizedFileCache :=
  Eval vm_compute in
  run ext ([GetOrCreate "a" png_a 1; WorkerBegin] ++ whole_job 0 2) fresh.

(** A file that is not an image is uploaded and its job runs. *)
Definition bad_done : OptimizedFileCache :=
  Eval vm_compute in
  run ext ([GetOrCreate "x" bad_png 1; WorkerBegin] ++ whole_job 0 2) fresh.

(** [clear] is called while the job of "a" is between its processing and
    its eviction step; the job then runs to the end. *)
Definition cleared_while_running : OptimizedFileCache :=
  Eval vm_compute in
  run ext [GetOrCreate "a" png_a 1; WorkerBegin; WorkerLookup 0; Clear;
           WorkerEvict 0; WorkerInsert 0 2; WorkerReturn 0] fresh.

(** A cache of 4 MiB in which "A", "B" and "C" were inserted at times 1,
    2 and 3; each entry takes 0.75 MiB. *)
Definition three_cached : OptimizedFileCache :=
  Eval vm_compute in
  run ext ([GetOrCreate "A" png_a 0; WorkerBegin] ++ whole_job 0 1 ++
           [GetOrCreate "B" png_c 0; WorkerBegin] ++ whole_job 1 2 ++
           [GetOrCreate "C" png_e 0; WorkerBegin] ++ whole_job 2 3)
      (new_OptimizedFileCache 4 2).

End Scenario.

(** * Facts about the model *)

(** ** Dictionaries *)

Section DictFacts.

Context {V : Type}.
Implicit Types (k : string) (v : V) (d : dict V).

Lemma dict_get_pop_eq k d : dict_get k (dict_pop k d) = None.
Proof.
  induction d as [|[k' v'] r IH]; simpl; [reflexivity|].
  destruct (String.eqb k k') eqn:Hk; [exact IH|].
  simpl. rewrite Hk. exact IH.
Qed.

Lemma dict_get_pop_ne k k' d :
  k <> k' -> dict_get k' (dict_pop k d) = dict_get k' d.
Proof.
  intros Hne. induction d as [|[k0 v0] r IH]; simpl; [reflexivity|].
  destruct (String.eqb k k0) eqn:Hk.
  - apply String.eqb_eq in Hk. subst k0.
    rewrite IH. destruct (String.eqb k' k) eqn:Hk'; [|reflexivity].
    apply String.eqb_eq in Hk'. congruence.
  - simpl. rewrite IH. reflexivity.
Qed.

Lemma dict_get_set_eq k v d : dict_get k (dict_set k v d) = Some v.
Proof.
  induction d as [|[k0 v0] r IH]; simpl.
  - now rewrite String.eqb_refl.
  - destruct (String.eqb k k0) eqn:Hk; simpl.
    + now rewrite String.eqb_refl.
    + now rewrite Hk.
Qed.

Lemma dict_get_set_ne k k' v d :
  k <> k' -> dict_get k' (dict_set k v d) = dict_get k' d.
Proof.
  intros Hne. induction d as [|[k0 v0] r IH]; simpl.
  - destruct (String.eqb k' k) eqn:Hk'; [|reflexivity].
    apply String.eqb_eq in Hk'. congruence.
  - destruct (String.eqb k k0) eqn:Hk; simpl.
    + apply String.eqb_eq in Hk. subst k0.
      destruct (String.eqb k' k) eqn:Hk'; [|reflexivity].
      apply String.eqb_eq in Hk'. congruence.
    + now rewrite IH.
Qed.

Lemma dict_set_absent k v d :
  dict_get k d = None -> dict_set k v d = (d ++ [(k, v)])%list.
Proof.
  induction d as [|[k0 v0] r IH]; simpl; [reflexivity|].
  destruct (String.eqb k k0); [discriminate|].
  intros H. now rewrite IH.
Qed.

Lemma dict_pop_absent k d : dict_get k d = None -> dict_pop k d = d.
Proof.
  induction d as [|[k0 v0] r IH]; simpl; [reflexivity|].
  destruct (String.eqb k k0); [discriminate|].
  intros H. now rewrite IH.
Qed.

End DictFacts.

(** ** The store of futures *)

Lemma nth_error_update_nth_eq {A : Type} (f : A -> A) (l : list A)
    (n : nat) (x : A) :
  nth_error l n = Some x -> nth_error (update_nth n f l) n = Some (f x).
Proof.
  revert n. induction l as [|y r IH]; intros [|n]; simpl; try discriminate.
  - now intros [= ->].
  - apply IH.
Qed.

Lemma nth_error_update_nth_ne {A : Type} (f : A -> A) (l : list A)
    (n m : nat) :
  n <> m -> nth_error (update_nth n f l) m = nth_error l m.
Proof.
  revert n m. induction l as [|y r IH]; intros [|n] [|m] Hne; simpl;
    try reflexivity; try congruence.
  apply IH. congruence.
Qed.

Lemma length_update_nth {A : Type} (f : A -> A) (l : list A) (n : nat) :
  List.length (update_nth n f l) = List.length l.
Proof.
  revert n. induction l as [|y r IH]; intros [|n]; simpl; auto.
Qed.

Lemma future_at_set_future_state_eq (h : nat) (st : FutureState)
    (self : OptimizedFileCache) (fu : Future) :
  future_at h self = Some fu ->
  future_at h (set_future_state h st self) = Some (with_state st fu).
Proof. apply nth_error_update_nth_eq. Qed.

Lemma future_at_set_future_state_ne (h h' : nat) (st : FutureState)
    (self : OptimizedFileCache) :
  h <> h' ->
  future_at h' (set_future_state h st self) = future_at h' self.
Proof. apply nth_error_update_nth_ne. Qed.

(** ** The entries that processing builds *)

Lemma extract_pdf_text_has_text (E : Externals) (pdf_data : bytes)
    (max_pages : Z) :
  exists text, dict_get "text_content" (extract_pdf_text E pdf_data max_pages)
               = Some (VStr text).
Proof.
  unfold extract_pdf_text.
  destruct (read_pdf_pages E pdf_data max_pages); simpl; eauto.
Qed.

Lemma process_content_shape (E : Externals) (fid : string)
    (file_obj : UploadedFile) (file_data : bytes) (fhash : string)
    (cf : CachedFile) :
  process_content E fid file_obj file_data fhash = Ok cf ->
  cf.(is_placeholder) = false /\ cf.(file_id) = fid /\
  cf.(file_hash) = fhash /\
  ((cf.(content_type) = "pdf" /\
   exists text,
     cf.(processed_data) = VDict (extract_pdf_text E file_data 10) /\
     dict_get "text_content" (extract_pdf_text E file_data 10)
       = Some (VStr text) /\
     cf.(memory_usage) = len (encode text)) \/
  (cf.(content_type) = "image" /\
   exists img,
     optimize_image E file_data = Ok img /\
     cf.(processed_data) = VImage img /\
     cf.(memory_usage) = img.(width) * img.(height) * 3)).
Proof.
  unfold process_content.
  destruct (String.eqb file_obj.(type) "application/pdf"); simpl.
  - destruct (extract_pdf_text_has_text E file_data 10) as [text Ht].
    rewrite Ht. simpl. intros H. injection H as <-.
    repeat (split; [reflexivity|]). left. simpl. eauto.
  - destruct (optimize_image E file_data) as [img|e]; simpl; [|discriminate].
    intros H. injection H as <-.
    repeat (split; [reflexivity|]). right. simpl. eauto.
Qed.

Lemma encode_length (s : string) :
  List.length (encode s) = String.length s.
Proof.
  unfold encode, list_byte_of_string. rewrite length_map.
  induction s as [|a s IH]; simpl; [reflexivity | now rewrite IH].
Qed.

(** ** The three cases of [get_or_create] *)

Lemma get_or_create_pending (fid : string) (h : nat)
    (file_obj : UploadedFile) (now : Z) (self : OptimizedFileCache) :
  pending_on fid h self ->
  get_or_create fid file_obj now self
    = (self, Ok (placeholder fid file_obj.(name))).
Proof.
  intros (Hc & Hq & fu & Hf & Hd).
  unfold get_or_create. rewrite Hc, Hq, Hf, Hd. reflexivity.
Qed.

Lemma get_or_create_unknown (fid : string) (file_obj : UploadedFile)
    (now : Z) (self : OptimizedFileCache) :
  dict_get fid self.(cache) = None ->
  dict_get fid self.(processing_queue) = None ->
  let h := List.length self.(executor).(futures) in
  let s1 := fst (get_or_create fid file_obj now self) in
  snd (get_or_create fid file_obj now self)
    = Ok (placeholder fid file_obj.(name)) /\
  s1.(executor).(futures)
    = (self.(executor).(futures) ++
       [{| job_file_id := fid; job_file_obj := file_obj;
           state := PENDING |}])%list /\
  s1.(processing_queue) = (self.(processing_queue) ++ [(fid, h)])%list /\
  s1.(cache) = self.(cache) /\
  s1.(access_times) = self.(access_times) /\
  s1.(current_memory_usage) = self.(current_memory_usage) /\
  s1.(processor_calls) = self.(processor_calls) /\
  pending_on fid h s1.
Proof.
  intros Hc Hq h s1.
  assert (Hs1 : get_or_create fid file_obj now self
                = (set_processing_queue
                     (dict_set fid h self.(processing_queue))
                     (set_executor (fst (submit self.(executor) fid file_obj))
                        self),
                   Ok (placeholder fid file_obj.(name)))).
  { unfold get_or_create. rewrite Hc, Hq. reflexivity. }
  subst s1. rewrite Hs1. simpl.
  split; [reflexivity|]. split; [reflexivity|].
  split; [apply dict_set_absent; exact Hq|].
  do 4 (split; [reflexivity|]).
  split; [exact Hc|]. split; [apply dict_get_set_eq|].
  eexists. split.
  - unfold future_at. simpl. fold h.
    rewrite nth_error_app2 by (unfold h; lia).
    unfold h. rewrite Nat.sub_diag. reflexivity.
  - reflexivity.
Qed.

Lemma get_or_create_finished (fid : string) (file_obj : UploadedFile)
    (now : Z) (self : OptimizedFileCache) (h : nat) (fu : Future)
    (r : CachedFile) :
  dict_get fid self.(cache) = None ->
  dict_get fid self.(processing_queue) = Some h ->
  future_at h self = Some fu ->
  fu.(state) = FINISHED r ->
  get_or_create fid file_obj now self
    = (set_processing_queue (dict_pop fid self.(processing_queue)) self,
       Ok r).
Proof.
  intros Hc Hq Hf Hst. unfold get_or_create, done, future_result.
  rewrite Hc, Hq, Hf, Hst. reflexivity.
Qed.

(** ** What the steps of a worker leave alone *)

Lemma evict_loop_frame (needed : Z) (l : list (string * Z))
    (self : OptimizedFileCache) :
  (evict_loop needed l self).(processing_queue) = self.(processing_queue) /\
  (evict_loop needed l self).(executor) = self.(executor) /\
  (evict_loop needed l self).(max_memory_bytes) = self.(max_memory_bytes) /\
  (evict_loop needed l self).(processor_calls) = self.(processor_calls).
Proof.
  revert self. induction l as [|[fid t] rest IH]; intros self; simpl.
  - auto.
  - destruct (_ <=? _); [auto|].
    destruct (dict_get fid self.(cache)) as [cf|]; [|apply IH].
    destruct (IH (set_store (dict_pop fid self.(cache))
                    (dict_pop fid self.(access_times))
                    (self.(current_memory_usage) - cf.(memory_usage)) self))
      as (H1 & H2 & H3 & H4).
    rewrite H1, H2, H3, H4. auto.
Qed.

Lemma evict_lru_if_needed_frame (needed : Z) (self : OptimizedFileCache) :
  (evict_lru_if_needed needed self).(processing_queue)
    = self.(processing_queue) /\
  (evict_lru_if_needed needed self).(executor) = self.(executor) /\
  (evict_lru_if_needed needed self).(max_memory_bytes)
    = self.(max_memory_bytes) /\
  (evict_lru_if_needed needed self).(processor_calls)
    = self.(processor_calls).
Proof.
  unfold evict_lru_if_needed. destruct (_ <=? _); [auto|].
  apply evict_loop_frame.
Qed.

Lemma worker_begin_queue (self : OptimizedFileCache) :
  (worker_begin self).(processing_queue) = self.(processing_queue).
Proof.
  unfold worker_begin. destruct (_ <? _)%nat; [|reflexivity].
  destruct (first_pending _); reflexivity.
Qed.

Lemma worker_lookup_queue (E : Externals) (h : nat)
    (self : OptimizedFileCache) :
  (worker_lookup E h self).(processing_queue) = self.(processing_queue).
Proof.
  unfold worker_lookup.
  destruct (future_at h self) as [fu|]; [|reflexivity].
  destruct fu.(state) as [|[| | |]| |]; try reflexivity.
  destruct (process_lookup E _ self) as [[existing|data fhash]|e];
    try reflexivity.
  destruct (process_content E _ _ data fhash); reflexivity.
Qed.

Lemma worker_evict_queue (h : nat) (self : OptimizedFileCache) :
  (worker_evict h self).(processing_queue) = self.(processing_queue).
Proof.
  unfold worker_evict.
  destruct (future_at h self) as [fu|]; [|reflexivity].
  destruct fu.(state) as [|[| cf | |]| |]; try reflexivity.
  simpl. apply evict_lru_if_needed_frame.
Qed.

Lemma worker_insert_queue (h : nat) (now : Z) (self : OptimizedFileCache) :
  (worker_insert h now self).(processing_queue) = self.(processing_queue).
Proof.
  unfold worker_insert.
  destruct (future_at h self) as [fu|]; [|reflexivity].
  destruct fu.(state) as [|[| | |]| |]; reflexivity.
Qed.

Lemma worker_return_queue (h : nat) (self : OptimizedFileCache) :
  (worker_return h self).(processing_queue) = self.(processing_queue).
Proof.
  unfold worker_return.
  destruct (future_at h self) as [fu|]; [|reflexivity].
  destruct fu.(state) as [|[| | |]| |]; reflexivity.
Qed.

Lemma worker_insert_spec (h : nat) (now : Z) (self : OptimizedFileCache)
    (fu : Future) (cf : CachedFile) :
  future_at h self = Some fu ->
  fu.(state) = RUNNING (Evicted cf) ->
  worker_insert h now self
    = set_future_state h (RUNNING (Inserted cf))
        (set_store (dict_set fu.(job_file_id) cf self.(cache))
                   (dict_set fu.(job_file_id) now self.(access_times))
                   (self.(current_memory_usage) + cf.(memory_usage))
                   self).
Proof.
  intros Hf Hs. unfold worker_insert. rewrite Hf, Hs. reflexivity.
Qed.

Lemma worker_return_spec (h : nat) (self : OptimizedFileCache)
    (fu : Future) (cf : CachedFile) :
  future_at h self = Some fu ->
  fu.(state) = RUNNING (Inserted cf) ->
  worker_return h self = set_future_state h (FINISHED cf) self.
Proof.
  intros Hf Hs. unfold worker_return. rewrite Hf, Hs. reflexivity.
Qed.

(** The only steps that take a handle out of [processing_queue]. *)
Lemma handle_removed_only_by (E : Externals) (ev : Event)
    (self : OptimizedFileCache) (fid : string) (h : nat) :
  dict_get fid self.(processing_queue) = Some h ->
  dict_get fid (step E ev self).(processing_queue) = Some h \/
  ev = Clear \/
  exists file_obj now fu,
    ev = GetOrCreate fid file_obj now /\
    dict_get fid self.(cache) = None /\
    future_at h self = Some fu /\ done fu = true.
Proof.
  intros Hq. destruct ev as [fid' f now|fid'| | |h'|h'|h' now|h']; simpl.
  - unfold get_or_create.
    destruct (dict_get fid' self.(cache)) as [cf|] eqn:Hc; [now left|].
    destruct (dict_get fid' self.(processing_queue)) as [h'|] eqn:Hq'.
    + destruct (future_at h' self) as [fu|] eqn:Hf; [|now left].
      destruct (done fu) eqn:Hd; [|now left].
      destruct (String.eqb fid' fid) eqn:Hid.
      * apply String.eqb_eq in Hid. subst fid'.
        assert (h' = h) by congruence. subst h'.
        right. right. exists f, now, fu. auto.
      * apply String.eqb_neq in Hid. left. simpl.
        rewrite dict_get_pop_ne by exact Hid. exact Hq.
    + left. simpl. rewrite dict_get_set_ne; [exact Hq|].
      intros ->. congruence.
  - left. unfold remove_file.
    destruct (dict_get fid' self.(cache)); exact Hq.
  - now right; left.
  - left. now rewrite worker_begin_queue.
  - left. now rewrite worker_lookup_queue.
  - left. now rewrite worker_evict_queue.
  - left. now rewrite worker_insert_queue.
  - left. now rewrite worker_return_queue.
Qed.

(** ** Cancelling the recorded futures *)

Lemma cancel_all_keeps (hs : list nat) (fs : list Future) (h : nat)
    (fu : Future) :
  nth_error fs h = Some fu -> cancel fu = fu ->
  nth_error (cancel_all hs fs) h = Some fu.
Proof.
  revert fs. induction hs as [|h' r IH]; intros fs Hn Hc; simpl; [exact Hn|].
  apply IH; [|exact Hc].
  destruct (Nat.eq_dec h' h) as [->|Hne].
  - rewrite (nth_error_update_nth_eq _ _ _ _ Hn). now rewrite Hc.
  - now rewrite nth_error_update_nth_ne.
Qed.

Lemma cancel_all_length (hs : list nat) (fs : list Future) :
  List.length (cancel_all hs fs) = List.length fs.
Proof.
  revert fs. induction hs as [|h r IH]; intros fs; simpl; [reflexivity|].
  now rewrite IH, length_update_nth.
Qed.

Lemma clear_keeps_started (self : OptimizedFileCache) (h : nat)
    (fu : Future) :
  future_at h self = Some fu -> is_pending fu = false ->
  future_at h (clear self) = Some fu.
Proof.
  intros Hf Hp. unfold clear, future_at. simpl.
  apply cancel_all_keeps; [exact Hf|].
  unfold cancel. unfold is_pending in Hp.
  destruct fu.(state); [discriminate|reflexivity..].
Qed.

(** ** Lookup by fingerprint *)

Lemma get_file_hash_prefix (E : Externals) (data1 data2 : bytes) :
  firstn (Z.to_nat 8192) data1 = firstn (Z.to_nat 8192) data2 ->
  get_file_hash E data1 = get_file_hash E data2.
Proof. unfold get_file_hash. now intros ->. Qed.

Lemma dict_get_In_values {V : Type} (k : string) (v : V) (d : dict V) :
  dict_get k d = Some v -> In v (values d).
Proof.
  induction d as [|[k' v'] r IH]; simpl; [discriminate|].
  destruct (String.eqb k k'); [intros [= ->]; now left | auto].
Qed.

Lemma find_by_hash_hits (self : OptimizedFileCache) (fid : string)
    (entry : CachedFile) (fhash : string) :
  dict_get fid self.(cache) = Some entry ->
  entry.(file_hash) = fhash ->
  exists existing,
    find_by_hash self fhash = Some existing /\
    In existing (values self.(cache)) /\
    existing.(file_hash) = fhash.
Proof.
  intros Hg Hh. unfold find_by_hash.
  destruct (find _ _) as [existing|] eqn:Hfind.
  - apply find_some in Hfind. destruct Hfind as [Hin Heq].
    apply String.eqb_eq in Heq. eauto.
  - apply find_none with (x := entry) in Hfind.
    + rewrite Hh, String.eqb_refl in Hfind. discriminate.
    + eapply dict_get_In_values; eauto.
Qed.

Lemma worker_lookup_hit (E : Externals) (h : nat)
    (self : OptimizedFileCache) (fu : Future) (existing : CachedFile) :
  future_at h self = Some fu ->
  fu.(state) = RUNNING AtStart ->
  process_lookup E fu.(job_file_obj) self = Ok (Hit existing) ->
  worker_lookup E h self = set_future_state h (FINISHED existing) self.
Proof.
  intros Hf Hst Hl. unfold worker_lookup. rewrite Hf, Hst, Hl. reflexivity.
Qed.

Lemma worker_lookup_raises (E : Externals) (h : nat)
    (self : OptimizedFileCache) (fu : Future) (e : string) :
  future_at h self = Some fu ->
  fu.(state) = RUNNING AtStart ->
  job_raises E fu.(job_file_id) fu.(job_file_obj) self = Some e ->
  let err := error_entry fu.(job_file_id) fu.(job_file_obj) e in
  worker_lookup E h self = set_future_state h (FINISHED err) self \/
  worker_lookup E h self
    = set_future_state h (FINISHED err) (count_processor_call self).
Proof.
  intros Hf Hst Hr err. unfold worker_lookup. rewrite Hf, Hst.
  unfold job_raises in Hr.
  destruct (process_lookup E _ self) as [[existing|data fhash]|e'].
  - discriminate.
  - destruct (process_content E _ _ data fhash) as [cf|e']; [discriminate|].
    injection Hr as ->. now right.
  - injection Hr as ->. now left.
Qed.

(** ** Keys of the dictionaries *)

Section KeyFacts.

Context {V : Type}.
Implicit Types (k : string) (v : V) (d : dict V).

Lemma dict_mem_In k d : dict_mem k d = true <-> In k (keys d).
Proof.
  unfold dict_mem.
  induction d as [|[k' v'] r IH]; simpl.
  - split; [discriminate | tauto].
  - destruct (String.eqb k k') eqn:Hk.
    + apply String.eqb_eq in Hk. subst. tauto.
    + apply String.eqb_neq in Hk. rewrite IH.
      split; [tauto | intros [H|H]; [congruence | exact H]].
Qed.

Lemma dict_get_None_notin k d : dict_get k d = None <-> ~ In k (keys d).
Proof.
  rewrite <- dict_mem_In. unfold dict_mem.
  destruct (dict_get k d); split; congruence.
Qed.

Lemma keys_dict_pop k d :
  keys (dict_pop k d) = filter (fun k' => negb (String.eqb k k')) (keys d).
Proof.
  induction d as [|[k' v'] r IH]; simpl; [reflexivity|].
  destruct (String.eqb k k'); simpl; now rewrite IH.
Qed.

Lemma NoDup_keys_pop k d : NoDup (keys d) -> NoDup (keys (dict_pop k d)).
Proof. intros H. rewrite keys_dict_pop. now apply NoDup_filter. Qed.

Lemma keys_dict_set k v d :
  keys (dict_set k v d)
    = if dict_mem k d then keys d else (keys d ++ [k])%list.
Proof.
  unfold dict_mem.
  induction d as [|[k' v'] r IH]; simpl; [reflexivity|].
  destruct (String.eqb k k') eqn:Hk; simpl.
  - apply String.eqb_eq in Hk. now subst.
  - rewrite IH. now destruct (dict_get k r).
Qed.

Lemma NoDup_keys_set k v d : NoDup (keys d) -> NoDup (keys (dict_set k v d)).
Proof.
  intros H. rewrite keys_dict_set.
  destruct (dict_mem k d) eqn:Hm; [exact H|].
  apply NoDup_app; [exact H | repeat constructor; auto |].
  intros x Hx [<-|[]].
  apply dict_mem_In in Hx. congruence.
Qed.

Lemma dict_mem_set k k' v d :
  dict_mem k' (dict_set k v d) = String.eqb k k' || dict_mem k' d.
Proof.
  unfold dict_mem. destruct (String.eqb k k') eqn:Hk; simpl.
  - apply String.eqb_eq in Hk. subst. now rewrite dict_get_set_eq.
  - apply String.eqb_neq in Hk. now rewrite dict_get_set_ne.
Qed.

Lemma dict_mem_pop k k' d :
  dict_mem k' (dict_pop k d) = negb (String.eqb k k') && dict_mem k' d.
Proof.
  unfold dict_mem. destruct (String.eqb k k') eqn:Hk; simpl.
  - apply String.eqb_eq in Hk. subst. now rewrite dict_get_pop_eq.
  - apply String.eqb_neq in Hk. now rewrite dict_get_pop_ne.
Qed.

Lemma pop_all_notin (ks : list string) d :
  (forall k, In k (keys d) -> In k ks) -> pop_all ks d = [].
Proof.
  revert d. induction ks as [|k0 r IH]; intros d Hall; simpl.
  - destruct d as [|[k v] d']; [reflexivity|].
    exfalso. apply (Hall k). now left.
  - apply IH. intros k Hk. rewrite keys_dict_pop in Hk.
    apply filter_In in Hk. destruct Hk as [Hk Hne].
    destruct (Hall k Hk) as [->|H]; [|exact H].
    now rewrite String.eqb_refl in Hne.
Qed.

Lemma dict_get_pop_all (ks : list string) k d :
  dict_get k (pop_all ks d) = if in_dec string_dec k ks then None
                              else dict_get k d.
Proof.
  revert d. induction ks as [|k0 r IH]; intros d; simpl; [reflexivity|].
  rewrite IH. destruct (string_dec k0 k) as [->|Hne].
  - rewrite dict_get_pop_eq. now destruct (in_dec string_dec k r).
  - rewrite dict_get_pop_ne by exact Hne.
    destruct (in_dec string_dec k r); reflexivity.
Qed.

End KeyFacts.

(** ** The order in which entries are evicted *)

Lemma insert_by_value_perm (x : string * Z) (l : list (string * Z)) :
  Permutation (insert_by_value x l) (x :: l).
Proof.
  induction l as [|y r IH]; simpl; [reflexivity|].
  destruct (snd x <=? snd y); [reflexivity|].
  rewrite IH. apply perm_swap.
Qed.

Lemma sorted_by_value_perm (l : list (string * Z)) :
  Permutation (sorted_by_value l) l.
Proof.
  induction l as [|x r IH]; simpl; [reflexivity|].
  rewrite insert_by_value_perm. now constructor.
Qed.

Lemma insert_by_value_sorted (x : string * Z) (l : list (string * Z)) :
  StronglySorted by_time l -> StronglySorted by_time (insert_by_value x l).
Proof.
  induction l as [|y r IH]; intros Hs; simpl.
  - repeat constructor.
  - inversion Hs as [|y' r' Hr Hy]; subst.
    destruct (snd x <=? snd y) eqn:Hle.
    + apply Z.leb_le in Hle. constructor; [exact Hs|].
      constructor; [exact Hle|].
      eapply Forall_impl; [|exact Hy].
      intros z Hz. unfold by_time in *. lia.
    + apply Z.leb_gt in Hle. constructor; [now apply IH|].
      eapply Permutation_Forall.
      * symmetry. apply insert_by_value_perm.
      * constructor; [unfold by_time; lia | exact Hy].
Qed.

Lemma sorted_by_value_sorted (l : list (string * Z)) :
  StronglySorted by_time (sorted_by_value l).
Proof.
  induction l as [|x r IH]; simpl; [constructor|].
  now apply insert_by_value_sorted.
Qed.

Lemma sorted_by_value_keys (l : list (string * Z)) :
  Permutation (keys (sorted_by_value l)) (keys l).
Proof. unfold keys. apply Permutation_map, sorted_by_value_perm. Qed.

(** A list whose values increase strictly is the only sorted arrangement
    of its items. *)
Lemma sorted_by_value_unique (l l' : list (string * Z)) :
  Permutation l l' ->
  StronglySorted (fun x y => snd x < snd y) l' ->
  sorted_by_value l = l'.
Proof.
  intros Hp Hs.
  assert (Hp' : Permutation (sorted_by_value l) l').
  { now rewrite sorted_by_value_perm. }
  pose proof (sorted_by_value_sorted l) as Hs'.
  clear Hp. revert Hs' Hp'. generalize (sorted_by_value l) as m.
  induction Hs as [|y r Hr IH Hy]; intros m Hm Hp.
  - now apply Permutation_sym, Permutation_nil in Hp.
  - destruct m as [|x m'].
    { apply Permutation_nil in Hp. discriminate. }
    inversion Hm as [|x' m'' Hm' Hx]; subst.
    assert (Hxy : x = y).
    { assert (Hin : In x (y :: r)).
      { eapply Permutation_in; [exact Hp | now left]. }
      destruct Hin as [->|Hin]; [reflexivity|].
      assert (Hin' : In y (x :: m')).
      { eapply Permutation_in; [symmetry; exact Hp | now left]. }
      destruct Hin' as [->|Hin']; [reflexivity|].
      rewrite Forall_forall in Hy, Hx.
      specialize (Hy x Hin). specialize (Hx y Hin').
      unfold by_time in Hx. simpl in *. lia. }
    subst x. f_equal. apply IH; [exact Hm'|].
    eapply Permutation_cons_inv. exact Hp.
Qed.

Lemma In_firstn {A : Type} (n : nat) (l : list A) (x : A) :
  In x (firstn n l) -> In x l.
Proof.
  revert l. induction n as [|n IH]; intros [|y r]; simpl; try tauto.
  intros [H|H]; [now left | right; now apply IH].
Qed.

Lemma sum_app (l1 l2 : list Z) : sum (l1 ++ l2) = sum l1 + sum l2.
Proof. unfold sum. induction l1; simpl; lia. Qed.

Lemma total_cost_pop_ne (c : dict CachedFile) (k : string)
    (ks : list string) :
  ~ In k ks -> total_cost (dict_pop k c) ks = total_cost c ks.
Proof.
  unfold total_cost. induction ks as [|k' r IH]; intros Hn; simpl;
    [reflexivity|].
  rewrite IH by (intros H; apply Hn; now right).
  unfold cost_in. rewrite dict_get_pop_ne; [reflexivity|].
  intros ->. apply Hn. now left.
Qed.

(** The loop evicts a prefix of the list it is given, and no longer a
    prefix than it needs. *)
Lemma evict_loop_prefix (needed : Z) (l : list (string * Z))
    (self : OptimizedFileCache) :
  NoDup (keys l) ->
  (forall k, In k (keys l) -> dict_mem k self.(cache) = true) ->
  exists n, (n <= List.length l)%nat /\
    let victims := firstn n (keys l) in
    let s' := evict_loop needed l self in
    s'.(cache) = pop_all victims self.(cache) /\
    s'.(access_times) = pop_all victims self.(access_times) /\
    s'.(current_memory_usage)
      = self.(current_memory_usage) - total_cost self.(cache) victims /\
    (fits needed s' \/ n = List.length l) /\
    (forall j, (j < n)%nat ->
       self.(max_memory_bytes)
         < self.(current_memory_usage)
           - total_cost self.(cache) (firstn j (keys l)) + needed).
Proof.
  revert self. induction l as [|[fid t] rest IH]; intros self Hnd Hmem.
  - exists O. simpl. unfold total_cost. simpl.
    repeat split; lia.
  - simpl. destruct (_ <=? _) eqn:Hfit.
    + apply Z.leb_le in Hfit. exists O. simpl. unfold total_cost. simpl.
      split; [lia|]. do 2 (split; [reflexivity|]). split; [lia|].
      split; [now left | intros j Hj; lia].
    + apply Z.leb_gt in Hfit.
      assert (Hin : dict_mem fid self.(cache) = true)
        by (apply Hmem; now left).
      unfold dict_mem in Hin.
      destruct (dict_get fid self.(cache)) as [cf|] eqn:Hg; [|discriminate].
      simpl in Hnd. inversion Hnd as [|? ? Hnotin Hnd']; subst.
      set (s1 := set_store (dict_pop fid self.(cache))
                   (dict_pop fid self.(access_times))
                   (self.(current_memory_usage) - cf.(memory_usage)) self).
      destruct (IH s1 Hnd') as (n & Hn & Hc & Ha & Hu & Hend & Hmin).
      { intros k Hk. simpl. rewrite dict_mem_pop.
        rewrite (Hmem k) by (now right).
        destruct (String.eqb fid k) eqn:He; [|reflexivity].
        apply String.eqb_eq in He. subst. contradiction. }
      assert (Hcost : forall j,
                total_cost s1.(cache) (firstn j (keys rest))
                = total_cost self.(cache) (firstn j (keys rest))).
      { intros j. simpl. apply total_cost_pop_ne.
        intros H. apply Hnotin. eapply In_firstn. exact H. }
      assert (Hfid : cost_in self.(cache) fid = cf.(memory_usage)).
      { unfold cost_in. now rewrite Hg. }
      exists (S n). split; [simpl; lia|]. cbn zeta. simpl firstn.
      split; [exact Hc|]. split; [exact Ha|].
      split.
      { rewrite Hu, Hcost. unfold total_cost. simpl map. simpl sum.
        fold (total_cost self.(cache) (firstn n (keys rest))).
        rewrite Hfid. simpl. lia. }
      split.
      { destruct Hend as [H|H]; [now left | right; simpl; lia]. }
      intros [|j] Hj.
      * unfold total_cost. simpl. lia.
      * specialize (Hmin j ltac:(lia)). rewrite Hcost in Hmin.
        simpl in Hmin. simpl firstn. unfold total_cost. simpl map.
        simpl sum. fold (total_cost self.(cache) (firstn j (keys rest))).
        rewrite Hfid. lia.
Qed.

Lemma evict_lru_if_needed_prefix (needed : Z) (self : OptimizedFileCache) :
  NoDup (keys self.(access_times)) ->
  keys_agree self ->
  let order := sorted_by_value self.(access_times) in
  let s' := evict_lru_if_needed needed self in
  exists n, (n <= List.length order)%nat /\
    let victims := firstn n (keys order) in
    s'.(cache) = pop_all victims self.(cache) /\
    s'.(access_times) = pop_all victims self.(access_times) /\
    s'.(current_memory_usage)
      = self.(current_memory_usage) - total_cost self.(cache) victims /\
    (fits needed s' \/ s'.(cache) = []) /\
    (forall j, (j < n)%nat ->
       self.(max_memory_bytes)
         < self.(current_memory_usage)
           - total_cost self.(cache) (firstn j (keys order)) + needed).
Proof.
  intros Hnd Hag order s'. unfold s', evict_lru_if_needed.
  destruct (_ <=? _) eqn:Hfit.
  - apply Z.leb_le in Hfit. exists O. simpl. unfold total_cost. simpl.
    split; [lia|]. do 2 (split; [reflexivity|]). split; [lia|].
    split; [now left | intros j Hj; lia].
  - fold order.
    assert (Hperm : Permutation (keys order) (keys self.(access_times)))
      by apply sorted_by_value_keys.
    destruct (evict_loop_prefix needed order self)
      as (n & Hn & Hc & Ha & Hu & Hend & Hmin).
    { eapply Permutation_NoDup; [symmetry; exact Hperm | exact Hnd]. }
    { intros k Hk. rewrite Hag. apply dict_mem_In.
      eapply Permutation_in; [exact Hperm | exact Hk]. }
    exists n. split; [exact Hn|]. cbn zeta in *.
    split; [exact Hc|]. split; [exact Ha|]. split; [exact Hu|].
    split; [|exact Hmin].
    destruct Hend as [H|H]; [now left | right].
    rewrite Hc. apply pop_all_notin. intros k Hk.
    subst n. unfold keys at 1. rewrite <- length_map with (f := fst).
    fold (keys order). rewrite firstn_all.
    eapply Permutation_in; [symmetry; exact Hperm|].
    apply dict_mem_In. rewrite <- Hag. now apply dict_mem_In.
Qed.

Lemma worker_evict_spec (h : nat) (self : OptimizedFileCache)
    (fu : Future) (cf : CachedFile) :
  future_at h self = Some fu ->
  fu.(state) = RUNNING (Processed cf) ->
  worker_evict h self
    = set_future_state h (RUNNING (Evicted cf))
        (evict_lru_if_needed cf.(memory_usage) self).
Proof.
  intros Hf Hs. unfold worker_evict. rewrite Hf, Hs. reflexivity.
Qed.

Lemma future_at_evict_lru_if_needed (needed : Z) (h : nat)
    (self : OptimizedFileCache) :
  future_at h (evict_lru_if_needed needed self) = future_at h self.
Proof.
  unfold future_at.
  destruct (evict_lru_if_needed_frame needed self) as (_ & -> & _).
  reflexivity.
Qed.

(** ** The scenario states are runs of the cache *)

Lemma scenario_states_are_runs :
  Scenario.a_ready
    = run Demo.ext ([GetOrCreate "a" Demo.png_a 1; WorkerBegin]
                    ++ whole_job 0 2) Scenario.fresh /\
  Scenario.bad_done
    = run Demo.ext ([GetOrCreate "x" Demo.bad_png 1; WorkerBegin]
                    ++ whole_job 0 2) Scenario.fresh /\
  Scenario.cleared_while_running
    = run Demo.ext [GetOrCreate "a" Demo.png_a 1; WorkerBegin;
                    WorkerLookup 0; Clear;
                    WorkerEvict 0; WorkerInsert 0 2; WorkerReturn 0]
        Scenario.fresh /\
  Scenario.three_cached
    = run Demo.ext ([GetOrCreate "A" Demo.png_a 0; WorkerBegin]
                    ++ whole_job 0 1 ++
                    [GetOrCreate "B" Demo.png_c 0; WorkerBegin]
                    ++ whole_job 1 2 ++
                    [GetOrCreate "C" Demo.png_e 0; WorkerBegin]
                    ++ whole_job 2 3) (new_OptimizedFileCache 4 2).
Proof. repeat split; vm_compute; reflexivity. Qed.

(** ** Invariants of the store in every reachable state *)

Lemma store_wf_same (s s' : OptimizedFileCache) :
  s'.(cache) = s.(cache) -> s'.(access_times) = s.(access_times) ->
  store_wf s -> store_wf s'.
Proof.
  unfold store_wf, keys_agree. intros -> ->. auto.
Qed.

Lemma store_wf_pop_entry (fid : string) (cf : CachedFile)
    (s : OptimizedFileCache) :
  store_wf s -> store_wf (pop_entry fid cf s).
Proof.
  intros (Hc & Ha & Hag). unfold store_wf, keys_agree. simpl.
  split; [now apply NoDup_keys_pop|].
  split; [now apply NoDup_keys_pop|].
  intros k. rewrite !dict_mem_pop. now rewrite Hag.
Qed.

Lemma store_wf_insert (fid : string) (cf : CachedFile) (now u : Z)
    (s : OptimizedFileCache) :
  store_wf s ->
  store_wf (set_store (dict_set fid cf s.(cache))
                      (dict_set fid now s.(access_times)) u s).
Proof.
  intros (Hc & Ha & Hag). unfold store_wf, keys_agree. simpl.
  split; [now apply NoDup_keys_set|].
  split; [now apply NoDup_keys_set|].
  intros k. rewrite !dict_mem_set. now rewrite Hag.
Qed.

(** A property of the store that each eviction keeps is kept by the
    loop. *)
Lemma evict_loop_keeps (P : OptimizedFileCache -> Prop) (needed : Z)
    (l : list (string * Z)) (s : OptimizedFileCache) :
  (forall s0 fid cf, P s0 -> dict_get fid s0.(cache) = Some cf ->
                     P (pop_entry fid cf s0)) ->
  P s -> P (evict_loop needed l s).
Proof.
  intros Hpop. revert s. induction l as [|[fid t] rest IH]; intros s Hs;
    simpl; [exact Hs|].
  destruct (_ <=? _); [exact Hs|].
  destruct (dict_get fid s.(cache)) as [cf|] eqn:Hg; [|now apply IH].
  apply IH. now apply (Hpop s fid cf).
Qed.

Lemma evict_lru_if_needed_keeps (P : OptimizedFileCache -> Prop)
    (needed : Z) (s : OptimizedFileCache) :
  (forall s0 fid cf, P s0 -> dict_get fid s0.(cache) = Some cf ->
                     P (pop_entry fid cf s0)) ->
  P s -> P (evict_lru_if_needed needed s).
Proof.
  intros Hpop Hs. unfold evict_lru_if_needed.
  destruct (_ <=? _); [exact Hs | now apply evict_loop_keeps].
Qed.

Lemma remove_file_pop_entry (fid : string) (s : OptimizedFileCache) :
  remove_file fid s
    = match dict_get fid s.(cache) with
      | Some cf => pop_entry fid cf s
      | None => s
      end.
Proof. reflexivity. Qed.

Lemma worker_lookup_store (E : Externals) (h : nat)
    (s : OptimizedFileCache) :
  (worker_lookup E h s).(cache) = s.(cache) /\
  (worker_lookup E h s).(access_times) = s.(access_times) /\
  (worker_lookup E h s).(current_memory_usage) = s.(current_memory_usage) /\
  (worker_lookup E h s).(max_memory_bytes) = s.(max_memory_bytes).
Proof.
  unfold worker_lookup.
  destruct (future_at h s) as [fu|]; [|auto].
  destruct fu.(state) as [|[| | |]| |]; auto.
  destruct (process_lookup E _ s) as [[existing|data fhash]|e]; auto.
  destruct (process_content E _ _ data fhash); auto.
Qed.

Lemma worker_begin_store (s : OptimizedFileCache) :
  (worker_begin s).(cache) = s.(cache) /\
  (worker_begin s).(access_times) = s.(access_times) /\
  (worker_begin s).(current_memory_usage) = s.(current_memory_usage) /\
  (worker_begin s).(max_memory_bytes) = s.(max_memory_bytes).
Proof.
  unfold worker_begin. destruct (_ <? _)%nat; [|auto].
  destruct (first_pending _); auto.
Qed.

Lemma worker_return_store (h : nat) (s : OptimizedFileCache) :
  (worker_return h s).(cache) = s.(cache) /\
  (worker_return h s).(access_times) = s.(access_times) /\
  (worker_return h s).(current_memory_usage) = s.(current_memory_usage) /\
  (worker_return h s).(max_memory_bytes) = s.(max_memory_bytes).
Proof.
  unfold worker_return.
  destruct (future_at h s) as [fu|]; [|auto].
  destruct fu.(state) as [|[| | |]| |]; auto.
Qed.

Lemma get_or_create_store_wf (fid : string) (file_obj : UploadedFile)
    (now : Z) (s : OptimizedFileCache) :
  store_wf s -> store_wf (fst (get_or_create fid file_obj now s)).
Proof.
  intros Hwf. unfold get_or_create.
  destruct (dict_get fid s.(cache)) as [cf|] eqn:Hc.
  - simpl. destruct Hwf as (H1 & H2 & Hag).
    unfold store_wf, keys_agree. simpl.
    split; [exact H1|]. split; [now apply NoDup_keys_set|].
    intros k. rewrite dict_mem_set, <- Hag.
    destruct (String.eqb fid k) eqn:Hk; [|reflexivity].
    apply String.eqb_eq in Hk. subst k. unfold dict_mem. now rewrite Hc.
  - destruct (dict_get fid s.(processing_queue)) as [h|].
    + destruct (future_at h s) as [fu|]; [|exact Hwf].
      destruct (done fu); exact Hwf.
    + exact Hwf.
Qed.

Lemma step_store_wf (E : Externals) (ev : Event) (s : OptimizedFileCache) :
  store_wf s -> store_wf (step E ev s).
Proof.
  intros Hwf. destruct ev as [fid f now|fid| | |h|h|h now|h]; simpl.
  - now apply get_or_create_store_wf.
  - rewrite remove_file_pop_entry.
    destruct (dict_get fid s.(cache)); [now apply store_wf_pop_entry|].
    exact Hwf.
  - unfold store_wf, keys_agree. simpl. repeat split; constructor.
  - destruct (worker_begin_store s) as (H1 & H2 & _).
    now apply (store_wf_same s).
  - destruct (worker_lookup_store E h s) as (H1 & H2 & _).
    now apply (store_wf_same s).
  - unfold worker_evict.
    destruct (future_at h s) as [fu|]; [|exact Hwf].
    destruct fu.(state) as [|[|cf| |]| |]; try exact Hwf.
    apply (store_wf_same (evict_lru_if_needed cf.(memory_usage) s));
      [reflexivity..|].
    apply evict_lru_if_needed_keeps; [|exact Hwf].
    intros s0 fid cf0 H _. now apply store_wf_pop_entry.
  - unfold worker_insert.
    destruct (future_at h s) as [fu|]; [|exact Hwf].
    destruct fu.(state) as [|[| |cf|]| |]; try exact Hwf.
    apply (store_wf_same
             (set_store (dict_set fu.(job_file_id) cf s.(cache))
                        (dict_set fu.(job_file_id) now s.(access_times))
                        (s.(current_memory_usage) + cf.(memory_usage)) s));
      [reflexivity..|].
    now apply store_wf_insert.
  - destruct (worker_return_store h s) as (H1 & H2 & _).
    now apply (store_wf_same s).
Qed.

(** In every state that the cache reaches, whatever the interleaving of
    callers and workers, the keys of [cache] and of [access_times] are
    distinct and the same. *)
Lemma reachable_store_wf (E : Externals) (s : OptimizedFileCache) :
  reachable E s -> store_wf s.
Proof.
  intros (mb & k & evs & ->).
  assert (H0 : store_wf (new_OptimizedFileCache mb k)).
  { unfold store_wf, keys_agree. simpl. repeat split; constructor. }
  revert H0. generalize (new_OptimizedFileCache mb k).
  induction evs as [|ev r IH]; intros s Hs; simpl; [exact Hs|].
  apply IH. now apply step_store_wf.
Qed.

(** ** The sum of the costs *)

Lemma cached_sum_pop (c : dict CachedFile) (k : string) (cf : CachedFile) :
  NoDup (keys c) -> dict_get k c = Some cf ->
  sum (map memory_usage (values (dict_pop k c)))
    = sum (map memory_usage (values c)) - cf.(memory_usage).
Proof.
  induction c as [|[k' v'] r IH]; simpl; [discriminate|].
  intros Hnd Hg. inversion Hnd as [|? ? Hnotin Hnd']; subst.
  destruct (String.eqb k k') eqn:Hk.
  - apply String.eqb_eq in Hk. subst k'. injection Hg as ->.
    rewrite dict_pop_absent by (now apply dict_get_None_notin). lia.
  - simpl. rewrite IH by assumption. lia.
Qed.

Lemma cached_sum_set_absent (c : dict CachedFile) (k : string)
    (cf : CachedFile) :
  dict_get k c = None ->
  sum (map memory_usage (values (dict_set k cf c)))
    = sum (map memory_usage (values c)) + cf.(memory_usage).
Proof.
  intros Hg. rewrite dict_set_absent by exact Hg.
  unfold values. rewrite !map_app, sum_app. simpl. lia.
Qed.

Lemma accounted_pop_entry (s : OptimizedFileCache) (fid : string)
    (cf : CachedFile) :
  accounted s -> dict_get fid s.(cache) = Some cf ->
  accounted (pop_entry fid cf s).
Proof.
  intros [Hwf Hsum] Hg. split; [now apply store_wf_pop_entry|].
  unfold cached_bytes. simpl.
  rewrite (cached_sum_pop _ _ cf) by (try apply Hwf; exact Hg).
  unfold cached_bytes in Hsum. lia.
Qed.

Lemma absent_pop_entry (k : string) (s : OptimizedFileCache) (fid : string)
    (cf : CachedFile) :
  dict_get k s.(cache) = None ->
  dict_get k (pop_entry fid cf s).(cache) = None.
Proof.
  intros Hk. simpl. destruct (string_dec fid k) as [->|Hne].
  - apply dict_get_pop_eq.
  - now rewrite dict_get_pop_ne.
Qed.

(** [evict_lru_if_needed] reads and writes the store only. *)
Lemma evict_loop_store_congr (needed : Z) (l : list (string * Z))
    (s t : OptimizedFileCache) :
  s.(cache) = t.(cache) -> s.(access_times) = t.(access_times) ->
  s.(current_memory_usage) = t.(current_memory_usage) ->
  s.(max_memory_bytes) = t.(max_memory_bytes) ->
  (evict_loop needed l s).(cache) = (evict_loop needed l t).(cache) /\
  (evict_loop needed l s).(access_times)
    = (evict_loop needed l t).(access_times) /\
  (evict_loop needed l s).(current_memory_usage)
    = (evict_loop needed l t).(current_memory_usage).
Proof.
  revert s t. induction l as [|[fid tm] rest IH]; intros s t Hc Ha Hu Hm;
    simpl; [auto|].
  rewrite Hu, Hm, Hc.
  destruct (_ <=? _); [rewrite <- Hc; auto|].
  destruct (dict_get fid t.(cache)) as [cf|].
  - apply IH; simpl; congruence.
  - now apply IH.
Qed.

Lemma evict_lru_if_needed_store_congr (needed : Z)
    (s t : OptimizedFileCache) :
  s.(cache) = t.(cache) -> s.(access_times) = t.(access_times) ->
  s.(current_memory_usage) = t.(current_memory_usage) ->
  s.(max_memory_bytes) = t.(max_memory_bytes) ->
  (evict_lru_if_needed needed s).(cache)
    = (evict_lru_if_needed needed t).(cache) /\
  (evict_lru_if_needed needed s).(access_times)
    = (evict_lru_if_needed needed t).(access_times) /\
  (evict_lru_if_needed needed s).(current_memory_usage)
    = (evict_lru_if_needed needed t).(current_memory_usage).
Proof.
  intros Hc Ha Hu Hm. unfold evict_lru_if_needed. rewrite Hu, Hm, Ha.
  destruct (_ <=? _); [auto|]. now apply evict_loop_store_congr.
Qed.

(** ** Futures *)

Lemma first_pending_Some (fs : list Future) (h : nat) :
  first_pending fs = Some h ->
  exists fu, nth_error fs h = Some fu /\ fu.(state) = PENDING.
Proof.
  revert h. induction fs as [|fu r IH]; intros h; simpl; [discriminate|].
  destruct (is_pending fu) eqn:Hp.
  - intros [= <-]. exists fu. split; [reflexivity|].
    unfold is_pending in Hp. destruct fu.(state); congruence.
  - destruct (first_pending r) as [h'|]; [|discriminate].
    intros [= <-]. simpl. now apply IH.
Qed.

Lemma no_running_filter (fs : list Future) :
  (forall h fu, nth_error fs h = Some fu -> is_running fu = false) ->
  filter is_running fs = [].
Proof.
  induction fs as [|fu r IH]; intros H; simpl; [reflexivity|].
  rewrite (H O fu eq_refl). apply IH.
  intros h fu' Hn. apply (H (S h)). exact Hn.
Qed.

Lemma update_nth_twice {A : Type} (f g : A -> A) (n : nat) (l : list A) :
  update_nth n f (update_nth n g l) = update_nth n (fun x => f (g x)) l.
Proof.
  revert n. induction l as [|y r IH]; intros [|n]; simpl; try reflexivity.
  now rewrite IH.
Qed.

Lemma nth_error_update_nth {A : Type} (f : A -> A) (l : list A)
    (n m : nat) :
  nth_error (update_nth n f l) m
    = if Nat.eqb n m then option_map f (nth_error l m) else nth_error l m.
Proof.
  destruct (Nat.eqb n m) eqn:Hnm.
  - apply Nat.eqb_eq in Hnm. subst m.
    destruct (nth_error l n) as [x|] eqn:Hx.
    + now apply nth_error_update_nth_eq.
    + simpl. apply nth_error_None. rewrite length_update_nth.
      now apply nth_error_None.
  - apply Nat.eqb_neq in Hnm. now apply nth_error_update_nth_ne.
Qed.

Lemma cancel_idempotent (fu : Future) : cancel (cancel fu) = cancel fu.
Proof. unfold cancel. destruct fu as [i f []]; reflexivity. Qed.

Lemma cancel_all_nth (hs : list nat) (fs : list Future) (h : nat) :
  nth_error (cancel_all hs fs) h
    = if in_dec Nat.eq_dec h hs then option_map cancel (nth_error fs h)
      else nth_error fs h.
Proof.
  revert fs. induction hs as [|h' r IH]; intros fs; simpl; [reflexivity|].
  rewrite IH, nth_error_update_nth.
  destruct (Nat.eq_dec h' h) as [->|Hne].
  - rewrite Nat.eqb_refl.
    destruct (in_dec Nat.eq_dec h r); [|reflexivity].
    destruct (nth_error fs h); simpl; [|reflexivity].
    now rewrite cancel_idempotent.
  - assert (Hb : Nat.eqb h' h = false) by (now apply Nat.eqb_neq).
    rewrite Hb. destruct (in_dec Nat.eq_dec h r); reflexivity.
Qed.

Lemma worker_evict_other (h : nat) (s : OptimizedFileCache) (fu : Future)
    (r : CachedFile) :
  future_at h s = Some fu -> fu.(state) = FINISHED r ->
  worker_evict h s = s.
Proof. intros Hf Hs. unfold worker_evict. now rewrite Hf, Hs. Qed.

Lemma worker_insert_other (h : nat) (now : Z) (s : OptimizedFileCache)
    (fu : Future) (r : CachedFile) :
  future_at h s = Some fu -> fu.(state) = FINISHED r ->
  worker_insert h now s = s.
Proof. intros Hf Hs. unfold worker_insert. now rewrite Hf, Hs. Qed.

Lemma worker_return_other (h : nat) (s : OptimizedFileCache) (fu : Future)
    (r : CachedFile) :
  future_at h s = Some fu -> fu.(state) = FINISHED r ->
  worker_return h s = s.
Proof. intros Hf Hs. unfold worker_return. now rewrite Hf, Hs. Qed.

Lemma with_state_twice (a b : FutureState) (fu : Future) :
  with_state a (with_state b fu) = with_state a fu.
Proof. reflexivity. Qed.

Lemma update_nth_ext {A : Type} (f g : A -> A) (n : nat) (l : list A) :
  (forall x, f x = g x) -> update_nth n f l = update_nth n g l.
Proof.
  intros Hfg. revert n. induction l as [|y r IH]; intros [|n]; simpl;
    try reflexivity.
  - now rewrite Hfg.
  - now rewrite IH.
Qed.

Lemma update_with_state_twice (a b : FutureState) (h : nat)
    (fs : list Future) :
  update_nth h (with_state a) (update_nth h (with_state b) fs)
    = update_nth h (with_state a) fs.
Proof. rewrite update_nth_twice. now apply update_nth_ext. Qed.

(** What a job that runs without interruption does to the cache. *)
Lemma job_effect (E : Externals) (now : Z) (s : OptimizedFileCache)
    (h : nat) (fu : Future) :
  (forall h' fu', future_at h' s = Some fu' -> is_running fu' = false) ->
  (0 < s.(executor).(max_workers))%nat ->
  first_pending s.(executor).(futures) = Some h ->
  future_at h s = Some fu ->
  let fid := fu.(job_file_id) in
  let s' := run E (WorkerBegin :: whole_job h now) s in
  exists r,
    s'.(executor).(futures)
      = update_nth h (with_state (FINISHED r)) s.(executor).(futures) /\
    s'.(executor).(max_workers) = s.(executor).(max_workers) /\
    s'.(processing_queue) = s.(processing_queue) /\
    s'.(max_memory_bytes) = s.(max_memory_bytes) /\
    ((s'.(cache) = s.(cache) /\ s'.(access_times) = s.(access_times) /\
      s'.(current_memory_usage) = s.(current_memory_usage)) \/
     ((exists data fh,
         process_content E fid fu.(job_file_obj) data fh = Ok r) /\
      let se := evict_lru_if_needed r.(memory_usage) s in
      s'.(cache) = dict_set fid r se.(cache) /\
      s'.(access_times) = dict_set fid now se.(access_times) /\
      s'.(current_memory_usage)
        = se.(current_memory_usage) + r.(memory_usage))).
Proof.
  intros Hidle Hw Hfirst Hf fid s'.
  assert (Hb : worker_begin s = set_future_state h (RUNNING AtStart) s).
  { unfold worker_begin, running_count.
    rewrite no_running_filter by exact Hidle. simpl List.length.
    destruct (s.(executor).(max_workers)) as [|n]; [lia|].
    simpl. now rewrite Hfirst. }
  set (s1 := set_future_state h (RUNNING AtStart) s) in *.
  assert (Hf1 : future_at h s1 = Some (with_state (RUNNING AtStart) fu)).
  { now apply future_at_set_future_state_eq. }
  assert (Hs' : s' = worker_return h (worker_insert h now
                       (worker_evict h (worker_lookup E h s1)))).
  { unfold s', whole_job. simpl. now rewrite Hb. }
  clearbody s'.
  unfold worker_lookup in Hs'. rewrite Hf1 in Hs'.
  cbn [state with_state job_file_id job_file_obj] in Hs'.
  destruct (process_lookup E fu.(job_file_obj) s1)
    as [[existing|data fh]|e] eqn:Hl.
  - (* the content is cached already *)
    set (s2 := set_future_state h (FINISHED existing) s1) in *.
    assert (Hf2 : future_at h s2 = Some (with_state (FINISHED existing) fu)).
    { unfold s2. rewrite (future_at_set_future_state_eq _ _ _ _ Hf1).
      reflexivity. }
    rewrite (worker_evict_other h s2 _ existing Hf2 eq_refl) in Hs'.
    rewrite (worker_insert_other h now s2 _ existing Hf2 eq_refl) in Hs'.
    rewrite (worker_return_other h s2 _ existing Hf2 eq_refl) in Hs'.
    subst s'. exists existing. unfold s2, s1. simpl.
    split; [apply update_with_state_twice|].
    repeat (split; [reflexivity|]). left. auto.
  - fold fid in Hs'.
    destruct (process_content E fid fu.(job_file_obj) data fh)
      as [cf|e] eqn:Hc.
    + (* the content is processed and inserted *)
      set (s2 := set_future_state h (RUNNING (Processed cf))
                   (count_processor_call s1)) in *.
      assert (Hf2 : future_at h s2
                    = Some (with_state (RUNNING (Processed cf)) fu)).
      { unfold s2.
        rewrite (future_at_set_future_state_eq h _
                   (count_processor_call s1) _ Hf1).
        reflexivity. }
      rewrite (worker_evict_spec h s2 _ cf Hf2 eq_refl) in Hs'.
      set (se2 := evict_lru_if_needed cf.(memory_usage) s2) in *.
      set (s3 := set_future_state h (RUNNING (Evicted cf)) se2) in *.
      assert (Hfe : future_at h se2
                    = Some (with_state (RUNNING (Processed cf)) fu)).
      { unfold se2. now rewrite future_at_evict_lru_if_needed. }
      assert (Hf3 : future_at h s3
                    = Some (with_state (RUNNING (Evicted cf)) fu)).
      { unfold s3. rewrite (future_at_set_future_state_eq _ _ _ _ Hfe).
        reflexivity. }
      rewrite (worker_insert_spec h now s3 _ cf Hf3 eq_refl) in Hs'.
      cbn [job_file_id with_state] in Hs'. fold fid in Hs'.
      set (s4 := set_future_state h (RUNNING (Inserted cf))
                   (set_store (dict_set fid cf s3.(cache))
                      (dict_set fid now s3.(access_times))
                      (s3.(current_memory_usage) + cf.(memory_usage)) s3))
        in *.
      assert (Hf4 : future_at h s4
                    = Some (with_state (RUNNING (Inserted cf)) fu)).
      { unfold s4.
        apply (future_at_set_future_state_eq h (RUNNING (Inserted cf)) _
                 (with_state (RUNNING (Evicted cf)) fu)).
        exact Hf3. }
      rewrite (worker_return_spec h s4 _ cf Hf4 eq_refl) in Hs'.
      destruct (evict_lru_if_needed_frame cf.(memory_usage) s2)
        as (Hq & Hex & Hmax & _). fold se2 in Hq, Hex, Hmax.
      destruct (evict_lru_if_needed_store_congr cf.(memory_usage) s2 s
                  eq_refl eq_refl eq_refl eq_refl) as (Hcc & Hca & Hcu).
      fold se2 in Hcc, Hca, Hcu.
      subst s'. exists cf. unfold s4, s3. simpl. rewrite Hex, Hq, Hmax.
      unfold s2, s1. simpl.
      split; [now rewrite !update_with_state_twice|].
      repeat (split; [reflexivity|]). right.
      split; [eauto|]. cbn zeta. rewrite Hcc, Hca, Hcu. auto.
    + (* the processing raises *)
      set (s2 := set_future_state h
                   (FINISHED (error_entry fid fu.(job_file_obj) e))
                   (count_processor_call s1)) in *.
      assert (Hf2 : future_at h s2
                    = Some (with_state
                              (FINISHED (error_entry fid fu.(job_file_obj) e))
                              fu)).
      { unfold s2.
        rewrite (future_at_set_future_state_eq h _
                   (count_processor_call s1) _ Hf1).
        reflexivity. }
      rewrite (worker_evict_other h s2 _ _ Hf2 eq_refl) in Hs'.
      rewrite (worker_insert_other h now s2 _ _ Hf2 eq_refl) in Hs'.
      rewrite (worker_return_other h s2 _ _ Hf2 eq_refl) in Hs'.
      subst s'. eexists. unfold s2, s1. simpl.
      split; [apply update_with_state_twice|].
      repeat (split; [reflexivity|]). left. auto.
  - (* reading or hashing raises *)
    fold fid in Hs'.
    set (s2 := set_future_state h
                 (FINISHED (error_entry fid fu.(job_file_obj) e)) s1) in *.
    assert (Hf2 : future_at h s2
                  = Some (with_state
                            (FINISHED (error_entry fid fu.(job_file_obj) e))
                            fu)).
    { unfold s2. rewrite (future_at_set_future_state_eq _ _ _ _ Hf1).
      reflexivity. }
    rewrite (worker_evict_other h s2 _ _ Hf2 eq_refl) in Hs'.
    rewrite (worker_insert_other h now s2 _ _ Hf2 eq_refl) in Hs'.
    rewrite (worker_return_other h s2 _ _ Hf2 eq_refl) in Hs'.
    subst s'. eexists. unfold s2, s1. simpl.
    split; [apply update_with_state_twice|].
    repeat (split; [reflexivity|]). left. auto.
Qed.

(** ** Runs without interleaving keep the accounting exact *)

Lemma run_store_wf (E : Externals) (evs : list Event)
    (s : OptimizedFileCache) :
  store_wf s -> store_wf (run E evs s).
Proof.
  revert s. induction evs as [|ev r IH]; intros s Hs; simpl; [exact Hs|].
  apply IH. now apply step_store_wf.
Qed.

Lemma absent_after_evict (k : string) (needed : Z)
    (s : OptimizedFileCache) :
  dict_get k s.(cache) = None ->
  dict_get k (evict_lru_if_needed needed s).(cache) = None.
Proof.
  intros H.
  apply (evict_lru_if_needed_keeps
           (fun s0 => dict_get k s0.(cache) = None)); [|exact H].
  intros s0 fid cf H0 _. now apply absent_pop_entry.
Qed.

Lemma accounted_after_evict (needed : Z) (s : OptimizedFileCache) :
  accounted s -> accounted (evict_lru_if_needed needed s).
Proof.
  apply evict_lru_if_needed_keeps.
  intros s0 fid cf H0 Hg. now apply accounted_pop_entry.
Qed.

Lemma is_running_cancel (fu : Future) :
  is_running (cancel fu) = is_running fu.
Proof. unfold cancel, is_running. destruct fu as [i f []]; reflexivity. Qed.

Lemma cancel_not_pending (fu : Future) : (cancel fu).(state) <> PENDING.
Proof. unfold cancel. destruct fu as [i f []]; simpl; discriminate. Qed.

Lemma serial_inv_get_or_create (fid : string) (file_obj : UploadedFile)
    (now : Z) (s : OptimizedFileCache) :
  serial_inv s -> serial_inv (fst (get_or_create fid file_obj now s)).
Proof.
  intros [Hwf Hsum Hidle Hpend Hw].
  assert (Hwf' : store_wf (fst (get_or_create fid file_obj now s)))
    by (now apply get_or_create_store_wf).
  revert Hwf'. unfold get_or_create.
  destruct (dict_get fid s.(cache)) as [cf|] eqn:Hc.
  - simpl. intros Hwf'. constructor; auto.
  - destruct (dict_get fid s.(processing_queue)) as [h|] eqn:Hq.
    + destruct (future_at h s) as [fu|] eqn:Hf;
        [|intros _; now constructor].
      destruct (done fu) eqn:Hd; [|intros _; now constructor].
      simpl. intros Hwf'. constructor; auto.
      intros h' fu' Hf' Hst'. simpl.
      change (future_at h' s = Some fu') in Hf'.
      destruct (Hpend h' fu' Hf' Hst') as [Hq' Hc'].
      split; [|exact Hc'].
      rewrite dict_get_pop_ne; [exact Hq'|].
      intros Heq. rewrite <- Heq in Hq'.
      assert (h' = h) by congruence. subst h'.
      assert (fu' = fu) by (unfold future_at in *; congruence). subst fu'.
      unfold done in Hd. rewrite Hst' in Hd. discriminate.
    + simpl. intros Hwf'.
      set (new := {| job_file_id := fid; job_file_obj := file_obj;
                     state := PENDING |}).
      assert (Hnth : forall h' fu',
                nth_error (s.(executor).(futures) ++ [new]) h' = Some fu' ->
                (future_at h' s = Some fu') \/
                (h' = List.length s.(executor).(futures) /\ fu' = new)).
      { intros h' fu' Hn. unfold future_at.
        destruct (Nat.lt_ge_cases h' (List.length s.(executor).(futures)))
          as [Hlt|Hge].
        - left. now rewrite nth_error_app1 in Hn.
        - right. rewrite nth_error_app2 in Hn by exact Hge.
          destruct (h' - List.length s.(executor).(futures))%nat
            as [|[|n]] eqn:Hd; simpl in Hn; try discriminate.
          split; [lia | congruence]. }
      constructor; auto.
      * intros h' fu' Hf'. unfold future_at in Hf'. simpl in Hf'.
        destruct (Hnth h' fu' Hf') as [H|[_ ->]]; [eauto | reflexivity].
      * intros h' fu' Hf' Hst'. unfold future_at in Hf'. simpl in Hf'.
        simpl. destruct (Hnth h' fu' Hf') as [H|[-> ->]].
        -- destruct (Hpend h' fu' H Hst') as [Hq' Hc'].
           split; [|exact Hc'].
           rewrite dict_get_set_ne; [exact Hq'|].
           intros Heq. rewrite <- Heq in Hq'. congruence.
        -- simpl. split; [apply dict_get_set_eq | exact Hc].
Qed.

Lemma serial_inv_remove_file (fid : string) (s : OptimizedFileCache) :
  serial_inv s -> serial_inv (remove_file fid s).
Proof.
  intros [Hwf Hsum Hidle Hpend Hw]. rewrite remove_file_pop_entry.
  destruct (dict_get fid s.(cache)) as [cf|] eqn:Hc; [|now constructor].
  destruct (accounted_pop_entry s fid cf (conj Hwf Hsum) Hc) as [Hwf' Hsum'].
  constructor; auto.
  intros h fu Hf Hst. destruct (Hpend h fu Hf Hst) as [Hq' Hc'].
  split; [exact Hq' | now apply absent_pop_entry].
Qed.

Lemma serial_inv_clear (s : OptimizedFileCache) :
  serial_inv s -> serial_inv (clear s).
Proof.
  intros [Hwf Hsum Hidle Hpend Hw].
  assert (Hnth : forall h fu',
            future_at h (clear s) = Some fu' ->
            exists fu, future_at h s = Some fu /\
              ((In h (values s.(processing_queue)) /\ fu' = cancel fu) \/
               (~ In h (values s.(processing_queue)) /\ fu' = fu))).
  { intros h fu'. unfold future_at, clear. simpl. rewrite cancel_all_nth.
    destruct (in_dec Nat.eq_dec h (values s.(processing_queue))) as [Hin|Hn].
    - destruct (nth_error s.(executor).(futures) h) as [fu|];
        simpl; [|discriminate].
      intros [= <-]. eauto.
    - intros H. eauto. }
  constructor.
  - unfold store_wf, keys_agree. simpl. repeat split; constructor.
  - reflexivity.
  - intros h fu' Hf'. destruct (Hnth h fu' Hf') as (fu & Hf & [[_ ->]|[_ ->]]).
    + rewrite is_running_cancel. eauto.
    + eauto.
  - intros h fu' Hf' Hst'.
    destruct (Hnth h fu' Hf') as (fu & Hf & [[_ ->]|[Hn ->]]).
    + now apply cancel_not_pending in Hst'.
    + destruct (Hpend h fu Hf Hst') as [Hq _].
      exfalso. apply Hn. eapply dict_get_In_values. exact Hq.
  - exact Hw.
Qed.

Lemma serial_inv_job (E : Externals) (now : Z) (s : OptimizedFileCache) :
  serial_inv s -> serial_inv (serial_step E (SJob now) s).
Proof.
  intros Hinv. pose proof Hinv as [Hwf Hsum Hidle Hpend Hw].
  unfold serial_step.
  destruct (first_pending s.(executor).(futures)) as [h|] eqn:Hfirst;
    [|exact Hinv].
  destruct (first_pending_Some _ _ Hfirst) as (fu & Hf & Hst).
  destruct (Hpend h fu Hf Hst) as [Hq Hc].
  assert (Hwf' : store_wf (run E (WorkerBegin :: whole_job h now) s))
    by (now apply run_store_wf).
  destruct (job_effect E now s h fu Hidle Hw Hfirst Hf)
    as (r & Hfs & Hmw & Hqs & Hmax & Hstore).
  set (s' := run E (WorkerBegin :: whole_job h now) s) in *.
  assert (Hnth : forall h' fu',
            future_at h' s' = Some fu' ->
            (h' = h /\ fu' = with_state (FINISHED r) fu) \/
            (h' <> h /\ future_at h' s = Some fu')).
  { intros h' fu'. unfold future_at. rewrite Hfs, nth_error_update_nth.
    destruct (Nat.eqb h h') eqn:Hhh.
    - apply Nat.eqb_eq in Hhh. subst h'. unfold future_at in Hf.
      rewrite Hf. simpl. intros [= <-]. now left.
    - apply Nat.eqb_neq in Hhh. intros H. right. split; [congruence|exact H]. }
  constructor.
  - exact Hwf'.
  - destruct Hstore as [(Hc' & _ & Hu')|(_ & Hc' & _ & Hu')].
    + unfold cached_bytes. rewrite Hc', Hu'. exact Hsum.
    + cbn zeta in Hc', Hu'. unfold cached_bytes. rewrite Hc', Hu'.
      rewrite cached_sum_set_absent by (now apply absent_after_evict).
      destruct (accounted_after_evict r.(memory_usage) s (conj Hwf Hsum))
        as [_ Hs]. unfold cached_bytes in Hs. lia.
  - intros h' fu' Hf'. destruct (Hnth h' fu' Hf') as [[_ ->]|[_ H]];
      [reflexivity | eauto].
  - intros h' fu' Hf' Hst'.
    destruct (Hnth h' fu' Hf') as [[_ ->]|[Hne H]]; [discriminate|].
    destruct (Hpend h' fu' H Hst') as [Hq' Hc'].
    rewrite Hqs. split; [exact Hq'|].
    destruct Hstore as [(Hcs & _)|(_ & Hcs & _)].
    + now rewrite Hcs.
    + cbn zeta in Hcs. rewrite Hcs.
      rewrite dict_get_set_ne; [now apply absent_after_evict|].
      intros Heq. rewrite Heq in Hq. congruence.
  - rewrite Hmw. exact Hw.
Qed.

Lemma serial_step_inv (E : Externals) (ev : SerialEvent)
    (s : OptimizedFileCache) :
  serial_inv s -> serial_inv (serial_step E ev s).
Proof.
  destruct ev as [fid f now|fid| |now].
  - apply serial_inv_get_or_create.
  - apply serial_inv_remove_file.
  - apply serial_inv_clear.
  - apply serial_inv_job.
Qed.

Lemma serial_run_inv (E : Externals) (evs : list SerialEvent)
    (s : OptimizedFileCache) :
  serial_inv s -> serial_inv (serial_run E evs s).
Proof.
  revert s. induction evs as [|ev r IH]; intros s Hs; simpl; [exact Hs|].
  apply IH. now apply serial_step_inv.
Qed.

Lemma serial_inv_new (max_memory_mb : Z) (workers : nat) :
  (0 < workers)%nat ->
  serial_inv (new_OptimizedFileCache max_memory_mb workers).
Proof.
  intros Hw. constructor.
  - unfold store_wf, keys_agree. simpl. repeat split; constructor.
  - reflexivity.
  - intros [|h] fu H; discriminate H.
  - intros [|h] fu H; discriminate H.
  - exact Hw.
Qed.

(** ** Runs without interleaving stay within the budget *)

Lemma process_content_cost_nonneg (E : Externals) (fid : string)
    (file_obj : UploadedFile) (data : bytes) (fh : string)
    (cf : CachedFile) :
  sizes_nonneg E ->
  process_content E fid file_obj data fh = Ok cf ->
  0 <= cf.(memory_usage).
Proof.
  intros Hsz Hc.
  destruct (process_content_shape E _ _ _ _ _ Hc)
    as (_ & _ & _ & [[_ (text & _ & _ & ->)] | [_ (img & Ho & _ & ->)]]).
  - unfold len. lia.
  - unfold optimize_image in Ho.
    destruct (E.(Image_open) data) as [i0|]; simpl in Ho; [|discriminate].
    destruct (if negb (String.eqb i0.(mode) "RGB")
              then E.(Image_convert) "RGB" i0 else Ok i0) as [i1|];
      simpl in Ho; [|discriminate].
    destruct (E.(Image_thumbnail) (1024, 1024) i1) as [i2|] eqn:Ht;
      simpl in Ho; [|discriminate].
    injection Ho as <-. destruct (Hsz _ _ _ Ht). nia.
Qed.

Lemma get_or_create_store (fid : string) (file_obj : UploadedFile)
    (now : Z) (s : OptimizedFileCache) :
  (fst (get_or_create fid file_obj now s)).(cache) = s.(cache) /\
  (fst (get_or_create fid file_obj now s)).(current_memory_usage)
    = s.(current_memory_usage) /\
  (fst (get_or_create fid file_obj now s)).(max_memory_bytes)
    = s.(max_memory_bytes).
Proof.
  unfold get_or_create.
  destruct (dict_get fid s.(cache)); [auto|].
  destruct (dict_get fid s.(processing_queue)) as [h|]; [|auto].
  destruct (future_at h s) as [fu|]; [|auto].
  destruct (done fu); auto.
Qed.

Lemma dict_get_pop_Some {V : Type} (k k' : string) (v : V) (d : dict V) :
  dict_get k' (dict_pop k d) = Some v -> dict_get k' d = Some v.
Proof.
  destruct (string_dec k k') as [->|Hne].
  - rewrite dict_get_pop_eq. discriminate.
  - now rewrite dict_get_pop_ne.
Qed.

Lemma costs_nonneg_pop_entry (s : OptimizedFileCache) (fid : string)
    (cf : CachedFile) :
  costs_nonneg s -> costs_nonneg (pop_entry fid cf s).
Proof.
  intros H k c Hk. simpl in Hk. apply dict_get_pop_Some in Hk. eauto.
Qed.

Lemma serial_step_budget (E : Externals) (ev : SerialEvent)
    (s : OptimizedFileCache) :
  sizes_nonneg E -> serial_inv s ->
  costs_nonneg s /\ 0 <= s.(max_memory_bytes) /\ within_budget s ->
  let s' := serial_step E ev s in
  costs_nonneg s' /\ 0 <= s'.(max_memory_bytes) /\ within_budget s'.
Proof.
  intros Hsz [Hwf Hsum Hidle Hpend Hw] (Hcost & Hmax & Hbud) s'.
  destruct ev as [fid f now|fid| |now]; unfold s', serial_step.
  - simpl. destruct (get_or_create_store fid f now s) as (Hc & Hu & Hm).
    unfold costs_nonneg, within_budget. rewrite Hc, Hu, Hm. auto.
  - simpl. rewrite remove_file_pop_entry.
    destruct (dict_get fid s.(cache)) as [cf|] eqn:Hg; [|auto].
    split; [now apply costs_nonneg_pop_entry|]. split; [exact Hmax|].
    left. simpl. pose proof (Hcost fid cf Hg) as Hpos.
    destruct Hbud as [Hle|(k & c & Hk & Hbig)]; [lia|].
    unfold cached_bytes in Hsum. rewrite Hk in Hsum, Hg. simpl in Hsum, Hg.
    destruct (String.eqb fid k); [|discriminate].
    injection Hg as <-. lia.
  - simpl. split; [intros k c Hk; discriminate Hk|].
    split; [exact Hmax|]. left. simpl. exact Hmax.
  - destruct (first_pending s.(executor).(futures)) as [h|] eqn:Hfirst;
      [|auto].
    destruct (first_pending_Some _ _ Hfirst) as (fu & Hf & Hst).
    destruct (Hpend h fu Hf Hst) as [Hq Hc].
    destruct (job_effect E now s h fu Hidle Hw Hfirst Hf)
      as (r & _ & _ & _ & Hm & Hstore).
    set (s1 := run E (WorkerBegin :: whole_job h now) s) in *.
    destruct Hstore as [(Hcs & _ & Hu)|((data & fh & Hpc) & Hcs & _ & Hu)].
    + unfold costs_nonneg, within_budget. rewrite Hcs, Hu, Hm. auto.
    + cbn zeta in Hcs, Hu.
      set (se := evict_lru_if_needed r.(memory_usage) s) in *.
      pose proof (process_content_cost_nonneg E _ _ _ _ _ Hsz Hpc) as Hr.
      assert (Hcse : costs_nonneg se).
      { apply (evict_lru_if_needed_keeps costs_nonneg); [|exact Hcost].
        intros s0 k c H0 _. now apply costs_nonneg_pop_entry. }
      split.
      { intros k c Hk. rewrite Hcs in Hk.
        destruct (string_dec fu.(job_file_id) k) as [<-|Hne].
        - rewrite dict_get_set_eq in Hk. now injection Hk as <-.
        - rewrite dict_get_set_ne in Hk by exact Hne. eauto. }
      split; [now rewrite Hm|].
      pose proof Hwf as (_ & Hnd & Hag).
      destruct (evict_lru_if_needed_prefix r.(memory_usage) s Hnd Hag)
        as (n & _ & _ & _ & _ & Hend & _). fold se in Hend.
      destruct (evict_lru_if_needed_frame r.(memory_usage) s)
        as (_ & _ & Hmse & _). fold se in Hmse.
      unfold within_budget. rewrite Hu, Hm, Hcs.
      destruct Hend as [Hfit|Hempty].
      * left. unfold fits in Hfit. lia.
      * assert (Hzero : se.(current_memory_usage) = 0).
        { destruct (accounted_after_evict r.(memory_usage) s
                      (conj Hwf Hsum)) as [_ Hs].
          fold se in Hs. unfold cached_bytes in Hs.
          now rewrite Hempty in Hs. }
        rewrite Hempty, Hzero. simpl.
        destruct (Z_le_gt_dec r.(memory_usage) s.(max_memory_bytes))
          as [Hle|Hgt]; [left; lia|].
        right. exists fu.(job_file_id), r. split; [reflexivity | lia].
Qed.

(** X4.  When no job is interleaved with another step, the accounting of
    the memory is exact and the budget is respected: after every step of
    such a run of a new cache the memory usage is the sum of the costs of
    the cached entries, and it is within the budget unless the cache holds
    a single entry that by itself exceeds the budget. *)
Theorem serial_runs_keep_budget (E : Externals) (max_memory_mb : Z)
    (workers : nat) (evs : list SerialEvent) :
  sizes_nonneg E -> 0 <= max_memory_mb -> (0 < workers)%nat ->
  let s := serial_run E evs (new_OptimizedFileCache max_memory_mb workers) in
  s.(current_memory_usage) = cached_bytes s /\ within_budget s.
Proof.
  intros Hsz Hmb Hw.
  assert (H0 : serial_inv (new_OptimizedFileCache max_memory_mb workers))
    by (now apply serial_inv_new).
  assert (B0 : costs_nonneg (new_OptimizedFileCache max_memory_mb workers) /\
               0 <= (new_OptimizedFileCache max_memory_mb workers)
                      .(max_memory_bytes) /\
               within_budget (new_OptimizedFileCache max_memory_mb workers)).
  { split; [intros k c Hk; discriminate Hk|].
    split; [simpl; lia|]. left. simpl. lia. }
  revert H0 B0. generalize (new_OptimizedFileCache max_memory_mb workers).
  induction evs as [|ev r IH]; intros s Hinv Hb; simpl.
  - split; [apply Hinv | apply Hb].
  - apply IH.
    + now apply serial_step_inv.
    + now apply serial_step_budget.
Qed.

Lemma demo_sizes_nonneg : sizes_nonneg Demo.ext.
Proof.
  intros [w h] img img' H. simpl in H. unfold Demo.thumbnail in H.
  injection H as <-. simpl. lia.
Qed.

Lemma serial_runs_keep_budget_witness :
  let s := serial_run Demo.ext
             [SGetOrCreate "a" Demo.png_a 1; SGetOrCreate "c" Demo.png_c 1;
              SJob 2; SJob 3]
             (new_OptimizedFileCache 1 2) in
  s.(current_memory_usage) = cached_bytes s /\ within_budget s.
Proof.
  apply (serial_runs_keep_budget Demo.ext 1 2); [|lia..].
  exact demo_sizes_nonneg.
Defined.

(** ** [get_or_create] returns in every reachable state *)

Lemma handles_live_same (s s' : OptimizedFileCache) :
  s'.(processing_queue) = s.(processing_queue) ->
  s'.(executor) = s.(executor) ->
  handles_live s -> handles_live s'.
Proof.
  unfold handles_live, future_at. intros -> ->. auto.
Qed.

Lemma handles_live_set_future_state (h : nat) (st : FutureState)
    (s : OptimizedFileCache) :
  st <> CANCELLED -> handles_live s ->
  handles_live (set_future_state h st s).
Proof.
  intros Hst Hl fid h' Hq. destruct (Hl fid h' Hq) as (fu & Hf & Hc).
  destruct (Nat.eq_dec h h') as [->|Hne].
  - exists (with_state st fu).
    split; [now apply future_at_set_future_state_eq | exact Hst].
  - exists fu. split; [|exact Hc].
    now rewrite future_at_set_future_state_ne.
Qed.

Lemma step_handles_live (E : Externals) (ev : Event)
    (s : OptimizedFileCache) :
  handles_live s -> handles_live (step E ev s).
Proof.
  intros Hl. destruct ev as [fid f now|fid| | |h|h|h now|h]; simpl.
  - unfold get_or_create.
    destruct (dict_get fid s.(cache)) as [cf|]; [exact Hl|].
    destruct (dict_get fid s.(processing_queue)) as [h|] eqn:Hq.
    + destruct (future_at h s) as [fu|]; [|exact Hl].
      destruct (done fu); [|exact Hl].
      intros fid' h' Hq'. simpl in Hq'. apply dict_get_pop_Some in Hq'.
      exact (Hl fid' h' Hq').
    + intros fid' h' Hq'. simpl in Hq'. unfold future_at. simpl.
      destruct (string_dec fid fid') as [<-|Hne].
      * rewrite dict_get_set_eq in Hq'. injection Hq' as <-.
        eexists. split.
        -- rewrite nth_error_app2 by lia. rewrite Nat.sub_diag. reflexivity.
        -- discriminate.
      * rewrite dict_get_set_ne in Hq' by exact Hne.
        destruct (Hl fid' h' Hq') as (fu & Hf & Hc).
        exists fu. split; [|exact Hc].
        unfold future_at in Hf. rewrite nth_error_app1; [exact Hf|].
        apply nth_error_Some. congruence.
  - unfold remove_file. destruct (dict_get fid s.(cache)); exact Hl.
  - intros fid h Hq. discriminate Hq.
  - unfold worker_begin. destruct (_ <? _)%nat; [|exact Hl].
    destruct (first_pending _); [|exact Hl].
    apply handles_live_set_future_state; [discriminate | exact Hl].
  - unfold worker_lookup.
    destruct (future_at h s) as [fu|]; [|exact Hl].
    destruct fu.(state) as [|[| | |]| |]; try exact Hl.
    destruct (process_lookup E _ s) as [[existing|data fhash]|e].
    + apply handles_live_set_future_state; [discriminate | exact Hl].
    + destruct (process_content E _ _ data fhash);
        (apply handles_live_set_future_state; [discriminate|]);
        now apply (handles_live_same s).
    + apply handles_live_set_future_state; [discriminate | exact Hl].
  - unfold worker_evict.
    destruct (future_at h s) as [fu|]; [|exact Hl].
    destruct fu.(state) as [|[|cf| |]| |]; try exact Hl.
    apply handles_live_set_future_state; [discriminate|].
    destruct (evict_lru_if_needed_frame cf.(memory_usage) s)
      as (Hq & Hex & _).
    now apply (handles_live_same s).
  - unfold worker_insert.
    destruct (future_at h s) as [fu|]; [|exact Hl].
    destruct fu.(state) as [|[| |cf|]| |]; try exact Hl.
    apply handles_live_set_future_state; [discriminate|].
    now apply (handles_live_same s).
  - unfold worker_return.
    destruct (future_at h s) as [fu|]; [|exact Hl].
    destruct fu.(state) as [|[| | |cf]| |]; try exact Hl.
    apply handles_live_set_future_state; [discriminate | exact Hl].
Qed.

Lemma reachable_handles_live (E : Externals) (s : OptimizedFileCache) :
  reachable E s -> handles_live s.
Proof.
  intros (mb & k & evs & ->).
  assert (H0 : handles_live (new_OptimizedFileCache mb k)).
  { intros fid h Hq. discriminate Hq. }
  revert H0. generalize (new_OptimizedFileCache mb k).
  induction evs as [|ev r IH]; intros s Hs; simpl; [exact Hs|].
  apply IH. now apply step_handles_live.
Qed.

(** In every state that the cache reaches, [get_or_create] returns a
    cached file: the handle it finds is that of a future of the executor,
    and a future recorded in [processing_queue] is never a cancelled
    one. *)
Lemma reachable_get_or_create_returns (E : Externals)
    (s : OptimizedFileCache) (fid : string) (file_obj : UploadedFile)
    (now : Z) :
  reachable E s ->
  exists cached_file,
    snd (get_or_create fid file_obj now s) = Ok cached_file.
Proof.
  intros Hr. pose proof (reachable_handles_live E s Hr) as Hl.
  unfold get_or_create.
  destruct (dict_get fid s.(cache)) as [cf|]; [simpl; eauto|].
  destruct (dict_get fid s.(processing_queue)) as [h|] eqn:Hq;
    [|simpl; eauto].
  destruct (Hl fid h Hq) as (fu & Hf & Hc). rewrite Hf.
  unfold done, future_result.
  destruct fu.(state); simpl; eauto. congruence.
Qed.

(** ** The entries of the cache are processed files *)

Lemma In_values_pop {V : Type} (k : string) (x : V) (d : dict V) :
  In x (values (dict_pop k d)) -> In x (values d).
Proof.
  induction d as [|[k' v'] r IH]; simpl; [tauto|].
  destruct (String.eqb k k'); simpl; tauto.
Qed.

Lemma In_values_set {V : Type} (k : string) (v x : V) (d : dict V) :
  In x (values (dict_set k v d)) -> x = v \/ In x (values d).
Proof.
  induction d as [|[k' v'] r IH]; simpl; [intuition congruence|].
  destruct (String.eqb k k'); simpl; intuition congruence.
Qed.

Lemma processed_ready (E : Externals) (cf : CachedFile) :
  processed E cf -> is_ready cf = true.
Proof.
  intros (fid & f & d & h & Hc).
  destruct (process_content_shape E _ _ _ _ _ Hc)
    as (Hph & _ & _ & [[_ (text & Hd & _)] | [_ (img & _ & Hd & _)]]);
    unfold is_ready; now rewrite Hph, Hd.
Qed.

Lemma entries_processed_same (E : Externals) (s s' : OptimizedFileCache) :
  s'.(cache) = s.(cache) -> s'.(executor) = s.(executor) ->
  entries_processed E s -> entries_processed E s'.
Proof.
  unfold entries_processed, future_at. intros -> ->. auto.
Qed.

Lemma entries_processed_set_future_state (E : Externals) (h : nat)
    (st : FutureState) (s : OptimizedFileCache) :
  (forall cf, phase_entry st = Some cf -> processed E cf) ->
  entries_processed E s ->
  entries_processed E (set_future_state h st s).
Proof.
  intros Hst [Hc Hf]. split; [exact Hc|].
  intros h' fu' cf Hf'. unfold future_at in Hf'. simpl in Hf'.
  rewrite nth_error_update_nth in Hf'.
  destruct (Nat.eqb h h'); [|exact (Hf h' fu' cf Hf')].
  destruct (nth_error s.(executor).(futures) h') as [fu|];
    simpl in Hf'; [|discriminate].
  injection Hf' as <-. simpl. apply Hst.
Qed.

Lemma entries_processed_pop_entry (E : Externals) (s : OptimizedFileCache)
    (fid : string) (cf : CachedFile) :
  entries_processed E s -> entries_processed E (pop_entry fid cf s).
Proof.
  intros [Hc Hf]. split; [|exact Hf].
  intros x Hx. simpl in Hx. apply In_values_pop in Hx. now apply Hc.
Qed.

Lemma step_entries_processed (E : Externals) (ev : Event)
    (s : OptimizedFileCache) :
  entries_processed E s -> entries_processed E (step E ev s).
Proof.
  intros Hp. pose proof Hp as [Hc Hf].
  destruct ev as [fid f now|fid| | |h|h|h now|h]; simpl.
  - unfold get_or_create.
    destruct (dict_get fid s.(cache)) as [cf|]; [exact Hp|].
    destruct (dict_get fid s.(processing_queue)) as [h|].
    + destruct (future_at h s) as [fu|]; [|exact Hp].
      destruct (done fu); exact Hp.
    + split; [exact Hc|]. intros h' fu' cf Hf'.
      unfold future_at in Hf'. simpl in Hf'.
      destruct (Nat.lt_ge_cases h' (List.length s.(executor).(futures)))
        as [Hlt|Hge].
      * rewrite nth_error_app1 in Hf' by exact Hlt.
        exact (Hf h' fu' cf Hf').
      * rewrite nth_error_app2 in Hf' by exact Hge.
        destruct (h' - List.length s.(executor).(futures))%nat as [|[|n]];
          simpl in Hf'; try discriminate.
        injection Hf' as <-. discriminate.
  - rewrite remove_file_pop_entry.
    destruct (dict_get fid s.(cache));
      [now apply entries_processed_pop_entry | exact Hp].
  - split; [intros x []|].
    intros h fu' cf Hf'. unfold future_at, clear in Hf'. simpl in Hf'.
    rewrite cancel_all_nth in Hf'.
    destruct (in_dec Nat.eq_dec h (values s.(processing_queue)));
      [|exact (Hf h fu' cf Hf')].
    destruct (nth_error s.(executor).(futures) h) as [fu|] eqn:Hn;
      simpl in Hf'; [|discriminate].
    injection Hf' as <-. intros Hph. apply (Hf h fu cf Hn).
    unfold cancel in Hph. destruct fu.(state) eqn:Hs; simpl in Hph;
      try discriminate; rewrite Hs in Hph; exact Hph.
  - unfold worker_begin. destruct (_ <? _)%nat; [|exact Hp].
    destruct (first_pending _); [|exact Hp].
    apply entries_processed_set_future_state; [discriminate | exact Hp].
  - unfold worker_lookup.
    destruct (future_at h s) as [fu|]; [|exact Hp].
    destruct fu.(state) as [|[| | |]| |]; try exact Hp.
    destruct (process_lookup E _ s) as [[existing|data fhash]|e].
    + apply entries_processed_set_future_state; [discriminate | exact Hp].
    + destruct (process_content E _ _ data fhash) as [cf|e] eqn:Hpc;
        apply entries_processed_set_future_state;
        try (now apply (entries_processed_same E s));
        try discriminate.
      intros cf' [= <-]. unfold processed. eauto.
    + apply entries_processed_set_future_state; [discriminate | exact Hp].
  - unfold worker_evict.
    destruct (future_at h s) as [fu|] eqn:Hfu; [|exact Hp].
    destruct fu.(state) as [|[|cf| |]| |] eqn:Hst; try exact Hp.
    apply entries_processed_set_future_state.
    + intros cf' [= <-]. apply (Hf h fu cf Hfu). now rewrite Hst.
    + apply evict_lru_if_needed_keeps; [|exact Hp].
      intros s0 k c H0 _. now apply entries_processed_pop_entry.
  - unfold worker_insert.
    destruct (future_at h s) as [fu|] eqn:Hfu; [|exact Hp].
    destruct fu.(state) as [|[| |cf|]| |] eqn:Hst; try exact Hp.
    assert (Hcf : processed E cf)
      by (apply (Hf h fu cf Hfu); now rewrite Hst).
    apply entries_processed_set_future_state.
    + now intros cf' [= <-].
    + split; [|exact Hf].
      intros x Hx. simpl in Hx. apply In_values_set in Hx.
      destruct Hx as [->|Hx]; [exact Hcf | now apply Hc].
  - unfold worker_return.
    destruct (future_at h s) as [fu|]; [|exact Hp].
    destruct fu.(state) as [|[| | |cf]| |]; try exact Hp.
    apply entries_processed_set_future_state; [discriminate | exact Hp].
Qed.

(** In every state that the cache reaches, the entries of the cache are
    ready. *)
Lemma reachable_cache_ready (E : Externals) (s : OptimizedFileCache)
    (x : CachedFile) :
  reachable E s -> In x (values s.(cache)) -> is_ready x = true.
Proof.
  intros (mb & k & evs & ->) Hx. apply (processed_ready E).
  assert (H0 : entries_processed E (new_OptimizedFileCache mb k)).
  { split; [intros y []|]. intros [|h] fu cf H; discriminate H. }
  revert H0 Hx. generalize (new_OptimizedFileCache mb k).
  induction evs as [|ev r IH]; intros s Hs Hx; simpl in *.
  - now apply Hs.
  - apply (IH (step E ev s)); [now apply step_entries_processed | exact Hx].
Qed.

(** ** Runs, reachable states and what every step keeps *)

Lemma run_app (E : Externals) (evs1 evs2 : list Event)
    (s : OptimizedFileCache) :
  run E (evs1 ++ evs2) s = run E evs2 (run E evs1 s).
Proof.
  revert s. induction evs1 as [|ev r IH]; intros s; simpl; [reflexivity|].
  apply IH.
Qed.

Lemma reachable_run (E : Externals) (evs : list Event)
    (s : OptimizedFileCache) :
  reachable E s -> reachable E (run E evs s).
Proof.
  intros (mb & k & evs0 & ->). exists mb, k, (evs0 ++ evs)%list.
  now rewrite run_app.
Qed.

Lemma reachable_step (E : Externals) (ev : Event) (s : OptimizedFileCache) :
  reachable E s -> reachable E (step E ev s).
Proof. apply (reachable_run E [ev]). Qed.

(** A property that every step keeps holds in every reachable state. *)
Lemma reachable_ind (E : Externals) (P : OptimizedFileCache -> Prop) :
  (forall mb k, P (new_OptimizedFileCache mb k)) ->
  (forall ev s, P s -> P (step E ev s)) ->
  forall s, reachable E s -> P s.
Proof.
  intros Hnew Hstep s (mb & k & evs & ->).
  generalize (Hnew mb k). generalize (new_OptimizedFileCache mb k).
  induction evs as [|ev r IH]; intros s Hs; simpl; [exact Hs|].
  apply IH. now apply Hstep.
Qed.

Lemma reachable_entries_processed (E : Externals) (s : OptimizedFileCache) :
  reachable E s -> entries_processed E s.
Proof.
  apply reachable_ind.
  - intros mb k. split; [intros y []|].
    intros [|h] fu cf H; discriminate H.
  - intros ev s0. apply step_entries_processed.
Qed.

Lemma step_pending_recorded (E : Externals) (ev : Event)
    (s : OptimizedFileCache) :
  pending_recorded s -> pending_recorded (step E ev s).
Proof.
  intros Hp.
  assert (Hset : forall h0 st s0,
            st <> PENDING -> pending_recorded s0 ->
            pending_recorded (set_future_state h0 st s0)).
  { intros h0 st s0 Hst H0 h fu Hf Hpe. unfold future_at in Hf. simpl in Hf.
    rewrite nth_error_update_nth in Hf. simpl.
    destruct (Nat.eqb h0 h); [|exact (H0 h fu Hf Hpe)].
    destruct (nth_error s0.(executor).(futures) h) as [fu0|];
      simpl in Hf; [|discriminate].
    injection Hf as <-. simpl in Hpe. contradiction. }
  assert (Hsame : forall s0 s1,
            s1.(processing_queue) = s0.(processing_queue) ->
            s1.(executor) = s0.(executor) ->
            pending_recorded s0 -> pending_recorded s1).
  { unfold pending_recorded, future_at. intros s0 s1 -> ->. auto. }
  destruct ev as [fid f now|fid| | |h|h|h now|h]; simpl.
  - unfold get_or_create.
    destruct (dict_get fid s.(cache)) as [cf|]; [exact Hp|].
    destruct (dict_get fid s.(processing_queue)) as [h|] eqn:Hq.
    + destruct (future_at h s) as [fu|] eqn:Hf; [|exact Hp].
      destruct (done fu) eqn:Hd; [|exact Hp].
      intros h' fu' Hf' Hpe. simpl.
      change (future_at h' s = Some fu') in Hf'.
      pose proof (Hp h' fu' Hf' Hpe) as Hq'.
      rewrite dict_get_pop_ne; [exact Hq'|].
      intros Heq. rewrite <- Heq in Hq'.
      assert (h' = h) by congruence. subst h'.
      assert (fu' = fu) by congruence. subst fu'.
      unfold done in Hd. rewrite Hpe in Hd. discriminate.
    + intros h' fu' Hf' Hpe. unfold future_at in Hf'. simpl in Hf'. simpl.
      destruct (Nat.lt_ge_cases h' (List.length s.(executor).(futures)))
        as [Hlt|Hge].
      * rewrite nth_error_app1 in Hf' by exact Hlt.
        pose proof (Hp h' fu' Hf' Hpe) as Hq'.
        rewrite dict_get_set_ne; [exact Hq'|].
        intros Heq. rewrite <- Heq in Hq'. congruence.
      * rewrite nth_error_app2 in Hf' by exact Hge.
        destruct (h' - List.length s.(executor).(futures))%nat
          as [|[|n]] eqn:Hd; simpl in Hf'; try discriminate.
        injection Hf' as <-. simpl.
        replace h' with (List.length s.(executor).(futures)) by lia.
        apply dict_get_set_eq.
  - unfold remove_file. destruct (dict_get fid s.(cache)); exact Hp.
  - intros h fu' Hf' Hpe. exfalso.
    unfold future_at, clear in Hf'. simpl in Hf'.
    rewrite cancel_all_nth in Hf'.
    destruct (in_dec Nat.eq_dec h (values s.(processing_queue))) as [Hin|Hn].
    + destruct (nth_error s.(executor).(futures) h) as [fu|];
        simpl in Hf'; [|discriminate].
      injection Hf' as <-. now apply cancel_not_pending in Hpe.
    + apply Hn. eapply dict_get_In_values. exact (Hp h fu' Hf' Hpe).
  - unfold worker_begin. destruct (_ <? _)%nat; [|exact Hp].
    destruct (first_pending _); [|exact Hp].
    apply Hset; [discriminate | exact Hp].
  - unfold worker_lookup.
    destruct (future_at h s) as [fu|]; [|exact Hp].
    destruct fu.(state) as [|[| | |]| |]; try exact Hp.
    destruct (process_lookup E _ s) as [[existing|data fhash]|e].
    + apply Hset; [discriminate | exact Hp].
    + destruct (process_content E _ _ data fhash);
        (apply Hset; [discriminate|]); now apply (Hsame s).
    + apply Hset; [discriminate | exact Hp].
  - unfold worker_evict.
    destruct (future_at h s) as [fu|]; [|exact Hp].
    destruct fu.(state) as [|[|cf| |]| |]; try exact Hp.
    apply Hset; [discriminate|].
    destruct (evict_lru_if_needed_frame cf.(memory_usage) s)
      as (Hq & Hex & _).
    now apply (Hsame s).
  - unfold worker_insert.
    destruct (future_at h s) as [fu|]; [|exact Hp].
    destruct fu.(state) as [|[| |cf|]| |]; try exact Hp.
    apply Hset; [discriminate|]. now apply (Hsame s).
  - unfold worker_return.
    destruct (future_at h s) as [fu|]; [|exact Hp].
    destruct fu.(state) as [|[| | |cf]| |]; try exact Hp.
    apply Hset; [discriminate | exact Hp].
Qed.

Lemma reachable_pending_recorded (E : Externals) (s : OptimizedFileCache) :
  reachable E s -> pending_recorded s.
Proof.
  apply reachable_ind.
  - intros mb k [|h] fu H; discriminate H.
  - intros ev s0. apply step_pending_recorded.
Qed.

Lemma process_lookup_miss (E : Externals) (file_obj : UploadedFile)
    (s : OptimizedFileCache) (file_data : bytes) (fhash : string) :
  process_lookup E file_obj s = Ok (Miss file_data fhash) ->
  file_obj.(getvalue) = Ok file_data /\ fhash = get_file_hash E file_data /\
  find_by_hash s fhash = None.
Proof.
  unfold process_lookup. destruct file_obj.(getvalue) as [d|e]; simpl;
    [|discriminate].
  destruct (find_by_hash s (get_file_hash E d)) eqn:Hf; [discriminate|].
  intros [= <- <-]. auto.
Qed.

Lemma process_lookup_hit (E : Externals) (file_obj : UploadedFile)
    (s : OptimizedFileCache) (existing : CachedFile) :
  process_lookup E file_obj s = Ok (Hit existing) ->
  In existing (values s.(cache)).
Proof.
  unfold process_lookup. destruct file_obj.(getvalue) as [d|e]; simpl;
    [|discriminate].
  destruct (find_by_hash s (get_file_hash E d)) eqn:Hf; [|discriminate].
  intros [= <-]. unfold find_by_hash in Hf. now apply find_some in Hf.
Qed.

Lemma done_future_stays (E : Externals) (ev : Event)
    (s : OptimizedFileCache) (h : nat) (fu : Future) :
  future_at h s = Some fu -> done fu = true ->
  future_at h (step E ev s) = Some fu.
Proof.
  intros Hf Hd.
  assert (Hset : forall h' st s0 fu',
            future_at h' s0 = Some fu' -> done fu' = false ->
            future_at h s0 = Some fu ->
            future_at h (set_future_state h' st s0) = Some fu).
  { intros h' st s0 fu' Hf' Hd' Hf0.
    rewrite future_at_set_future_state_ne; [exact Hf0|].
    intros ->. congruence. }
  destruct ev as [fid f now|fid| | |h'|h'|h' now|h']; simpl.
  - unfold get_or_create.
    destruct (dict_get fid s.(cache)) as [cf|]; [exact Hf|].
    destruct (dict_get fid s.(processing_queue)) as [h'|].
    + destruct (future_at h' s) as [fu'|]; [|exact Hf].
      destruct (done fu'); exact Hf.
    + unfold future_at in *. simpl. rewrite nth_error_app1; [exact Hf|].
      apply nth_error_Some. congruence.
  - unfold remove_file. destruct (dict_get fid s.(cache)); exact Hf.
  - apply clear_keeps_started; [exact Hf|].
    unfold done in Hd. unfold is_pending.
    destruct fu.(state); congruence.
  - unfold worker_begin. destruct (_ <? _)%nat; [|exact Hf].
    destruct (first_pending _) as [h'|] eqn:Hp; [|exact Hf].
    destruct (first_pending_Some _ _ Hp) as (fu' & Hf' & Hst).
    apply (Hset h' _ s fu'); [exact Hf'| |exact Hf].
    unfold done. now rewrite Hst.
  - unfold worker_lookup.
    destruct (future_at h' s) as [fu'|] eqn:Hf'; [|exact Hf].
    destruct fu'.(state) as [|[| | |]| |] eqn:Hst; try exact Hf.
    assert (Hd' : done fu' = false) by (unfold done; now rewrite Hst).
    destruct (process_lookup E _ s) as [[existing|data fhash]|e];
      [| destruct (process_content E _ _ data fhash) |];
      now apply (Hset h' _ _ fu').
  - unfold worker_evict.
    destruct (future_at h' s) as [fu'|] eqn:Hf'; [|exact Hf].
    destruct fu'.(state) as [|[|cf| |]| |] eqn:Hst; try exact Hf.
    assert (Hd' : done fu' = false) by (unfold done; now rewrite Hst).
    apply (Hset h' _ _ fu'); [|exact Hd'|];
      now rewrite future_at_evict_lru_if_needed.
  - unfold worker_insert.
    destruct (future_at h' s) as [fu'|] eqn:Hf'; [|exact Hf].
    destruct fu'.(state) as [|[| |cf|]| |] eqn:Hst; try exact Hf.
    assert (Hd' : done fu' = false) by (unfold done; now rewrite Hst).
    now apply (Hset h' _ _ fu').
  - unfold worker_return.
    destruct (future_at h' s) as [fu'|] eqn:Hf'; [|exact Hf].
    destruct fu'.(state) as [|[| | |cf]| |] eqn:Hst; try exact Hf.
    assert (Hd' : done fu' = false) by (unfold done; now rewrite Hst).
    now apply (Hset h' _ _ fu').
Qed.

Lemma done_future_stays_run (E : Externals) (evs : list Event)
    (s : OptimizedFileCache) (h : nat) (fu : Future) :
  future_at h s = Some fu -> done fu = true ->
  future_at h (run E evs s) = Some fu.
Proof.
  revert s. induction evs as [|ev r IH]; intros s Hf Hd; simpl;
    [exact Hf|].
  apply IH; [now apply done_future_stays | exact Hd].
Qed.

Lemma clear_cancels_recorded (s : OptimizedFileCache) (h : nat)
    (fu : Future) :
  future_at h s = Some fu -> fu.(state) = PENDING ->
  In h (values s.(processing_queue)) ->
  future_at h (clear s) = Some (with_state CANCELLED fu).
Proof.
  intros Hf Hst Hin. unfold future_at, clear in *. simpl.
  rewrite cancel_all_nth.
  destruct (in_dec Nat.eq_dec h (values s.(processing_queue)));
    [|contradiction].
  rewrite Hf. simpl. unfold cancel. now rewrite Hst.
Qed.

Lemma first_pending_app_new (fs : list Future) (fu : Future) :
  first_pending fs = None -> fu.(state) = PENDING ->
  first_pending (fs ++ [fu]) = Some (List.length fs).
Proof.
  intros Hn Hp. induction fs as [|x r IH]; simpl in *.
  - unfold is_pending. now rewrite Hp.
  - destruct (is_pending x); [discriminate|].
    destruct (first_pending r); [discriminate|].
    now rewrite IH.
Qed.

Lemma jobs_tracked_set_future_state (h : nat) (st : FutureState)
    (s : OptimizedFileCache) (fu : Future) :
  future_at h s = Some fu ->
  (forall h' fu', h' <> h -> future_at h' s = Some fu' ->
     done fu' = false ->
     dict_get fu'.(job_file_id) s.(processing_queue) = Some h' /\
     (not_inserted fu'.(state) = true ->
      dict_get fu'.(job_file_id) s.(cache) = None)) ->
  (done (with_state st fu) = false ->
   dict_get fu.(job_file_id) s.(processing_queue) = Some h /\
   (not_inserted st = true -> dict_get fu.(job_file_id) s.(cache) = None)) ->
  jobs_tracked (set_future_state h st s).
Proof.
  intros Hf Hothers Hself h' fu' Hf' Hd'.
  destruct (Nat.eq_dec h h') as [<-|Hne].
  - rewrite (future_at_set_future_state_eq h st s fu Hf) in Hf'.
    injection Hf' as <-. simpl. now apply Hself.
  - rewrite future_at_set_future_state_ne in Hf' by exact Hne.
    apply Hothers; [congruence | exact Hf' | exact Hd'].
Qed.

Lemma jobs_tracked_others (s : OptimizedFileCache) (h : nat) :
  jobs_tracked s ->
  forall h' fu', h' <> h -> future_at h' s = Some fu' ->
    done fu' = false ->
    dict_get fu'.(job_file_id) s.(processing_queue) = Some h' /\
    (not_inserted fu'.(state) = true ->
     dict_get fu'.(job_file_id) s.(cache) = None).
Proof. intros Ht h' fu' _ Hf Hd. now apply Ht. Qed.

Lemma jobs_tracked_shrink (s s' : OptimizedFileCache) :
  s'.(processing_queue) = s.(processing_queue) ->
  s'.(executor) = s.(executor) ->
  (forall k, dict_get k s.(cache) = None -> dict_get k s'.(cache) = None) ->
  jobs_tracked s -> jobs_tracked s'.
Proof.
  intros Hq Hex Hc Ht h fu Hf Hd. unfold future_at in Hf.
  rewrite Hex in Hf. destruct (Ht h fu Hf Hd) as [H1 H2].
  rewrite Hq. split; [exact H1|]. intros Hn. apply Hc. now apply H2.
Qed.

Lemma step_accounted_tracked (E : Externals) (ev : Event)
    (s : OptimizedFileCache) :
  no_clear ev = true ->
  accounted s /\ jobs_tracked s ->
  accounted (step E ev s) /\ jobs_tracked (step E ev s).
Proof.
  intros Hnc [Hacc Ht]. pose proof Hacc as [Hwf Hsum].
  destruct ev as [fid f now|fid| | |h|h|h now|h]; simpl;
    try discriminate Hnc.
  - split.
    { split; [now apply get_or_create_store_wf|].
      destruct (get_or_create_store fid f now s) as (Hc & Hu & _).
      unfold cached_bytes. now rewrite Hc, Hu. }
    unfold get_or_create.
    destruct (dict_get fid s.(cache)) as [cf|] eqn:Hg.
    { simpl. now apply (jobs_tracked_shrink s). }
    destruct (dict_get fid s.(processing_queue)) as [h|] eqn:Hq.
    + destruct (future_at h s) as [fu|] eqn:Hf; [|exact Ht].
      destruct (done fu) eqn:Hd; [|exact Ht].
      simpl. intros h' fu' Hf' Hd'.
      change (future_at h' s = Some fu') in Hf'.
      destruct (Ht h' fu' Hf' Hd') as [H1 H2].
      simpl. split; [|exact H2].
      rewrite dict_get_pop_ne; [exact H1|].
      intros Heq. rewrite <- Heq in H1.
      assert (h' = h) by congruence. subst h'.
      assert (fu' = fu) by congruence. subst fu'. congruence.
    + simpl. intros h' fu' Hf' Hd'. unfold future_at in Hf'.
      simpl in Hf'. simpl.
      destruct (Nat.lt_ge_cases h' (List.length s.(executor).(futures)))
        as [Hlt|Hge].
      * rewrite nth_error_app1 in Hf' by exact Hlt.
        destruct (Ht h' fu' Hf' Hd') as [H1 H2].
        split; [|exact H2].
        rewrite dict_get_set_ne; [exact H1|].
        intros Heq. rewrite <- Heq in H1. congruence.
      * rewrite nth_error_app2 in Hf' by exact Hge.
        destruct (h' - List.length s.(executor).(futures))%nat
          as [|[|n]] eqn:Hsub; simpl in Hf'; try discriminate.
        injection Hf' as <-. simpl.
        replace h' with (List.length s.(executor).(futures)) by lia.
        split; [apply dict_get_set_eq | intros _; exact Hg].
  - rewrite remove_file_pop_entry.
    destruct (dict_get fid s.(cache)) as [cf|] eqn:Hg; [|now split].
    split; [now apply accounted_pop_entry|].
    apply (jobs_tracked_shrink s); try reflexivity; [|exact Ht].
    intros k Hk. now apply absent_pop_entry.
  - unfold worker_begin. destruct (_ <? _)%nat; [|now split].
    destruct (first_pending _) as [h|] eqn:Hp; [|now split].
    destruct (first_pending_Some _ _ Hp) as (fu & Hf & Hst).
    split; [exact Hacc|].
    apply (jobs_tracked_set_future_state h _ s fu Hf);
      [now apply jobs_tracked_others|].
    intros _. destruct (Ht h fu Hf) as [H1 H2];
      [unfold done; now rewrite Hst|].
    split; [exact H1|]. intros _. apply H2. now rewrite Hst.
  - destruct (worker_lookup_store E h s) as (Hc & Ha & Hu & _).
    split.
    { split; [now apply (store_wf_same s)|].
      unfold cached_bytes. now rewrite Hc, Hu. }
    unfold worker_lookup.
    destruct (future_at h s) as [fu|] eqn:Hf; [|exact Ht].
    destruct fu.(state) as [|[| | |]| |] eqn:Hst; try exact Ht.
    destruct (Ht h fu Hf) as [H1 H2]; [unfold done; now rewrite Hst|].
    rewrite Hst in H2. specialize (H2 eq_refl).
    destruct (process_lookup E _ s) as [[existing|data fhash]|e];
      [| destruct (process_content E _ _ data fhash) |];
      (apply (jobs_tracked_set_future_state h _ _ fu);
       [exact Hf | now apply jobs_tracked_others
       | first [discriminate
               | intros _; split; [exact H1 | intros _; exact H2]]]).
  - unfold worker_evict.
    destruct (future_at h s) as [fu|] eqn:Hf; [|now split].
    destruct fu.(state) as [|[|cf| |]| |] eqn:Hst; try (now split).
    set (se := evict_lru_if_needed cf.(memory_usage) s).
    destruct (evict_lru_if_needed_frame cf.(memory_usage) s)
      as (Hq & Hex & _). fold se in Hq, Hex.
    assert (Hacce : accounted se) by (now apply accounted_after_evict).
    assert (Hte : jobs_tracked se).
    { apply (jobs_tracked_shrink s); [exact Hq | exact Hex | | exact Ht].
      intros k Hk. now apply absent_after_evict. }
    split.
    { destruct Hacce as [Hwfe Hsume].
      split; [now apply (store_wf_same se)|]. exact Hsume. }
    assert (Hfe : future_at h se = Some fu).
    { unfold se. now rewrite future_at_evict_lru_if_needed. }
    apply (jobs_tracked_set_future_state h _ se fu Hfe);
      [now apply jobs_tracked_others|].
    intros _. destruct (Hte h fu Hfe) as [H1 H2];
      [unfold done; now rewrite Hst|].
    split; [exact H1|]. intros _. apply H2. now rewrite Hst.
  - unfold worker_insert.
    destruct (future_at h s) as [fu|] eqn:Hf; [|now split].
    destruct fu.(state) as [|[| |cf|]| |] eqn:Hst; try (now split).
    destruct (Ht h fu Hf) as [H1 H2]; [unfold done; now rewrite Hst|].
    rewrite Hst in H2. specialize (H2 eq_refl).
    set (si := set_store (dict_set fu.(job_file_id) cf s.(cache))
                         (dict_set fu.(job_file_id) now s.(access_times))
                         (s.(current_memory_usage) + cf.(memory_usage)) s).
    split.
    { split.
      - apply (store_wf_same si); [reflexivity..|].
        now apply store_wf_insert.
      - simpl. unfold cached_bytes. simpl.
        rewrite cached_sum_set_absent by exact H2.
        unfold cached_bytes in Hsum. lia. }
    apply (jobs_tracked_set_future_state h _ si fu Hf).
    + intros h' fu' Hne Hf' Hd'.
      change (future_at h' s = Some fu') in Hf'.
      destruct (Ht h' fu' Hf' Hd') as [H1' H2'].
      split; [exact H1'|]. intros Hn. simpl.
      rewrite dict_get_set_ne; [now apply H2'|].
      intros Heq. rewrite Heq in H1. congruence.
    + intros _. split; [exact H1 | discriminate].
  - destruct (worker_return_store h s) as (Hc & Ha & Hu & _).
    split.
    { split; [now apply (store_wf_same s)|].
      unfold cached_bytes. now rewrite Hc, Hu. }
    unfold worker_return.
    destruct (future_at h s) as [fu|] eqn:Hf; [|exact Ht].
    destruct fu.(state) as [|[| | |cf]| |] eqn:Hst; try exact Ht.
    apply (jobs_tracked_set_future_state h _ s fu Hf);
      [now apply jobs_tracked_others | discriminate].
Qed.

(** ** The jobs and the handles of a run without [clear] *)

Lemma future_at_set_future_state_job (h h' : nat) (st : FutureState)
    (s : OptimizedFileCache) (fu : Future) :
  future_at h s = Some fu ->
  exists fu',
    future_at h (set_future_state h' st s) = Some fu' /\
    fu'.(job_file_id) = fu.(job_file_id) /\
    fu'.(job_file_obj) = fu.(job_file_obj).
Proof.
  intros Hf. destruct (Nat.eq_dec h' h) as [->|Hne].
  - rewrite (future_at_set_future_state_eq h st s fu Hf). eauto.
  - rewrite future_at_set_future_state_ne by exact Hne. eauto.
Qed.

(** No step removes a job or changes its identifier or its file. *)
Lemma step_keeps_jobs (E : Externals) (ev : Event)
    (s : OptimizedFileCache) (h : nat) (fu : Future) :
  future_at h s = Some fu ->
  exists fu',
    future_at h (step E ev s) = Some fu' /\
    fu'.(job_file_id) = fu.(job_file_id) /\
    fu'.(job_file_obj) = fu.(job_file_obj).
Proof.
  intros Hf.
  destruct ev as [fid f now|fid| | |h'|h'|h' now|h']; simpl.
  - unfold get_or_create.
    destruct (dict_get fid s.(cache)) as [cf|]; [eauto|].
    destruct (dict_get fid s.(processing_queue)) as [h'|].
    + destruct (future_at h' s) as [fu'|]; [|eauto].
      destruct (done fu'); eauto.
    + exists fu. split; [|auto]. unfold future_at in *. simpl.
      rewrite nth_error_app1; [exact Hf|].
      apply nth_error_Some. congruence.
  - unfold remove_file. destruct (dict_get fid s.(cache)); eauto.
  - unfold future_at, clear in *. simpl. rewrite cancel_all_nth, Hf.
    destruct (in_dec Nat.eq_dec h (values s.(processing_queue)));
      [|eauto].
    simpl. exists (cancel fu). split; [reflexivity|].
    unfold cancel. destruct fu.(state); auto.
  - unfold worker_begin. destruct (_ <? _)%nat; [|eauto].
    destruct (first_pending _); [|eauto].
    now apply future_at_set_future_state_job.
  - unfold worker_lookup.
    destruct (future_at h' s) as [fu'|]; [|eauto].
    destruct fu'.(state) as [|[| | |]| |]; eauto.
    destruct (process_lookup E _ s) as [[existing|data fhash]|e];
      [| destruct (process_content E _ _ data fhash) |];
      now apply future_at_set_future_state_job.
  - unfold worker_evict.
    destruct (future_at h' s) as [fu'|]; [|eauto].
    destruct fu'.(state) as [|[|cf| |]| |]; eauto.
    apply future_at_set_future_state_job.
    now rewrite future_at_evict_lru_if_needed.
  - unfold worker_insert.
    destruct (future_at h' s) as [fu'|]; [|eauto].
    destruct fu'.(state) as [|[| |cf|]| |]; eauto.
    now apply future_at_set_future_state_job.
  - unfold worker_return.
    destruct (future_at h' s) as [fu'|]; [|eauto].
    destruct fu'.(state) as [|[| | |cf]| |]; eauto.
    now apply future_at_set_future_state_job.
Qed.

Lemma step_queue (E : Externals) (ev : Event) (s : OptimizedFileCache) :
  match ev with
  | GetOrCreate _ _ _ | Clear => True
  | _ => (step E ev s).(processing_queue) = s.(processing_queue)
  end.
Proof.
  destruct ev as [fid f now|fid| | |h|h|h now|h]; simpl; auto.
  - unfold remove_file. now destruct (dict_get fid s.(cache)).
  - apply worker_begin_queue.
  - apply worker_lookup_queue.
  - apply worker_evict_queue.
  - apply worker_insert_queue.
  - apply worker_return_queue.
Qed.

Lemma step_queue_named (E : Externals) (ev : Event)
    (s : OptimizedFileCache) :
  queue_named s -> queue_named (step E ev s).
Proof.
  intros Hn fid h Hq.
  assert (Hold : dict_get fid s.(processing_queue) = Some h ->
                 exists fu, future_at h (step E ev s) = Some fu /\
                            fu.(job_file_id) = fid).
  { intros Hq0. destruct (Hn fid h Hq0) as (fu & Hf & Hid).
    destruct (step_keeps_jobs E ev s h fu Hf) as (fu' & Hf' & Hid' & _).
    exists fu'. split; [exact Hf' | congruence]. }
  pose proof (step_queue E ev s) as Hsq.
  destruct ev as [fid' f now|fid'| | |h'|h'|h' now|h'];
    try (rewrite Hsq in Hq; now apply Hold).
  - revert Hq Hold. simpl. unfold get_or_create.
    destruct (dict_get fid' s.(cache)) as [cf|]; [now auto|].
    destruct (dict_get fid' s.(processing_queue)) as [h'|] eqn:Hq'.
    + destruct (future_at h' s) as [fu'|]; [|now auto].
      destruct (done fu'); [|now auto].
      simpl. intros Hq Hold. apply Hold.
      now apply dict_get_pop_Some in Hq.
    + simpl. intros Hq Hold.
      destruct (string_dec fid' fid) as [->|Hne].
      * rewrite dict_get_set_eq in Hq. injection Hq as <-.
        exists {| job_file_id := fid; job_file_obj := f;
                  state := PENDING |}.
        split; [|reflexivity]. unfold future_at. simpl.
        rewrite nth_error_app2 by lia. now rewrite Nat.sub_diag.
      * rewrite dict_get_set_ne in Hq by exact Hne. now apply Hold.
  - discriminate Hq.
Qed.

Lemma published_own_set_future_state (h' : nat) (st : FutureState)
    (s : OptimizedFileCache) :
  (forall fid entry,
     dict_get fid s.(processing_queue) = Some h' ->
     dict_get fid s.(cache) = Some entry ->
     st = RUNNING (Inserted entry) \/ st = FINISHED entry) ->
  (forall fid h fu entry, h <> h' ->
     dict_get fid s.(processing_queue) = Some h ->
     future_at h s = Some fu ->
     dict_get fid s.(cache) = Some entry ->
     fu.(state) = RUNNING (Inserted entry) \/ fu.(state) = FINISHED entry) ->
  published_own (set_future_state h' st s).
Proof.
  intros Hself Hothers fid h fu entry Hq Hf Hc.
  change (dict_get fid s.(processing_queue) = Some h) in Hq.
  change (dict_get fid s.(cache) = Some entry) in Hc.
  destruct (Nat.eq_dec h' h) as [->|Hne].
  - unfold future_at in Hf. simpl in Hf.
    rewrite nth_error_update_nth, Nat.eqb_refl in Hf.
    destruct (nth_error s.(executor).(futures) h); [|discriminate].
    injection Hf as <-. simpl. now apply (Hself fid).
  - rewrite future_at_set_future_state_ne in Hf by exact Hne.
    apply (Hothers fid h fu entry); auto.
Qed.

Lemma evict_only_removes (needed : Z) (s : OptimizedFileCache)
    (k : string) (cf : CachedFile) :
  dict_get k (evict_lru_if_needed needed s).(cache) = Some cf ->
  dict_get k s.(cache) = Some cf.
Proof.
  apply (evict_lru_if_needed_keeps
           (fun s0 => dict_get k s0.(cache) = Some cf ->
                      dict_get k s.(cache) = Some cf)); [|auto].
  intros s0 fid c H0 _ Hk. apply H0. simpl in Hk.
  now apply dict_get_pop_Some in Hk.
Qed.

Lemma step_published_own (E : Externals) (ev : Event)
    (s : OptimizedFileCache) :
  no_clear ev = true ->
  jobs_tracked s -> queue_named s -> published_own s ->
  published_own (step E ev s).
Proof.
  intros Hnc Ht Hn Hp.
  assert (Hoth : forall h' fid h fu entry, h <> h' ->
            dict_get fid s.(processing_queue) = Some h ->
            future_at h s = Some fu ->
            dict_get fid s.(cache) = Some entry ->
            fu.(state) = RUNNING (Inserted entry) \/
            fu.(state) = FINISHED entry).
  { intros h' fid h fu entry _. apply Hp. }
  destruct ev as [fid' f now|fid'| | |h'|h'|h' now|h']; simpl;
    try discriminate Hnc.
  - unfold get_or_create.
    destruct (dict_get fid' s.(cache)) as [cf|] eqn:Hc'; [exact Hp|].
    destruct (dict_get fid' s.(processing_queue)) as [h'|] eqn:Hq'.
    + destruct (future_at h' s) as [fu'|]; [|exact Hp].
      destruct (done fu'); [|exact Hp].
      intros fid h fu entry Hq Hf Hc. simpl in Hq.
      apply dict_get_pop_Some in Hq. now apply (Hp fid h fu entry).
    + intros fid h fu entry Hq Hf Hc. simpl in Hq, Hc.
      destruct (string_dec fid' fid) as [->|Hne]; [congruence|].
      rewrite dict_get_set_ne in Hq by exact Hne.
      destruct (Hn fid h Hq) as (fu0 & Hf0 & _).
      unfold future_at in Hf, Hf0. simpl in Hf.
      rewrite nth_error_app1 in Hf
        by (apply nth_error_Some; congruence).
      now apply (Hp fid h fu entry).
  - unfold remove_file.
    destruct (dict_get fid' s.(cache)) as [cf|]; [|exact Hp].
    intros fid h fu entry Hq Hf Hc. simpl in Hc.
    apply dict_get_pop_Some in Hc. now apply (Hp fid h fu entry).
  - unfold worker_begin. destruct (_ <? _)%nat; [|exact Hp].
    destruct (first_pending _) as [h'|] eqn:Hfp; [|exact Hp].
    destruct (first_pending_Some _ _ Hfp) as (fu' & Hf' & Hst').
    apply published_own_set_future_state; [|now apply Hoth].
    intros fid entry Hq Hc.
    destruct (Hp fid h' fu' entry Hq Hf' Hc); congruence.
  - unfold worker_lookup.
    destruct (future_at h' s) as [fu'|] eqn:Hf'; [|exact Hp].
    destruct fu'.(state) as [|[| | |]| |] eqn:Hst'; try exact Hp.
    assert (Hno : forall fid entry,
              dict_get fid s.(processing_queue) = Some h' ->
              dict_get fid s.(cache) = Some entry -> False).
    { intros fid entry Hq Hc.
      destruct (Hp fid h' fu' entry Hq Hf' Hc); congruence. }
    destruct (process_lookup E _ s) as [[existing|data fhash]|e];
      [| destruct (process_content E _ _ data fhash) |];
      (apply published_own_set_future_state;
       [intros fid entry Hq Hc; destruct (Hno fid entry Hq Hc)
       | now apply Hoth]).
  - unfold worker_evict.
    destruct (future_at h' s) as [fu'|] eqn:Hf'; [|exact Hp].
    destruct fu'.(state) as [|[|cf| |]| |] eqn:Hst'; try exact Hp.
    destruct (evict_lru_if_needed_frame cf.(memory_usage) s)
      as (Hq0 & _).
    apply published_own_set_future_state.
    + intros fid entry Hq Hc. rewrite Hq0 in Hq.
      apply evict_only_removes in Hc.
      destruct (Hp fid h' fu' entry Hq Hf' Hc); congruence.
    + intros fid h fu entry _ Hq Hf Hc. rewrite Hq0 in Hq.
      rewrite future_at_evict_lru_if_needed in Hf.
      apply evict_only_removes in Hc. now apply (Hp fid h fu entry).
  - unfold worker_insert.
    destruct (future_at h' s) as [fu'|] eqn:Hf'; [|exact Hp].
    destruct fu'.(state) as [|[| |cf|]| |] eqn:Hst'; try exact Hp.
    destruct (Ht h' fu' Hf') as [Hq' _]; [unfold done; now rewrite Hst'|].
    apply published_own_set_future_state.
    + intros fid entry Hq Hc. simpl in Hq, Hc.
      destruct (Hn fid h' Hq) as (fu0 & Hf0 & Hid).
      assert (fu0 = fu') by congruence. subst fu0.
      rewrite Hid, dict_get_set_eq in Hc. injection Hc as <-. now left.
    + intros fid h fu entry Hne Hq Hf Hc. simpl in Hq, Hc.
      change (future_at h s = Some fu) in Hf.
      destruct (string_dec fu'.(job_file_id) fid) as [Heq|Hnf].
      * rewrite Heq in Hq'. congruence.
      * rewrite dict_get_set_ne in Hc by exact Hnf.
        now apply (Hp fid h fu entry).
  - unfold worker_return.
    destruct (future_at h' s) as [fu'|] eqn:Hf'; [|exact Hp].
    destruct fu'.(state) as [|[| | |cf]| |] eqn:Hst'; try exact Hp.
    apply published_own_set_future_state; [|now apply Hoth].
    intros fid entry Hq Hc. right.
    destruct (Hp fid h' fu' entry Hq Hf' Hc); congruence.
Qed.

(** What holds after every step of a run of a new cache in which [clear]
    is not called. *)
Lemma clear_free_invariants (E : Externals) (max_memory_mb : Z)
    (workers : nat) (evs : list Event) :
  forallb no_clear evs = true ->
  let s := run E evs (new_OptimizedFileCache max_memory_mb workers) in
  accounted s /\ jobs_tracked s /\ queue_named s /\ published_own s.
Proof.
  intros Hnc.
  assert (H0 : let s0 := new_OptimizedFileCache max_memory_mb workers in
               accounted s0 /\ jobs_tracked s0 /\ queue_named s0 /\
               published_own s0).
  { split; [|split; [|split]].
    - split; [|reflexivity]. unfold store_wf, keys_agree. simpl.
      repeat split; constructor.
    - intros [|h] fu H; discriminate H.
    - intros fid h H. discriminate H.
    - intros fid h fu entry H. discriminate H. }
  revert H0. cbv zeta.
  generalize (new_OptimizedFileCache max_memory_mb workers).
  induction evs as [|ev r IH]; intros s0 H0; simpl in *; [exact H0|].
  apply andb_prop in Hnc. destruct Hnc as [Hev Hr].
  apply (IH Hr). destruct H0 as (Ha & Ht & Hn & Hp).
  destruct (step_accounted_tracked E ev s0 Hev (conj Ha Ht)) as [Ha' Ht'].
  split; [exact Ha'|]. split; [exact Ht'|].
  split; [now apply step_queue_named | now apply step_published_own].
Qed.

(** ** A job in a cleared store *)







(** * The statements of the design document *)

(** ** Identical content under a second identifier *)

(** C1, as the code has it.  When a job for a second identifier starts on
    bytes whose first 8 KiB equal those of a file whose entry is cached,
    it finds an entry with that fingerprint (a ready one, in every state
    that the cache reaches) and returns it: no content processor runs,
    nothing is stored in [cache] under the second identifier, and the
    memory usage does not change.  The next [get_or_create] on the second
    identifier pops the job and returns that cached entry; the cache
    still has no entry for the second identifier, so the call after that
    returns a placeholder and submits a new job. *)
Theorem duplicate_content_is_aliased (E : Externals)
    (self : OptimizedFileCache) (h : nat) (fu : Future)
    (fid1 : string) (entry1 : CachedFile) (data1 data2 : bytes)
    (now now' : Z) :
  future_at h self = Some fu ->
  fu.(state) = RUNNING AtStart ->
  fu.(job_file_obj).(getvalue) = Ok data2 ->
  dict_get fid1 self.(cache) = Some entry1 ->
  entry1.(file_hash) = get_file_hash E data1 ->
  firstn (Z.to_nat 8192) data1 = firstn (Z.to_nat 8192) data2 ->
  dict_get fu.(job_file_id) self.(cache) = None ->
  dict_get fu.(job_file_id) self.(processing_queue) = Some h ->
  let fid2 := fu.(job_file_id) in
  let s1 := worker_lookup E h self in
  exists existing,
    In existing (values self.(cache)) /\
    existing.(file_hash) = get_file_hash E data2 /\
    (reachable E self -> is_ready existing = true) /\
    future_at h s1 = Some (with_state (FINISHED existing) fu) /\
    s1.(processor_calls) = self.(processor_calls) /\
    s1.(cache) = self.(cache) /\
    s1.(access_times) = self.(access_times) /\
    s1.(current_memory_usage) = self.(current_memory_usage) /\
    forall file_obj,
      let s2 := fst (get_or_create fid2 file_obj now s1) in
      snd (get_or_create fid2 file_obj now s1) = Ok existing /\
      s2.(cache) = self.(cache) /\
      s2.(current_memory_usage) = self.(current_memory_usage) /\
      dict_get fid2 s2.(cache) = None /\
      dict_get fid2 s2.(processing_queue) = None /\
      snd (get_or_create fid2 file_obj now' s2)
        = Ok (placeholder fid2 file_obj.(name)) /\
      pending_on fid2 (List.length s2.(executor).(futures))
        (fst (get_or_create fid2 file_obj now' s2)).
Proof.
  intros Hf Hst Hget Hc1 Hh Hpre Hc2 Hq fid2 s1.
  apply get_file_hash_prefix with (E := E) in Hpre.
  rewrite Hpre in Hh.
  destruct (find_by_hash_hits self fid1 entry1 _ Hc1 Hh)
    as (existing & Hfind & Hin & Hex).
  assert (Hl : process_lookup E fu.(job_file_obj) self = Ok (Hit existing)).
  { unfold process_lookup. rewrite Hget. simpl. now rewrite Hfind. }
  pose proof (worker_lookup_hit E h self fu existing Hf Hst Hl) as Hs1.
  assert (Hf1 : future_at h s1 = Some (with_state (FINISHED existing) fu)).
  { unfold s1. rewrite Hs1. now apply future_at_set_future_state_eq. }
  exists existing.
  split; [exact Hin|]. split; [exact Hex|].
  split; [intros Hr; now apply (reachable_cache_ready E self)|].
  split; [exact Hf1|].
  do 4 (split; [unfold s1; rewrite Hs1; reflexivity|]).
  intros file_obj s2.
  assert (Hc2' : dict_get fid2 s1.(cache) = None).
  { unfold s1. rewrite Hs1. exact Hc2. }
  assert (Hq' : dict_get fid2 s1.(processing_queue) = Some h).
  { unfold s1. rewrite Hs1. exact Hq. }
  pose proof (get_or_create_finished fid2 file_obj now s1 h _ existing
                Hc2' Hq' Hf1 eq_refl) as Hg.
  assert (Hs2 : s2 = set_processing_queue
                       (dict_pop fid2 s1.(processing_queue)) s1).
  { unfold s2. now rewrite Hg. }
  assert (Hc2'' : dict_get fid2 s2.(cache) = None).
  { rewrite Hs2. exact Hc2'. }
  assert (Hq'' : dict_get fid2 s2.(processing_queue) = None).
  { rewrite Hs2. apply dict_get_pop_eq. }
  split; [now rewrite Hg|].
  split; [rewrite Hs2; unfold s1; rewrite Hs1; reflexivity|].
  split; [rewrite Hs2; unfold s1; rewrite Hs1; reflexivity|].
  split; [exact Hc2''|]. split; [exact Hq''|].
  destruct (get_or_create_unknown fid2 file_obj now' s2 Hc2'' Hq'')
    as (H1 & _ & _ & _ & _ & _ & _ & H8).
  split; [exact H1 | exact H8].
Qed.

Lemma duplicate_content_is_aliased_witness :
  exists existing,
    future_at 1 (worker_lookup Demo.ext 1
                   (run Demo.ext [GetOrCreate "b" Demo.png_b 3; WorkerBegin]
                      Scenario.a_ready))
      = Some {| job_file_id := "b"; job_file_obj := Demo.png_b;
                state := FINISHED existing |} /\
    existing.(file_hash) = "PNG-one".
Proof.
  pose (s := run Demo.ext [GetOrCreate "b" Demo.png_b 3; WorkerBegin]
               Scenario.a_ready).
  destruct (duplicate_content_is_aliased Demo.ext s 1 _ "a"
              Scenario.entry_a (list_byte_of_string "PNG-one")
              (list_byte_of_string "PNG-one") 5 6
              eq_refl eq_refl eq_refl eq_refl eq_refl eq_refl eq_refl
              eq_refl)
    as (existing & _ & Hh & _ & Hf & _).
  exists existing. split; [exact Hf | exact Hh].
Defined.

(** C1 as the design document has it fails: after "a" and then "b", with
    the same bytes, have been uploaded and both jobs are done, the cache
    has no entry under "b" and counts the cost of one entry; the first
    [get_or_create] on "b" returns the entry of "a", the second returns a
    placeholder and submits a third job. *)
Lemma alias_gets_no_entry :
  let s := run Demo.ext
             ([GetOrCreate "a" Demo.png_a 1; WorkerBegin] ++ whole_job 0 2 ++
              [GetOrCreate "b" Demo.png_b 3; WorkerBegin] ++ whole_job 1 4)
             (new_OptimizedFileCache 1 2) in
  let s' := fst (get_or_create "b" Demo.png_b 5 s) in
  let s'' := fst (get_or_create "b" Demo.png_b 6 s') in
  Demo.png_a.(getvalue) = Demo.png_b.(getvalue) /\
  s.(cache) = [("a", Scenario.entry_a)] /\
  dict_get "b" s.(cache) = None /\
  s.(current_memory_usage) = Scenario.entry_a.(memory_usage) /\
  snd (get_or_create "b" Demo.png_b 5 s) = Ok Scenario.entry_a /\
  dict_get "b" s'.(cache) = None /\
  snd (get_or_create "b" Demo.png_b 6 s')
    = Ok (placeholder "b" "b.png") /\
  List.length s'.(executor).(futures) = 2%nat /\
  List.length s''.(executor).(futures) = 3%nat.
Proof. vm_compute. repeat split; reflexivity. Qed.

(** ** A job that raises *)

(** C2, as the code has it.  A job that raises in [process_file_async]
    finishes with an error entry as its result (kind "error", no cost,
    nothing for the model); the exception does not leave the job.  The
    error entry is the result of the future only: it is not stored in
    [cache], and the cache, the access times and the memory usage are
    unchanged.  The next [get_or_create] on the identifier pops the job
    and returns the error entry; after that the identifier has neither
    entry nor job, and the following [get_or_create] returns a placeholder
    and submits the processing again. *)
Theorem failed_job_returns_error_entry (E : Externals)
    (self : OptimizedFileCache) (h : nat) (fu : Future) (e : string)
    (now now' : Z) :
  future_at h self = Some fu ->
  fu.(state) = RUNNING AtStart ->
  job_raises E fu.(job_file_id) fu.(job_file_obj) self = Some e ->
  dict_get fu.(job_file_id) self.(cache) = None ->
  dict_get fu.(job_file_id) self.(processing_queue) = Some h ->
  let fid := fu.(job_file_id) in
  let err := error_entry fid fu.(job_file_obj) e in
  let s1 := worker_lookup E h self in
  future_at h s1 = Some (with_state (FINISHED err) fu) /\
  err.(content_type) = "error" /\
  err.(memory_usage) = 0 /\
  get_for_ai_model err = Ok VNone /\
  s1.(cache) = self.(cache) /\
  s1.(access_times) = self.(access_times) /\
  s1.(current_memory_usage) = self.(current_memory_usage) /\
  forall file_obj,
    let s2 := fst (get_or_create fid file_obj now s1) in
    snd (get_or_create fid file_obj now s1) = Ok err /\
    s2.(cache) = self.(cache) /\
    dict_get fid s2.(cache) = None /\
    dict_get fid s2.(processing_queue) = None /\
    snd (get_or_create fid file_obj now' s2)
      = Ok (placeholder fid file_obj.(name)) /\
    pending_on fid (List.length s2.(executor).(futures))
      (fst (get_or_create fid file_obj now' s2)).
Proof.
  intros Hf Hst Hr Hc Hq fid err s1.
  assert (Hs1 : exists s0,
            s1 = set_future_state h (FINISHED err) s0 /\
            future_at h s0 = Some fu /\
            s0.(cache) = self.(cache) /\
            s0.(access_times) = self.(access_times) /\
            s0.(current_memory_usage) = self.(current_memory_usage) /\
            s0.(processing_queue) = self.(processing_queue)).
  { destruct (worker_lookup_raises E h self fu e Hf Hst Hr) as [H|H].
    - exists self. repeat split; auto.
    - exists (count_processor_call self). repeat split; auto. }
  destruct Hs1 as (s0 & Hs1 & Hf0 & Hc0 & Ha0 & Hu0 & Hq0).
  assert (Hf1 : future_at h s1 = Some (with_state (FINISHED err) fu)).
  { rewrite Hs1. now apply future_at_set_future_state_eq. }
  assert (Hc1 : s1.(cache) = self.(cache)) by (rewrite Hs1; exact Hc0).
  assert (Hq1 : s1.(processing_queue) = self.(processing_queue))
    by (rewrite Hs1; exact Hq0).
  split; [exact Hf1|].
  do 3 (split; [reflexivity|]).
  split; [exact Hc1|].
  split; [rewrite Hs1; exact Ha0|].
  split; [rewrite Hs1; exact Hu0|].
  intros file_obj s2.
  assert (Hc' : dict_get fid s1.(cache) = None) by (rewrite Hc1; exact Hc).
  assert (Hq' : dict_get fid s1.(processing_queue) = Some h)
    by (rewrite Hq1; exact Hq).
  pose proof (get_or_create_finished fid file_obj now s1 h _ err
                Hc' Hq' Hf1 eq_refl) as Hg.
  assert (Hs2 : s2 = set_processing_queue
                       (dict_pop fid s1.(processing_queue)) s1).
  { unfold s2. now rewrite Hg. }
  assert (Hc2 : dict_get fid s2.(cache) = None) by (rewrite Hs2; exact Hc').
  assert (Hq2 : dict_get fid s2.(processing_queue) = None).
  { rewrite Hs2. apply dict_get_pop_eq. }
  split; [now rewrite Hg|].
  split; [rewrite Hs2; exact Hc1|].
  split; [exact Hc2|]. split; [exact Hq2|].
  destruct (get_or_create_unknown fid file_obj now' s2 Hc2 Hq2)
    as (H1 & _ & _ & _ & _ & _ & _ & H8).
  split; [exact H1 | exact H8].
Qed.

Lemma failed_job_returns_error_entry_witness :
  future_at 0 Scenario.bad_done
    = Some {| job_file_id := "x"; job_file_obj := Demo.bad_png;
              state := FINISHED (error_entry "x" Demo.bad_png
                                   "cannot identify image file") |} /\
  Scenario.bad_done.(cache) = [].
Proof.
  pose (s := run Demo.ext [GetOrCreate "x" Demo.bad_png 1; WorkerBegin]
               Scenario.fresh).
  pose proof (failed_job_returns_error_entry Demo.ext s 0 _
                "cannot identify image file" 3 4
                eq_refl eq_refl eq_refl eq_refl eq_refl) as H.
  cbv zeta in H. destruct H as (Hf & _ & _ & _ & Hc & _).
  split; [exact Hf | exact Hc].
Defined.

(** C2 as the design document has it fails: when the job of a file that
    is not an image has raised and is done, [cache] holds no entry for
    the identifier; the first [get_or_create] returns the error entry and
    the second returns a placeholder and submits the processing again. *)
Lemma error_entry_is_not_published :
  let s := run Demo.ext
             ([GetOrCreate "x" Demo.bad_png 1; WorkerBegin] ++ whole_job 0 2)
             (new_OptimizedFileCache 1 2) in
  let err := error_entry "x" Demo.bad_png "cannot identify image file" in
  let s' := fst (get_or_create "x" Demo.bad_png 3 s) in
  let s'' := fst (get_or_create "x" Demo.bad_png 4 s') in
  s.(cache) = [] /\
  snd (get_or_create "x" Demo.bad_png 3 s) = Ok err /\
  s'.(cache) = [] /\
  snd (get_or_create "x" Demo.bad_png 4 s')
    = Ok (placeholder "x" "bad.png") /\
  List.length s'.(executor).(futures) = 1%nat /\
  List.length s''.(executor).(futures) = 2%nat /\
  dict_get "x" s''.(processing_queue) = Some 1%nat.
Proof. vm_compute. repeat split; reflexivity. Qed.

(** ** The memory budget under concurrent jobs *)

(** C3 at two schedules that the two workers of the pool allow.  The
    check of the budget ([evict_lru_if_needed]) and the insertion are two
    separate critical sections of [process_file_async].  (1) Two files of
    0.75 MiB each are uploaded to a cache of 1 MiB, and both jobs pass the
    check before either inserts: the cache ends with both entries and a
    memory usage of 1.5 MiB, although neither entry exceeds the budget.
    (2) A job that was running at [clear] and the job submitted after it
    for the same identifier both insert: the cache holds one entry of
    0.75 MiB and counts 1.5 MiB. *)
Theorem budget_broken_by_interleaved_jobs :
  (let s := run Demo.ext
              [GetOrCreate "a" Demo.png_a 1; GetOrCreate "c" Demo.png_c 1;
               WorkerBegin; WorkerBegin; WorkerLookup 0; WorkerLookup 1;
               WorkerEvict 0; WorkerEvict 1;
               WorkerInsert 0 2; WorkerInsert 1 3;
               WorkerReturn 0; WorkerReturn 1]
              (new_OptimizedFileCache 1 2) in
   s.(max_memory_bytes) = 1048576 /\
   map (fun kv => (fst kv, (snd kv).(memory_usage))) s.(cache)
     = [("a", 786432); ("c", 786432)] /\
   s.(current_memory_usage) = 1572864 /\
   cached_bytes s = 1572864 /\
   s.(max_memory_bytes) < s.(current_memory_usage)) /\
  (let s := run Demo.ext
              [GetOrCreate "a" Demo.png_a 1; WorkerBegin; WorkerLookup 0;
               Clear;
               GetOrCreate "a" Demo.png_a 2; WorkerBegin; WorkerLookup 1;
               WorkerEvict 0; WorkerEvict 1;
               WorkerInsert 0 3; WorkerReturn 0;
               WorkerInsert 1 4; WorkerReturn 1]
              (new_OptimizedFileCache 1 2) in
   map (fun kv => (fst kv, (snd kv).(memory_usage))) s.(cache)
     = [("a", 786432)] /\
   cached_bytes s = 786432 /\
   s.(current_memory_usage) = 1572864 /\
   s.(current_memory_usage) <> cached_bytes s /\
   s.(max_memory_bytes) < s.(current_memory_usage)).
Proof.
  split; vm_compute.
  - do 4 (split; [reflexivity|]). reflexivity.
  - do 3 (split; [reflexivity|]). split; [discriminate | reflexivity].
Qed.

(** ** Eviction, oldest access first *)

(** C4.  When the new entry does not fit, [evict_lru_if_needed] goes
    through the entries in the order of their access times, oldest first,
    and evicts a prefix of that order: each victim is deleted from
    [cache] and from [access_times] and its cost is subtracted from the
    memory usage; it stops as soon as the new entry fits and otherwise
    when the cache is empty, and it evicts nothing when the entry fits at
    once.  The insertion that follows has no check of its own: the entry
    is inserted whether or not it fits.  With entries A, B and C accessed
    at times 1, 2 and 3, a new entry of [d] bytes that does not fit, and
    room for it beside C: A is evicted, B is evicted exactly when the new
    entry does not fit beside B and C, and C stays. *)
Theorem evict_lru_oldest_first :
  (forall needed self,
     NoDup (keys self.(access_times)) ->
     keys_agree self ->
     let order := sorted_by_value self.(access_times) in
     let s' := evict_lru_if_needed needed self in
     Permutation order self.(access_times) /\
     StronglySorted by_time order /\
     (fits needed self -> s' = self) /\
     exists n, (n <= List.length order)%nat /\
       let victims := firstn n (keys order) in
       s'.(cache) = pop_all victims self.(cache) /\
       s'.(access_times) = pop_all victims self.(access_times) /\
       s'.(current_memory_usage)
         = self.(current_memory_usage) - total_cost self.(cache) victims /\
       (fits needed s' \/ s'.(cache) = []) /\
       (forall j, (j < n)%nat ->
          self.(max_memory_bytes)
            < self.(current_memory_usage)
              - total_cost self.(cache) (firstn j (keys order)) + needed)) /\
  (forall h now self fu cf,
     future_at h self = Some fu ->
     fu.(state) = RUNNING (Processed cf) ->
     let s1 := evict_lru_if_needed cf.(memory_usage) self in
     let s2 := worker_insert h now (worker_evict h self) in
     dict_get fu.(job_file_id) s2.(cache) = Some cf /\
     s2.(current_memory_usage)
       = s1.(current_memory_usage) + cf.(memory_usage)) /\
  (forall (A B C : string) (ea eb ec : CachedFile) (d : Z) self,
     A <> B -> A <> C -> B <> C ->
     Permutation self.(access_times) [(A, 1); (B, 2); (C, 3)] ->
     dict_get A self.(cache) = Some ea ->
     dict_get B self.(cache) = Some eb ->
     dict_get C self.(cache) = Some ec ->
     self.(current_memory_usage)
       = ea.(memory_usage) + eb.(memory_usage) + ec.(memory_usage) ->
     ~ fits d self ->
     ec.(memory_usage) + d <= self.(max_memory_bytes) ->
     let s' := evict_lru_if_needed d self in
     let b_stays :=
       eb.(memory_usage) + ec.(memory_usage) + d
         <=? self.(max_memory_bytes) in
     dict_get A s'.(cache) = None /\
     dict_get B s'.(cache) = (if b_stays then Some eb else None) /\
     dict_get C s'.(cache) = Some ec /\
     s'.(current_memory_usage)
       = (if b_stays then eb.(memory_usage) + ec.(memory_usage)
          else ec.(memory_usage)) /\
     fits d s').
Proof.
  split; [|split].
  - intros needed self Hnd Hag order s'.
    split; [apply sorted_by_value_perm|].
    split; [apply sorted_by_value_sorted|].
    split.
    + intros Hfit. unfold s', evict_lru_if_needed.
      apply Z.leb_le in Hfit. now rewrite Hfit.
    + apply evict_lru_if_needed_prefix; assumption.
  - intros h now self fu cf Hf Hst s1 s2.
    pose proof (worker_evict_spec h self fu cf Hf Hst) as He.
    assert (Hf1 : future_at h (worker_evict h self)
                  = Some (with_state (RUNNING (Evicted cf)) fu)).
    { rewrite He. apply future_at_set_future_state_eq.
      now rewrite future_at_evict_lru_if_needed. }
    pose proof (worker_insert_spec h now _ _ cf Hf1 eq_refl) as Hi.
    unfold s2. rewrite Hi, He. simpl.
    split; [apply dict_get_set_eq | reflexivity].
  - intros A B C ea eb ec d self HAB HAC HBC Hperm HA HB HC Hu Hnf Hroom
      s' b_stays.
    assert (Hord : sorted_by_value self.(access_times)
                   = [(A, 1); (B, 2); (C, 3)]).
    { apply sorted_by_value_unique; [exact Hperm|].
      repeat constructor; simpl; lia. }
    unfold fits in Hnf.
    assert (H0 : (self.(current_memory_usage) + d
                    <=? self.(max_memory_bytes)) = false)
      by (apply Z.leb_gt; lia).
    subst s' b_stays. unfold evict_lru_if_needed. rewrite Hord, H0.
    simpl evict_loop. rewrite H0, HA. cbn [current_memory_usage set_store
      max_memory_bytes cache access_times].
    replace (self.(current_memory_usage) - ea.(memory_usage) + d)
      with (eb.(memory_usage) + ec.(memory_usage) + d) by lia.
    destruct (eb.(memory_usage) + ec.(memory_usage) + d
                <=? self.(max_memory_bytes)) eqn:H1.
    + apply Z.leb_le in H1. cbn [cache set_store current_memory_usage
        max_memory_bytes].
      split; [apply dict_get_pop_eq|].
      split; [now rewrite dict_get_pop_ne|].
      split; [now rewrite dict_get_pop_ne|].
      split; [lia|]. unfold fits. simpl. lia.
    + apply Z.leb_gt in H1.
      rewrite (dict_get_pop_ne A B) by exact HAB. rewrite HB.
      cbn [current_memory_usage set_store max_memory_bytes cache
        access_times].
      replace (self.(current_memory_usage) - ea.(memory_usage)
               - eb.(memory_usage) + d)
        with (ec.(memory_usage) + d) by lia.
      apply Z.leb_le in Hroom. rewrite Hroom.
      cbn [cache set_store current_memory_usage max_memory_bytes].
      apply Z.leb_le in Hroom.
      split; [rewrite dict_get_pop_ne by congruence; apply dict_get_pop_eq|].
      split; [apply dict_get_pop_eq|].
      split; [rewrite !dict_get_pop_ne by congruence; exact HC|].
      split; [lia|]. unfold fits. simpl. lia.
Qed.

Lemma evict_lru_oldest_first_witness :
  let s' := evict_lru_if_needed 3145728 Scenario.three_cached in
  dict_get "A" s'.(cache) = None /\
  dict_get "B" s'.(cache) = None /\
  dict_mem "C" s'.(cache) = true /\
  s'.(current_memory_usage) = 786432.
Proof.
  assert (Hnf : ~ fits 3145728 Scenario.three_cached).
  { unfold fits. vm_compute. intros X. apply X. reflexivity. }
  assert (Hroom : 786432 + 3145728
                  <= Scenario.three_cached.(max_memory_bytes)).
  { vm_compute. discriminate. }
  epose proof (proj2 (proj2 evict_lru_oldest_first) "A" "B" "C" _ _ _
                 3145728 Scenario.three_cached
                 ltac:(discriminate) ltac:(discriminate) ltac:(discriminate)
                 (Permutation_refl _) eq_refl eq_refl eq_refl eq_refl
                 Hnf Hroom) as H.
  cbv zeta in H. destruct H as (HA & HB & HC & Hu & _).
  cbv zeta. split; [exact HA|]. split; [exact HB|].
  split; [unfold dict_mem; rewrite HC; reflexivity | exact Hu].
Defined.

(** ** Lookup without blocking *)

(** C5, as the code has it.  [get_or_create] on an identifier that has no
    entry and no recorded job submits exactly one job (one new pending
    future, recorded in [processing_queue] under the identifier), returns
    a placeholder and runs no content processor; the cache, the access
    times and the memory usage are unchanged.  While the job is recorded
    and not done, a further [get_or_create] on the identifier never
    submits a second job: [processing_queue], the executor, the entries
    of the cache, the memory usage and the number of processor calls are
    as before.  What it returns depends on the cache, which line 179
    tests first: a placeholder, with nothing changed, when the cache has
    no entry under the identifier, and otherwise that entry, with its
    access time refreshed.  In a run without [clear] the cache has no
    entry under the identifier as long as the job has not inserted one,
    so the call returns a placeholder up to the job's insertion; between
    the insertion and the end of the job it returns the entry that the
    job has inserted, unless that entry is gone again. *)
Theorem get_or_create_submits_once (fid : string) (file_obj : UploadedFile)
    (now : Z) (self : OptimizedFileCache) :
  dict_get fid self.(cache) = None ->
  dict_get fid self.(processing_queue) = None ->
  let h := List.length self.(executor).(futures) in
  let s1 := fst (get_or_create fid file_obj now self) in
  snd (get_or_create fid file_obj now self)
    = Ok (placeholder fid file_obj.(name)) /\
  s1.(executor).(futures)
    = (self.(executor).(futures) ++
       [{| job_file_id := fid; job_file_obj := file_obj;
           state := PENDING |}])%list /\
  s1.(processing_queue) = (self.(processing_queue) ++ [(fid, h)])%list /\
  s1.(cache) = self.(cache) /\
  s1.(access_times) = self.(access_times) /\
  s1.(current_memory_usage) = self.(current_memory_usage) /\
  s1.(processor_calls) = self.(processor_calls) /\
  pending_on fid h s1 /\
  (forall s2 h' fu file_obj' now',
     dict_get fid s2.(processing_queue) = Some h' ->
     future_at h' s2 = Some fu ->
     done fu = false ->
     let s3 := fst (get_or_create fid file_obj' now' s2) in
     s3.(processing_queue) = s2.(processing_queue) /\
     s3.(executor) = s2.(executor) /\
     s3.(cache) = s2.(cache) /\
     s3.(current_memory_usage) = s2.(current_memory_usage) /\
     s3.(processor_calls) = s2.(processor_calls) /\
     (dict_get fid s2.(cache) = None ->
      get_or_create fid file_obj' now' s2
        = (s2, Ok (placeholder fid file_obj'.(name)))) /\
     (forall cf,
        dict_get fid s2.(cache) = Some cf ->
        snd (get_or_create fid file_obj' now' s2) = Ok cf /\
        s3.(access_times) = dict_set fid now' s2.(access_times))) /\
  (forall E max_memory_mb workers evs h' fu file_obj' now',
     forallb no_clear evs = true ->
     let s2 := run E evs (new_OptimizedFileCache max_memory_mb workers) in
     dict_get fid s2.(processing_queue) = Some h' ->
     future_at h' s2 = Some fu ->
     done fu = false ->
     (not_inserted fu.(state) = true ->
      get_or_create fid file_obj' now' s2
        = (s2, Ok (placeholder fid file_obj'.(name)))) /\
     (forall cf,
        fu.(state) = RUNNING (Inserted cf) ->
        snd (get_or_create fid file_obj' now' s2) = Ok cf \/
        snd (get_or_create fid file_obj' now' s2)
          = Ok (placeholder fid file_obj'.(name)))).
Proof.
  intros Hc Hq h s1.
  destruct (get_or_create_unknown fid file_obj now self Hc Hq)
    as (H1 & H2 & H3 & H4 & H5 & H6 & H7 & H8).
  repeat (split; [assumption|]).
  assert (Hpend : forall s2 h' fu file_obj' now',
            dict_get fid s2.(processing_queue) = Some h' ->
            future_at h' s2 = Some fu -> done fu = false ->
            dict_get fid s2.(cache) = None ->
            get_or_create fid file_obj' now' s2
              = (s2, Ok (placeholder fid file_obj'.(name)))).
  { intros s2 h' fu file_obj' now' Hq2 Hf2 Hd2 Hc2.
    apply get_or_create_pending with (h := h').
    split; [exact Hc2|]. split; [exact Hq2|]. eauto. }
  split.
  - intros s2 h' fu file_obj' now' Hq2 Hf2 Hd2 s3.
    destruct (dict_get fid s2.(cache)) as [cf|] eqn:Hc2.
    + assert (Hg : get_or_create fid file_obj' now' s2
                   = (set_access_times
                        (dict_set fid now' s2.(access_times)) s2, Ok cf)).
      { unfold get_or_create. now rewrite Hc2. }
      unfold s3. rewrite Hg. simpl.
      do 5 (split; [reflexivity|]).
      split; [discriminate|]. intros cf' [= <-]. now split.
    + pose proof (Hpend s2 h' fu file_obj' now' Hq2 Hf2 Hd2 Hc2) as Hg.
      unfold s3. rewrite Hg. simpl.
      do 5 (split; [reflexivity|]).
      split; [reflexivity | discriminate].
  - intros E mb k evs h' fu file_obj' now' Hnc s2 Hq2 Hf2 Hd2.
    destruct (clear_free_invariants E mb k evs Hnc)
      as (_ & Ht & Hn & Hp).
    fold s2 in Ht, Hn, Hp.
    destruct (Hn fid h' Hq2) as (fu0 & Hf0 & Hid).
    assert (fu0 = fu) by congruence. subst fu0.
    destruct (Ht h' fu Hf2 Hd2) as [_ Habs]. rewrite Hid in Habs.
    split.
    + intros Hni. apply (Hpend s2 h' fu); auto.
    + intros cf Hst.
      destruct (dict_get fid s2.(cache)) as [entry|] eqn:Hc2.
      * left. unfold get_or_create. rewrite Hc2. simpl.
        destruct (Hp fid h' fu entry Hq2 Hf2 Hc2) as [He|He];
          congruence.
      * right. now rewrite (Hpend s2 h' fu file_obj' now').
Qed.

Lemma get_or_create_submits_once_witness :
  let s1 := fst (get_or_create "a" Demo.png_a 1
                   (new_OptimizedFileCache 1 2)) in
  let s2 := run Demo.ext [WorkerBegin; WorkerLookup 0; WorkerEvict 0] s1 in
  get_or_create "a" Demo.png_a 2 s1 = (s1, Ok (placeholder "a" "a.png")) /\
  get_or_create "a" Demo.png_a 3 s2 = (s2, Ok (placeholder "a" "a.png")).
Proof.
  destruct (get_or_create_submits_once "a" Demo.png_a 1
              (new_OptimizedFileCache 1 2) eq_refl eq_refl)
    as (_ & _ & _ & _ & _ & _ & _ & _ & Hagain & _).
  split.
  - destruct (Hagain (fst (get_or_create "a" Demo.png_a 1
                             (new_OptimizedFileCache 1 2)))
                0%nat _ Demo.png_a 2 eq_refl eq_refl eq_refl)
      as (_ & _ & _ & _ & _ & Hp & _).
    exact (Hp eq_refl).
  - destruct (Hagain (run Demo.ext
                        [WorkerBegin; WorkerLookup 0; WorkerEvict 0]
                        (fst (get_or_create "a" Demo.png_a 1
                                (new_OptimizedFileCache 1 2))))
                0%nat _ Demo.png_a 3 eq_refl eq_refl eq_refl)
      as (_ & _ & _ & _ & _ & Hp & _).
    exact (Hp eq_refl).
Defined.

(** C5 as the design document has it fails in its second half: after the
    job of "a" has inserted its entry (lines 166-168) and before it
    returns, the job is still recorded and not done, yet [get_or_create]
    returns the ready entry, not a placeholder.  No second job is
    submitted. *)
Lemma ready_entry_while_job_is_recorded :
  let s := run Demo.ext
             [GetOrCreate "a" Demo.png_a 1; WorkerBegin; WorkerLookup 0;
              WorkerEvict 0; WorkerInsert 0 2]
             (new_OptimizedFileCache 1 2) in
  dict_get "a" s.(processing_queue) = Some 0%nat /\
  option_map done (future_at 0 s) = Some false /\
  snd (get_or_create "a" Demo.png_a 3 s) = Ok Scenario.entry_a /\
  is_ready Scenario.entry_a = true /\
  Scenario.entry_a <> placeholder "a" "a.png" /\
  (fst (get_or_create "a" Demo.png_a 3 s)).(executor) = s.(executor).
Proof.
  vm_compute. repeat split; try reflexivity. discriminate.
Qed.

(** ** The handle of a job that has published *)

(** C6, as the code has it.  A job does not take its handle out of
    [processing_queue] when it publishes and completes: after
    [cache[file_id] = cached_file] and the job's return, the identifier is
    in [cache] and in [processing_queue] at once, and [get_or_create],
    which finds the entry first, returns it and leaves the handle where it
    is.  A handle leaves [processing_queue] only through [clear], or
    through [get_or_create] on an identifier that has no entry and whose
    job is done. *)
Theorem handle_outlives_publication (E : Externals)
    (self : OptimizedFileCache) (h : nat) (fu : Future) (cf : CachedFile)
    (now : Z) :
  future_at h self = Some fu ->
  fu.(state) = RUNNING (Evicted cf) ->
  dict_get fu.(job_file_id) self.(processing_queue) = Some h ->
  let fid := fu.(job_file_id) in
  let s1 := worker_return h (worker_insert h now self) in
  dict_get fid s1.(cache) = Some cf /\
  future_at h s1 = Some (with_state (FINISHED cf) fu) /\
  dict_get fid s1.(processing_queue) = Some h /\
  (forall file_obj now',
     let s2 := fst (get_or_create fid file_obj now' s1) in
     snd (get_or_create fid file_obj now' s1) = Ok cf /\
     dict_get fid s2.(cache) = Some cf /\
     s2.(processing_queue) = s1.(processing_queue)) /\
  (forall ev s fid' h',
     dict_get fid' s.(processing_queue) = Some h' ->
     dict_get fid' (step E ev s).(processing_queue) = Some h' \/
     ev = Clear \/
     exists file_obj now' fu',
       ev = GetOrCreate fid' file_obj now' /\
       dict_get fid' s.(cache) = None /\
       future_at h' s = Some fu' /\ done fu' = true).
Proof.
  intros Hf Hst Hq fid s1.
  pose proof (worker_insert_spec h now self fu cf Hf Hst) as Hi.
  assert (Hf1 : future_at h (worker_insert h now self)
                = Some (with_state (RUNNING (Inserted cf)) fu)).
  { rewrite Hi. apply future_at_set_future_state_eq. exact Hf. }
  pose proof (worker_return_spec h _ _ cf Hf1 eq_refl) as Hr.
  assert (Hc1 : dict_get fid s1.(cache) = Some cf).
  { unfold s1. rewrite Hr, Hi. simpl. apply dict_get_set_eq. }
  split; [exact Hc1|].
  split.
  { unfold s1. rewrite Hr.
    rewrite (future_at_set_future_state_eq _ _ _ _ Hf1). reflexivity. }
  split.
  { unfold s1. rewrite worker_return_queue, worker_insert_queue. exact Hq. }
  split.
  - intros file_obj now'. unfold get_or_create. rewrite Hc1. simpl.
    split; [reflexivity|]. split; [exact Hc1|reflexivity].
  - intros ev s fid' h'. apply handle_removed_only_by.
Qed.

Lemma handle_outlives_publication_witness :
  dict_get "a" Scenario.a_ready.(cache) = Some Scenario.entry_a /\
  dict_get "a" Scenario.a_ready.(processing_queue) = Some 0%nat.
Proof.
  pose (s := run Demo.ext
               [GetOrCreate "a" Demo.png_a 1; WorkerBegin;
                WorkerLookup 0; WorkerEvict 0] Scenario.fresh).
  pose proof (handle_outlives_publication Demo.ext s 0 _ Scenario.entry_a 2
                eq_refl eq_refl eq_refl) as H.
  cbv zeta in H. destruct H as (Hc & _ & Hq & _).
  split; [exact Hc | exact Hq].
Defined.

(** C6 as the design document has it fails: when the job of "a" has
    published its entry and completed, "a" is in [cache] and in
    [processing_queue], and it is still in both after the next
    [get_or_create]. *)
Lemma handle_not_removed_on_completion :
  let s := run Demo.ext
             ([GetOrCreate "a" Demo.png_a 1; WorkerBegin] ++ whole_job 0 2)
             (new_OptimizedFileCache 1 2) in
  let s' := fst (get_or_create "a" Demo.png_a 5 s) in
  option_map state (future_at 0 s) = Some (FINISHED Scenario.entry_a) /\
  dict_mem "a" s.(cache) = true /\
  dict_mem "a" s.(processing_queue) = true /\
  dict_mem "a" s'.(cache) = true /\
  dict_mem "a" s'.(processing_queue) = true.
Proof. vm_compute. repeat split; reflexivity. Qed.

(** ** [clear] and the jobs that are running *)




(** ** The payload handed to the model *)

(** C8.  For every entry that the cache builds, [get_for_ai_model] returns
    the decoded image when the entry's kind is image, the extracted text
    when its kind is pdf (document), and [None] when the entry is a
    pending placeholder or an error entry; the entry has one of these four
    kinds and the call never raises. *)
Theorem get_for_ai_model_by_kind (E : Externals) (cf : CachedFile) :
  built E cf ->
  (cf.(content_type) = "image" ->
     exists img, cf.(processed_data) = VImage img /\
                 get_for_ai_model cf = Ok (VImage img)) /\
  (cf.(content_type) = "pdf" ->
     exists d text, cf.(processed_data) = VDict d /\
                    dict_get "text_content" d = Some (VStr text) /\
                    get_for_ai_model cf = Ok (VStr text)) /\
  (cf.(content_type) = "processing" \/ cf.(content_type) = "error" ->
     get_for_ai_model cf = Ok VNone) /\
  (cf.(content_type) = "image" \/ cf.(content_type) = "pdf" \/
   cf.(content_type) = "processing" \/ cf.(content_type) = "error") /\
  (exists v, get_for_ai_model cf = Ok v).
Proof.
  intros [fid fname | fid file_obj file_data fhash cf' Hc | fid file_obj e].
  - split; [intros H; discriminate H|].
    split; [intros H; discriminate H|].
    split; [reflexivity|]. split; [auto|]. eexists; reflexivity.
  - destruct (process_content_shape E _ _ _ _ _ Hc)
      as (Hph & _ & _ &
          [[Hk (text & Hd & Ht & _)] | [Hk (img & _ & Hd & _)]]).
    + assert (Hg : get_for_ai_model cf' = Ok (VStr text)).
      { unfold get_for_ai_model, is_ready.
        rewrite Hph, Hk, Hd. simpl. rewrite Ht. reflexivity. }
      split; [intros H; rewrite Hk in H; discriminate H|].
      split; [eauto|].
      split; [intros [H|H]; rewrite Hk in H; discriminate H|].
      split; [auto|]. eauto.
    + assert (Hg : get_for_ai_model cf' = Ok (VImage img)).
      { unfold get_for_ai_model, is_ready.
        rewrite Hph, Hk, Hd. reflexivity. }
      split; [eauto|].
      split; [intros H; rewrite Hk in H; discriminate H|].
      split; [intros [H|H]; rewrite Hk in H; discriminate H|].
      split; [auto|]. eauto.
  - split; [intros H; discriminate H|].
    split; [intros H; discriminate H|].
    split; [reflexivity|]. split; [auto|]. eexists; reflexivity.
Qed.

Lemma get_for_ai_model_by_kind_witness :
  built Demo.ext
    (new_CachedFile "a" "a.png" "image"
       (VImage {| mode := "RGB"; width := 512; height := 512;
                  pixels := list_byte_of_string "PNG-one" |})
       786432 "PNG-one") /\
  exists v,
    get_for_ai_model
      (new_CachedFile "a" "a.png" "image"
         (VImage {| mode := "RGB"; width := 512; height := 512;
                    pixels := list_byte_of_string "PNG-one" |})
         786432 "PNG-one") = Ok v.
Proof.
  assert (Hb : built Demo.ext
            (new_CachedFile "a" "a.png" "image"
               (VImage {| mode := "RGB"; width := 512; height := 512;
                          pixels := list_byte_of_string "PNG-one" |})
               786432 "PNG-one")).
  { apply (built_content Demo.ext "a" Demo.png_a
             (list_byte_of_string "PNG-one") "PNG-one").
    reflexivity. }
  split; [exact Hb|].
  exact (proj2 (proj2 (proj2 (proj2
           (get_for_ai_model_by_kind Demo.ext _ Hb))))).
Defined.

(** ** A PDF that cannot be read *)

(** C9.  When the extraction of the text of a PDF fails with reason [e],
    the document processor does not raise: [extract_pdf_text] returns the
    placeholder text with the reason inside and the error flag, and
    [process_file_async] builds a pdf entry from it whose memory usage is
    the encoded length of the placeholder text; the text is not empty and
    [get_for_ai_model] returns it. *)
Theorem unreadable_pdf_degrades (E : Externals) (fid : string)
    (file_obj : UploadedFile) (file_data : bytes) (fhash e : string) :
  file_obj.(type) = "application/pdf" ->
  read_pdf_pages E file_data 10 = Raise e ->
  let marker := "[Errore estrazione PDF: " ++ e ++ "]" in
  extract_pdf_text E file_data 10
    = [("text_content", VStr marker); ("error", VBool true)] /\
  exists cf,
    process_content E fid file_obj file_data fhash = Ok cf /\
    cf.(content_type) = "pdf" /\
    cf.(processed_data)
      = VDict [("text_content", VStr marker); ("error", VBool true)] /\
    cf.(memory_usage) = len (encode marker) /\
    0 < cf.(memory_usage) /\
    marker <> "" /\
    is_ready cf = true /\
    get_for_ai_model cf = Ok (VStr marker).
Proof.
  intros Hty Hfail marker.
  assert (Hx : extract_pdf_text E file_data 10
               = [("text_content", VStr marker); ("error", VBool true)]).
  { unfold extract_pdf_text. rewrite Hfail. reflexivity. }
  split; [exact Hx|].
  unfold process_content. rewrite Hty. simpl. rewrite Hx. simpl.
  eexists. split; [reflexivity|].
  split; [reflexivity|]. split; [reflexivity|]. split; [reflexivity|].
  split.
  { cbn [memory_usage new_CachedFile]. unfold len.
    rewrite encode_length. unfold marker. simpl String.length. lia. }
  split; [unfold marker; simpl; discriminate|].
  split; reflexivity.
Qed.

Lemma unreadable_pdf_degrades_witness :
  exists cf,
    process_content Demo.ext "p" Demo.bad_pdf (list_byte_of_string "junk")
      "junk" = Ok cf /\
    cf.(memory_usage) = 46 /\
    get_for_ai_model cf
      = Ok (VStr "[Errore estrazione PDF: Failed to open stream]").
Proof.
  destruct (unreadable_pdf_degrades Demo.ext "p" Demo.bad_pdf
              (list_byte_of_string "junk") "junk" "Failed to open stream"
              eq_refl eq_refl)
    as (_ & cf & Hc & _ & _ & Hm & _ & _ & _ & Hg).
  exists cf. split; [exact Hc|]. split; [|exact Hg].
  rewrite Hm. reflexivity.
Defined.

(** ** Removal while a finished job is still recorded *)

(** C10, as the code has it.  [remove_file] deletes an entry and leaves
    [processing_queue] and the futures alone.  When a finished job is
    still recorded under the same identifier, the next [get_or_create]
    pops it and returns the job's result, leaving the cache, the access
    times and the memory usage as [remove_file] left them: nothing is
    inserted again and no cost is counted again.  The call after that
    finds neither entry nor job and submits a new one.  In a run without
    [clear] the recorded job is the one that inserted the entry, so what
    the call returns is the entry that was removed; after a [clear]
    during a running job it can be another job of the identifier, and
    its result the entry of another identifier. *)
Theorem removed_entry_returned_once (fid : string)
    (file_obj : UploadedFile) (now now' : Z) (self : OptimizedFileCache)
    (h : nat) (entry r : CachedFile) (fu : Future) :
  dict_get fid self.(cache) = Some entry ->
  dict_get fid self.(processing_queue) = Some h ->
  future_at h self = Some fu ->
  fu.(state) = FINISHED r ->
  let s1 := remove_file fid self in
  let s2 := fst (get_or_create fid file_obj now s1) in
  s1.(processing_queue) = self.(processing_queue) /\
  s1.(executor) = self.(executor) /\
  dict_get fid s1.(cache) = None /\
  s1.(current_memory_usage)
    = self.(current_memory_usage) - entry.(memory_usage) /\
  snd (get_or_create fid file_obj now s1) = Ok r /\
  s2.(processing_queue) = dict_pop fid self.(processing_queue) /\
  s2.(cache) = s1.(cache) /\
  s2.(access_times) = s1.(access_times) /\
  s2.(current_memory_usage) = s1.(current_memory_usage) /\
  s2.(executor) = s1.(executor) /\
  snd (get_or_create fid file_obj now' s2)
    = Ok (placeholder fid file_obj.(name)) /\
  (forall E max_memory_mb workers evs,
     forallb no_clear evs = true ->
     self = run E evs (new_OptimizedFileCache max_memory_mb workers) ->
     r = entry /\
     snd (get_or_create fid file_obj now s1) = Ok entry).
Proof.
  intros Hc Hq Hf Hst s1 s2.
  assert (Hs1 : s1 = set_store (dict_pop fid self.(cache))
                       (dict_pop fid self.(access_times))
                       (self.(current_memory_usage) - entry.(memory_usage))
                       self).
  { unfold s1, remove_file. rewrite Hc. reflexivity. }
  assert (Hc1 : dict_get fid s1.(cache) = None).
  { rewrite Hs1. apply dict_get_pop_eq. }
  assert (Hg : get_or_create fid file_obj now s1
               = (set_processing_queue
                    (dict_pop fid s1.(processing_queue)) s1, Ok r)).
  { unfold get_or_create. rewrite Hc1.
    replace (dict_get fid s1.(processing_queue)) with (Some h)
      by (rewrite Hs1; symmetry; exact Hq).
    replace (future_at h s1) with (Some fu)
      by (rewrite Hs1; symmetry; exact Hf).
    unfold done, future_result. rewrite Hst. reflexivity. }
  assert (Hs2 : s2 = set_processing_queue
                       (dict_pop fid s1.(processing_queue)) s1).
  { unfold s2. rewrite Hg. reflexivity. }
  split; [rewrite Hs1; reflexivity|].
  split; [rewrite Hs1; reflexivity|].
  split; [exact Hc1|].
  split; [rewrite Hs1; reflexivity|].
  split; [rewrite Hg; reflexivity|].
  split; [rewrite Hs2, Hs1; reflexivity|].
  do 4 (split; [rewrite Hs2; reflexivity|]).
  split.
  - unfold get_or_create.
    replace (dict_get fid s2.(cache)) with (@None CachedFile)
      by (rewrite Hs2; symmetry; exact Hc1).
    replace (dict_get fid s2.(processing_queue)) with (@None nat)
      by (rewrite Hs2; symmetry; apply dict_get_pop_eq).
    reflexivity.
  - intros E mb k evs Hnc Hrun.
    destruct (clear_free_invariants E mb k evs Hnc) as (_ & _ & _ & Hp).
    cbv zeta in Hp. rewrite <- Hrun in Hp.
    assert (Hr : r = entry).
    { destruct (Hp fid h fu entry Hq Hf Hc) as [He|He]; congruence. }
    split; [exact Hr|]. rewrite Hg. simpl. now rewrite Hr.
Qed.

Lemma removed_entry_returned_once_witness :
  snd (get_or_create "a" Demo.png_a 3 (remove_file "a" Scenario.a_ready))
    = Ok Scenario.entry_a /\
  (fst (get_or_create "a" Demo.png_a 3
          (remove_file "a" Scenario.a_ready))).(cache) = [].
Proof.
  pose proof (removed_entry_returned_once "a" Demo.png_a 3 4
                Scenario.a_ready 0 Scenario.entry_a Scenario.entry_a
                _ eq_refl eq_refl eq_refl eq_refl) as H.
  cbv zeta in H.
  destruct H as (_ & _ & _ & _ & Hr & _ & Hc & _).
  split; [exact Hr|]. rewrite Hc. reflexivity.
Defined.

(** C10 as stated fails: what the call returns need not be the entry
    that was removed.  The job of "b" has processed its file when [clear]
    is called; "a", a file with the same first bytes, is then uploaded
    and cached; "b" is polled again, and its new job finds the entry of
    "a" by the fingerprint and finishes with it; the first job of "b"
    then inserts its own entry.  After [remove_file] of "b" the next
    [get_or_create] of "b" returns the entry of "a". *)
Lemma recorded_job_returns_other_entry :
  let s := run Demo.ext
             ([GetOrCreate "b" Demo.png_b 1; WorkerBegin; WorkerLookup 0;
               Clear;
               GetOrCreate "a" Demo.png_a 2; WorkerBegin]
              ++ whole_job 1 3 ++
              [GetOrCreate "b" Demo.png_b 4; WorkerBegin; WorkerLookup 2;
               WorkerEvict 0; WorkerInsert 0 5; WorkerReturn 0])
             (new_OptimizedFileCache 4 3) in
  let entry_b :=
    new_CachedFile "b" "b.png" "image"
      Scenario.entry_a.(processed_data) 786432 "PNG-one" in
  dict_get "b" s.(cache) = Some entry_b /\
  is_ready entry_b = true /\
  dict_get "b" s.(processing_queue) = Some 2%nat /\
  option_map state (future_at 2 s) = Some (FINISHED Scenario.entry_a) /\
  snd (get_or_create "b" Demo.png_b 6 (remove_file "b" s))
    = Ok Scenario.entry_a /\
  Scenario.entry_a.(file_id) = "a"%string /\
  Scenario.entry_a <> entry_b.
Proof.
  vm_compute. repeat split; try reflexivity. discriminate.
Qed.

(** * Further properties of the code *)

(** ** The entries of the cache carry their own identifier *)

Lemma made_from_processed (E : Externals) (fid : string)
    (file_obj : UploadedFile) (cf : CachedFile) :
  made_from E fid file_obj cf -> processed E cf.
Proof. intros (d & _ & H). unfold processed. eauto. Qed.

Lemma entries_own_id_same (E : Externals) (s s' : OptimizedFileCache) :
  s'.(cache) = s.(cache) -> s'.(executor) = s.(executor) ->
  entries_own_id E s -> entries_own_id E s'.
Proof.
  unfold entries_own_id, future_at. intros -> ->. auto.
Qed.

Lemma entries_own_id_set_future_state (E : Externals) (h : nat)
    (st : FutureState) (s : OptimizedFileCache) :
  (forall fu cf, future_at h s = Some fu -> phase_entry st = Some cf ->
                 made_from E fu.(job_file_id) fu.(job_file_obj) cf) ->
  entries_own_id E s ->
  entries_own_id E (set_future_state h st s).
Proof.
  intros Hst [Hc Hf]. split; [exact Hc|].
  intros h' fu' cf Hf'. unfold future_at in Hf'. simpl in Hf'.
  rewrite nth_error_update_nth in Hf'.
  destruct (Nat.eqb h h') eqn:Hh; [|exact (Hf h' fu' cf Hf')].
  apply Nat.eqb_eq in Hh. subst h'.
  destruct (nth_error s.(executor).(futures) h) as [fu|] eqn:Hn;
    simpl in Hf'; [|discriminate].
  injection Hf' as <-. simpl. now apply Hst.
Qed.

Lemma entries_own_id_pop_entry (E : Externals) (s : OptimizedFileCache)
    (fid : string) (cf : CachedFile) :
  entries_own_id E s -> entries_own_id E (pop_entry fid cf s).
Proof.
  intros [Hc Hf]. split; [|exact Hf].
  intros k x Hx. simpl in Hx. apply dict_get_pop_Some in Hx. now apply Hc.
Qed.

Lemma step_entries_own_id (E : Externals) (ev : Event)
    (s : OptimizedFileCache) :
  entries_own_id E s -> entries_own_id E (step E ev s).
Proof.
  intros Hp. pose proof Hp as [Hc Hf].
  destruct ev as [fid f now|fid| | |h|h|h now|h]; simpl.
  - unfold get_or_create.
    destruct (dict_get fid s.(cache)) as [cf|]; [exact Hp|].
    destruct (dict_get fid s.(processing_queue)) as [h|].
    + destruct (future_at h s) as [fu|]; [|exact Hp].
      destruct (done fu); exact Hp.
    + split; [exact Hc|]. intros h' fu' cf Hf'.
      unfold future_at in Hf'. simpl in Hf'.
      destruct (Nat.lt_ge_cases h' (List.length s.(executor).(futures)))
        as [Hlt|Hge].
      * rewrite nth_error_app1 in Hf' by exact Hlt.
        exact (Hf h' fu' cf Hf').
      * rewrite nth_error_app2 in Hf' by exact Hge.
        destruct (h' - List.length s.(executor).(futures))%nat as [|[|n]];
          simpl in Hf'; try discriminate.
        injection Hf' as <-. discriminate.
  - rewrite remove_file_pop_entry.
    destruct (dict_get fid s.(cache));
      [now apply entries_own_id_pop_entry | exact Hp].
  - split; [intros k x Hx; discriminate Hx|].
    intros h fu' cf Hf'. unfold future_at, clear in Hf'. simpl in Hf'.
    rewrite cancel_all_nth in Hf'.
    destruct (in_dec Nat.eq_dec h (values s.(processing_queue)));
      [|exact (Hf h fu' cf Hf')].
    destruct (nth_error s.(executor).(futures) h) as [fu|] eqn:Hn;
      simpl in Hf'; [|discriminate].
    injection Hf' as <-. intros Hph.
    unfold cancel in *. destruct fu.(state) eqn:Hs; simpl in *;
      try discriminate; apply (Hf h fu cf Hn); rewrite Hs in *; exact Hph.
  - unfold worker_begin. destruct (_ <? _)%nat; [|exact Hp].
    destruct (first_pending _); [|exact Hp].
    apply entries_own_id_set_future_state; [discriminate | exact Hp].
  - unfold worker_lookup.
    destruct (future_at h s) as [fu|] eqn:Hfu; [|exact Hp].
    destruct fu.(state) as [|[| | |]| |]; try exact Hp.
    destruct (process_lookup E _ s) as [[existing|data fhash]|e] eqn:Hl.
    + apply entries_own_id_set_future_state; [discriminate | exact Hp].
    + apply process_lookup_miss in Hl. destruct Hl as (Hg & -> & _).
      destruct (process_content E _ _ data _) as [cf|e] eqn:Hpc;
        apply entries_own_id_set_future_state;
        try (now apply (entries_own_id_same E s));
        try discriminate.
      intros fu' cf' Hfu' [= <-].
      change (future_at h s = Some fu') in Hfu'.
      assert (fu' = fu) by congruence. subst fu'.
      exists data. split; [exact Hg | exact Hpc].
    + apply entries_own_id_set_future_state; [discriminate | exact Hp].
  - unfold worker_evict.
    destruct (future_at h s) as [fu|] eqn:Hfu; [|exact Hp].
    destruct fu.(state) as [|[|cf| |]| |] eqn:Hst; try exact Hp.
    apply entries_own_id_set_future_state.
    + intros fu' cf' Hfu' [= <-].
      rewrite future_at_evict_lru_if_needed in Hfu'.
      assert (fu' = fu) by congruence. subst fu'.
      apply (Hf h fu cf Hfu). now rewrite Hst.
    + apply evict_lru_if_needed_keeps; [|exact Hp].
      intros s0 k c H0 _. now apply entries_own_id_pop_entry.
  - unfold worker_insert.
    destruct (future_at h s) as [fu|] eqn:Hfu; [|exact Hp].
    destruct fu.(state) as [|[| |cf|]| |] eqn:Hst; try exact Hp.
    assert (Hcf : made_from E fu.(job_file_id) fu.(job_file_obj) cf)
      by (apply (Hf h fu cf Hfu); now rewrite Hst).
    apply entries_own_id_set_future_state.
    + intros fu' cf' Hfu' [= <-].
      change (future_at h s = Some fu') in Hfu'.
      assert (fu' = fu) by congruence. now subst fu'.
    + split; [|exact Hf].
      intros k x Hx. simpl in Hx.
      destruct (string_dec fu.(job_file_id) k) as [<-|Hne].
      * rewrite dict_get_set_eq in Hx. injection Hx as <-. eauto.
      * rewrite dict_get_set_ne in Hx by exact Hne. now apply Hc.
  - unfold worker_return.
    destruct (future_at h s) as [fu|]; [|exact Hp].
    destruct fu.(state) as [|[| | |cf]| |]; try exact Hp.
    apply entries_own_id_set_future_state; [discriminate | exact Hp].
Qed.

Lemma reachable_entries_own_id (E : Externals) (s : OptimizedFileCache) :
  reachable E s -> entries_own_id E s.
Proof.
  apply reachable_ind.
  - intros mb k. split; [intros fid cf H; discriminate H|].
    intros [|h] fu cf H; discriminate H.
  - intros ev s0. apply step_entries_own_id.
Qed.

(** ** The results of the finished jobs *)

Lemma results_final_same (E : Externals) (s s' : OptimizedFileCache) :
  s'.(executor) = s.(executor) -> results_final E s -> results_final E s'.
Proof. unfold results_final, future_at. intros ->. auto. Qed.

Lemma results_final_set_future_state (E : Externals) (h : nat)
    (st : FutureState) (s : OptimizedFileCache) :
  (forall fu r, future_at h s = Some fu -> st = FINISHED r ->
     processed E r \/
     exists e, r = error_entry fu.(job_file_id) fu.(job_file_obj) e) ->
  results_final E s ->
  results_final E (set_future_state h st s).
Proof.
  intros Hst Hf h' fu' r Hf'. unfold future_at in Hf'. simpl in Hf'.
  rewrite nth_error_update_nth in Hf'.
  destruct (Nat.eqb h h') eqn:Hh; [|exact (Hf h' fu' r Hf')].
  apply Nat.eqb_eq in Hh. subst h'.
  destruct (nth_error s.(executor).(futures) h) as [fu|] eqn:Hn;
    simpl in Hf'; [|discriminate].
  injection Hf' as <-. simpl. now apply Hst.
Qed.

Lemma step_results_final (E : Externals) (ev : Event)
    (s : OptimizedFileCache) :
  entries_processed E s -> results_final E s ->
  results_final E (step E ev s).
Proof.
  intros [Hc Hph] Hp.
  destruct ev as [fid f now|fid| | |h|h|h now|h]; simpl.
  - unfold get_or_create.
    destruct (dict_get fid s.(cache)) as [cf|]; [exact Hp|].
    destruct (dict_get fid s.(processing_queue)) as [h|].
    + destruct (future_at h s) as [fu|]; [|exact Hp].
      destruct (done fu); exact Hp.
    + intros h' fu' r Hf'.
      unfold future_at in Hf'. simpl in Hf'.
      destruct (Nat.lt_ge_cases h' (List.length s.(executor).(futures)))
        as [Hlt|Hge].
      * rewrite nth_error_app1 in Hf' by exact Hlt.
        exact (Hp h' fu' r Hf').
      * rewrite nth_error_app2 in Hf' by exact Hge.
        destruct (h' - List.length s.(executor).(futures))%nat as [|[|n]];
          simpl in Hf'; try discriminate.
        injection Hf' as <-. discriminate.
  - unfold remove_file. destruct (dict_get fid s.(cache)); exact Hp.
  - intros h fu' r Hf'. unfold future_at, clear in Hf'. simpl in Hf'.
    rewrite cancel_all_nth in Hf'.
    destruct (in_dec Nat.eq_dec h (values s.(processing_queue)));
      [|exact (Hp h fu' r Hf')].
    destruct (nth_error s.(executor).(futures) h) as [fu|] eqn:Hn;
      simpl in Hf'; [|discriminate].
    injection Hf' as <-. intros Hst.
    unfold cancel in *. destruct fu.(state) eqn:Hs; simpl in *;
      try discriminate; apply (Hp h fu r Hn); rewrite Hs in *; exact Hst.
  - unfold worker_begin. destruct (_ <? _)%nat; [|exact Hp].
    destruct (first_pending _); [|exact Hp].
    apply results_final_set_future_state; [discriminate | exact Hp].
  - unfold worker_lookup.
    destruct (future_at h s) as [fu|] eqn:Hfu; [|exact Hp].
    destruct fu.(state) as [|[| | |]| |]; try exact Hp.
    destruct (process_lookup E _ s) as [[existing|data fhash]|e] eqn:Hl.
    + apply results_final_set_future_state; [|exact Hp].
      intros fu' r _ [= <-]. left. apply Hc.
      now apply process_lookup_hit in Hl.
    + destruct (process_content E _ _ data _) as [cf|e] eqn:Hpc;
        apply results_final_set_future_state;
        try (now apply (results_final_same E s));
        try discriminate.
      intros fu' r Hfu' [= <-].
      change (future_at h s = Some fu') in Hfu'.
      assert (fu' = fu) by congruence. subst fu'. right. eauto.
    + apply results_final_set_future_state; [|exact Hp].
      intros fu' r Hfu' [= <-].
      assert (fu' = fu) by congruence. subst fu'. right. eauto.
  - unfold worker_evict.
    destruct (future_at h s) as [fu|] eqn:Hfu; [|exact Hp].
    destruct fu.(state) as [|[|cf| |]| |] eqn:Hst; try exact Hp.
    apply results_final_set_future_state; [discriminate|].
    destruct (evict_lru_if_needed_frame cf.(memory_usage) s)
      as (_ & Hex & _).
    now apply (results_final_same E s).
  - unfold worker_insert.
    destruct (future_at h s) as [fu|] eqn:Hfu; [|exact Hp].
    destruct fu.(state) as [|[| |cf|]| |] eqn:Hst; try exact Hp.
    apply results_final_set_future_state; [discriminate|].
    now apply (results_final_same E s).
  - unfold worker_return.
    destruct (future_at h s) as [fu|] eqn:Hfu; [|exact Hp].
    destruct fu.(state) as [|[| | |cf]| |] eqn:Hst; try exact Hp.
    apply results_final_set_future_state; [|exact Hp].
    intros fu' r _ [= <-]. left. apply (Hph h fu cf Hfu). now rewrite Hst.
Qed.

Lemma reachable_results_final (E : Externals) (s : OptimizedFileCache) :
  reachable E s -> results_final E s.
Proof.
  intros Hr.
  apply (reachable_ind E (fun s => entries_processed E s /\
                                   results_final E s)); [| |exact Hr].
  - intros mb k. split.
    + split; [intros y []|]. intros [|h] fu cf H; discriminate H.
    + intros [|h] fu r H; discriminate H.
  - intros ev s0 [H1 H2]. split;
      [now apply step_entries_processed | now apply step_results_final].
Qed.

(** ** What the cache holds and what [get_or_create] returns *)

Lemma a_ready_reachable : reachable Demo.ext Scenario.a_ready.
Proof.
  exists 1, 2%nat,
    ([GetOrCreate "a" Demo.png_a 1; WorkerBegin] ++ whole_job 0 2)%list.
  reflexivity.
Qed.

Lemma processed_payload (E : Externals) (cf : CachedFile) :
  processed E cf ->
  (cf.(content_type) = "image" /\
   exists img,
     get_for_ai_model cf = Ok (VImage img) /\
     cf.(memory_usage) = img.(width) * img.(height) * 3) \/
  (cf.(content_type) = "pdf" /\
   exists text,
     get_for_ai_model cf = Ok (VStr text) /\
     cf.(memory_usage) = len (encode text)).
Proof.
  intros Hp. pose proof (processed_ready E cf Hp) as Hr.
  destruct Hp as (fid & f & d & h & Hc).
  destruct (process_content_shape E _ _ _ _ _ Hc)
    as (_ & _ & _ & [[Hk (text & Hd & Ht & Hu)] | [Hk (img & _ & Hd & Hu)]]).
  - right. split; [exact Hk|]. exists text. split; [|exact Hu].
    unfold get_for_ai_model. rewrite Hr, Hk, Hd. simpl. now rewrite Ht.
  - left. split; [exact Hk|]. exists img. split; [|exact Hu].
    unfold get_for_ai_model. rewrite Hr, Hk, Hd. reflexivity.
Qed.

(** X1.  In every state that the cache reaches, under every interleaving
    of callers and workers, an identifier has an entry in [cache] exactly
    when it has a time in [access_times], and neither dict has a key
    twice: [access_times.pop(file_id)] in the eviction loop and in
    [remove_file] always finds its key, and no access time is left behind
    for an entry that is gone. *)
Theorem cache_and_access_times_agree (E : Externals)
    (s : OptimizedFileCache) (fid : string) :
  reachable E s ->
  NoDup (keys s.(cache)) /\ NoDup (keys s.(access_times)) /\
  (dict_get fid s.(cache) = None <-> dict_get fid s.(access_times) = None).
Proof.
  intros Hr. destruct (reachable_store_wf E s Hr) as (H1 & H2 & H3).
  split; [exact H1|]. split; [exact H2|].
  specialize (H3 fid). unfold dict_mem in H3.
  destruct (dict_get fid s.(cache)), (dict_get fid s.(access_times));
    split; intros H; congruence.
Qed.

Lemma cache_and_access_times_agree_witness :
  reachable Demo.ext Scenario.a_ready /\
  (dict_get "b" Scenario.a_ready.(cache) = None <->
   dict_get "b" Scenario.a_ready.(access_times) = None).
Proof.
  split; [exact a_ready_reachable|].
  exact (proj2 (proj2 (cache_and_access_times_agree Demo.ext
                         Scenario.a_ready "b" a_ready_reachable))).
Defined.

Lemma reachable_get_or_create_cases (E : Externals)
    (s : OptimizedFileCache) (fid : string) (file_obj : UploadedFile)
    (now : Z) :
  reachable E s ->
  exists cached_file,
    snd (get_or_create fid file_obj now s) = Ok cached_file /\
    (cached_file = placeholder fid file_obj.(name) \/
     processed E cached_file \/
     exists fid' file_obj' e, cached_file = error_entry fid' file_obj' e).
Proof.
  intros Hr.
  pose proof (reachable_handles_live E s Hr) as Hl.
  pose proof (reachable_results_final E s Hr) as Hres.
  pose proof (reachable_entries_processed E s Hr) as [Hc _].
  unfold get_or_create.
  destruct (dict_get fid s.(cache)) as [cf|] eqn:Hg.
  - exists cf. split; [reflexivity|]. right. left.
    apply Hc. now apply (dict_get_In_values fid).
  - destruct (dict_get fid s.(processing_queue)) as [h|] eqn:Hq.
    + destruct (Hl fid h Hq) as (fu & Hf & Hnc). rewrite Hf.
      unfold done, future_result.
      destruct fu.(state) as [|pc| |r] eqn:Hst; simpl.
      * eexists. split; [reflexivity|]. now left.
      * eexists. split; [reflexivity|]. now left.
      * congruence.
      * exists r. split; [reflexivity|]. right.
        destruct (Hres h fu r Hf Hst) as [Hp|(e & ->)]; [now left|].
        right. eauto.
    + simpl. eexists. split; [reflexivity|]. now left.
Qed.

(** X2.  In every state that the cache reaches, [get_or_create] does not
    raise, and what it returns is either the placeholder of the
    identifier, which is not ready, or a ready entry: the entry of a
    processed file or the error entry of a failed job.  So [is_ready]
    on the returned value tells a caller whether the job of the file is
    over. *)
Theorem get_or_create_returns_placeholder_or_ready (E : Externals)
    (s : OptimizedFileCache) (fid : string) (file_obj : UploadedFile)
    (now : Z) :
  reachable E s ->
  exists cached_file,
    snd (get_or_create fid file_obj now s) = Ok cached_file /\
    ((cached_file = placeholder fid file_obj.(name) /\
      is_ready cached_file = false) \/
     (is_ready cached_file = true /\
      (processed E cached_file \/
       exists fid' file_obj' e,
         cached_file = error_entry fid' file_obj' e))).
Proof.
  intros Hr.
  destruct (reachable_get_or_create_cases E s fid file_obj now Hr)
    as (cf & Hres & [->|[Hp|(fid' & f' & e & ->)]]);
    exists cf || eexists; (split; [exact Hres|]).
  - left. now split.
  - right. split; [now apply (processed_ready E) | now left].
  - right. split; [reflexivity|]. right. eauto.
Qed.

Lemma get_or_create_returns_placeholder_or_ready_witness :
  exists cached_file,
    snd (get_or_create "a" Demo.png_a 5 Scenario.a_ready)
      = Ok cached_file /\
    ((cached_file = placeholder "a" "a.png" /\
      is_ready cached_file = false) \/
     (is_ready cached_file = true /\
      (processed Demo.ext cached_file \/
       exists fid' file_obj' e,
         cached_file = error_entry fid' file_obj' e))).
Proof.
  exact (get_or_create_returns_placeholder_or_ready Demo.ext
           Scenario.a_ready "a" Demo.png_a 5 a_ready_reachable).
Defined.

Lemma step_entries_from_jobs (E : Externals) (ev : Event)
    (s : OptimizedFileCache) :
  entries_own_id E s -> entries_from_jobs E s ->
  entries_from_jobs E (step E ev s).
Proof.
  intros [_ Hph] Hj.
  assert (Hold : forall fid cf,
            dict_get fid s.(cache) = Some cf ->
            exists h fu,
              future_at h (step E ev s) = Some fu /\
              fu.(job_file_id) = fid /\
              made_from E fid fu.(job_file_obj) cf).
  { intros fid cf Hc. destruct (Hj fid cf Hc) as (h & fu & Hf & Hid & Hm).
    destruct (step_keeps_jobs E ev s h fu Hf) as (fu' & Hf' & Hid' & Ho').
    exists h, fu'. split; [exact Hf'|]. split; [congruence|].
    now rewrite Ho'. }
  intros fid cf Hc.
  destruct ev as [fid' f now|fid'| | |h'|h'|h' now|h'].
  - apply Hold.
    destruct (get_or_create_store fid' f now s) as (Hcs & _).
    simpl in Hc. now rewrite Hcs in Hc.
  - apply Hold. simpl in Hc. unfold remove_file in Hc.
    destruct (dict_get fid' s.(cache)); [|exact Hc].
    simpl in Hc. now apply dict_get_pop_Some in Hc.
  - discriminate Hc.
  - apply Hold. destruct (worker_begin_store s) as (Hcs & _).
    simpl in Hc. now rewrite Hcs in Hc.
  - apply Hold. destruct (worker_lookup_store E h' s) as (Hcs & _).
    simpl in Hc. now rewrite Hcs in Hc.
  - apply Hold. simpl in Hc. unfold worker_evict in Hc.
    destruct (future_at h' s) as [fu'|]; [|exact Hc].
    destruct fu'.(state) as [|[|cf'| |]| |]; try exact Hc.
    simpl in Hc. now apply evict_only_removes in Hc.
  - revert Hc Hold. simpl. unfold worker_insert.
    destruct (future_at h' s) as [fu'|] eqn:Hf'; [|now auto].
    destruct fu'.(state) as [|[| |cf'|]| |] eqn:Hst'; try (now auto).
    simpl. intros Hc Hold.
    destruct (string_dec fu'.(job_file_id) fid) as [Heq|Hne].
    + rewrite Heq, dict_get_set_eq in Hc. injection Hc as <-.
      exists h', (with_state (RUNNING (Inserted cf')) fu').
      split; [now apply future_at_set_future_state_eq|].
      split; [exact Heq|]. simpl. rewrite <- Heq.
      apply (Hph h' fu' cf' Hf'). now rewrite Hst'.
    + rewrite dict_get_set_ne in Hc by exact Hne. now apply Hold.
  - apply Hold. destruct (worker_return_store h' s) as (Hcs & _).
    simpl in Hc. now rewrite Hcs in Hc.
Qed.

Lemma reachable_entries_from_jobs (E : Externals)
    (s : OptimizedFileCache) :
  reachable E s -> entries_from_jobs E s.
Proof.
  intros Hr.
  apply (reachable_ind E (fun s => entries_own_id E s /\
                                   entries_from_jobs E s)); [| |exact Hr].
  - intros mb k. split.
    + split; [intros fid cf H; discriminate H|].
      intros [|h] fu cf H; discriminate H.
    + intros fid cf H. discriminate H.
  - intros ev s0 [H1 H2]. split;
      [now apply step_entries_own_id | now apply step_entries_from_jobs].
Qed.

(** X3.  In every state that the cache reaches, the entry stored under an
    identifier was made by a job of the executor for that same
    identifier, by processing the bytes of the file that was uploaded
    with the job: it is what [process_content] gives for that
    identifier, that file, its bytes and their fingerprint.  So it
    carries the identifier, the name of that file and the fingerprint of
    its bytes, it is ready, and it is an image entry whose cost is
    width * height * 3 of the image that [get_for_ai_model] gives, or a
    pdf entry whose cost is the number of bytes of the text that
    [get_for_ai_model] gives.  The cache never holds a placeholder or an
    error entry. *)
Theorem cached_entry_is_processed_file (E : Externals)
    (s : OptimizedFileCache) (fid : string) (cf : CachedFile) :
  reachable E s ->
  dict_get fid s.(cache) = Some cf ->
  exists h fu file_data,
    future_at h s = Some fu /\
    fu.(job_file_id) = fid /\
    fu.(job_file_obj).(getvalue) = Ok file_data /\
    process_content E fid fu.(job_file_obj) file_data
      (get_file_hash E file_data) = Ok cf /\
    cf.(file_id) = fid /\
    cf.(filename) = fu.(job_file_obj).(name) /\
    cf.(file_hash) = get_file_hash E file_data /\
    cf.(is_placeholder) = false /\
    is_ready cf = true /\
    ((cf.(content_type) = "image" /\
      exists img,
        get_for_ai_model cf = Ok (VImage img) /\
        cf.(memory_usage) = img.(width) * img.(height) * 3) \/
     (cf.(content_type) = "pdf" /\
      exists text,
        get_for_ai_model cf = Ok (VStr text) /\
        cf.(memory_usage) = len (encode text))).
Proof.
  intros Hr Hg.
  destruct (reachable_entries_from_jobs E s Hr fid cf Hg)
    as (h & fu & Hf & Hid & Hm).
  pose proof (made_from_processed E fid _ cf Hm) as Hp.
  destruct Hm as (d & Hd & Hpc).
  destruct (process_content_shape E _ _ _ _ _ Hpc) as (Hph & Hfid & Hh & _).
  exists h, fu, d.
  split; [exact Hf|]. split; [exact Hid|]. split; [exact Hd|].
  split; [exact Hpc|]. split; [exact Hfid|].
  split.
  { unfold process_content in Hpc.
    destruct (if String.eqb fu.(job_file_obj).(type) "application/pdf"
              then "pdf" else "image")%string eqn:Hk; simpl in Hpc.
    all: match type of Hpc with
         | bind ?a _ = _ => destruct a; simpl in Hpc; [|discriminate]
         end.
    all: match type of Hpc with
         | bind ?a _ = _ => destruct a; simpl in Hpc; [|discriminate]
         end.
    all: injection Hpc as <-; reflexivity. }
  split; [exact Hh|]. split; [exact Hph|].
  split; [now apply (processed_ready E) | now apply (processed_payload E)].
Qed.

Lemma cached_entry_is_processed_file_witness :
  exists h fu file_data,
    future_at h Scenario.a_ready = Some fu /\
    fu.(job_file_id) = "a"%string /\
    fu.(job_file_obj).(getvalue) = Ok file_data /\
    process_content Demo.ext "a" fu.(job_file_obj) file_data
      (get_file_hash Demo.ext file_data) = Ok Scenario.entry_a.
Proof.
  destruct (cached_entry_is_processed_file Demo.ext Scenario.a_ready "a"
              Scenario.entry_a a_ready_reachable eq_refl)
    as (h & fu & d & H1 & H2 & H3 & H4 & _).
  exists h, fu, d. auto.
Defined.

(** ** Jobs that are over, and jobs that [clear] cancels *)

(** X5.  [clear] cancels every job that has not started, for good: if a
    job is still waiting for a worker when [clear] is called, then
    whatever callers and workers do afterwards the job stays cancelled;
    no worker ever takes it, and it never reads, processes or inserts
    anything. *)
Theorem clear_cancels_unstarted_jobs (E : Externals)
    (s : OptimizedFileCache) (h : nat) (fu : Future) (evs : list Event) :
  reachable E s ->
  future_at h s = Some fu ->
  fu.(state) = PENDING ->
  future_at h (run E evs (clear s)) = Some (with_state CANCELLED fu).
Proof.
  intros Hr Hf Hst.
  apply done_future_stays_run; [|reflexivity].
  apply clear_cancels_recorded; [exact Hf | exact Hst |].
  apply (dict_get_In_values fu.(job_file_id)).
  now apply (reachable_pending_recorded E s Hr).
Qed.

Lemma clear_cancels_unstarted_jobs_witness :
  let s := fst (get_or_create "a" Demo.png_a 1 Scenario.fresh) in
  future_at 0 (run Demo.ext (WorkerBegin :: whole_job 0 2) (clear s))
    = Some {| job_file_id := "a"; job_file_obj := Demo.png_a;
              state := CANCELLED |}.
Proof.
  apply (clear_cancels_unstarted_jobs Demo.ext
           (fst (get_or_create "a" Demo.png_a 1 Scenario.fresh)) 0
           {| job_file_id := "a"; job_file_obj := Demo.png_a;
              state := PENDING |}
           (WorkerBegin :: whole_job 0 2)).
  - exists 1, 2%nat, [GetOrCreate "a" Demo.png_a 1]. reflexivity.
  - reflexivity.
  - reflexivity.
Defined.

(** ** An entry that was just used is the last to go *)

Lemma dict_get_In {V : Type} (k : string) (v : V) (d : dict V) :
  dict_get k d = Some v -> In (k, v) d.
Proof.
  induction d as [|[k' v'] r IH]; simpl; [discriminate|].
  destruct (String.eqb k k') eqn:Hk.
  - apply String.eqb_eq in Hk. intros [= ->]. left. now subst.
  - intros H. right. now apply IH.
Qed.

Lemma In_keys {V : Type} (k : string) (v : V) (d : dict V) :
  In (k, v) d -> In k (keys d).
Proof. intros H. apply (in_map fst) in H. exact H. Qed.

(** In a list sorted by time, a prefix that has a key has every key with
    an earlier time. *)
Lemma firstn_sorted_closed (l : list (string * Z)) (n : nat)
    (k1 k2 : string) (t1 t2 : Z) :
  NoDup (keys l) -> StronglySorted by_time l ->
  In (k1, t1) l -> In (k2, t2) l -> t1 < t2 ->
  In k2 (firstn n (keys l)) -> In k1 (firstn n (keys l)).
Proof.
  revert n. induction l as [|[k t] r IH]; intros n Hnd Hs H1 H2 Hlt Hin;
    [destruct H1|].
  destruct n as [|n]; [destruct Hin|].
  simpl in *. inversion Hnd as [|? ? Hnk Hnr]; subst.
  inversion Hs as [|? ? Hsr Hall]; subst.
  destruct H1 as [[= -> ->]|H1]; [now left|]. right.
  destruct H2 as [[= -> ->]|H2].
  - rewrite Forall_forall in Hall. specialize (Hall _ H1).
    unfold by_time in Hall. simpl in Hall. lia.
  - destruct Hin as [->|Hin].
    + exfalso. apply Hnk. now apply (In_keys k2 t2).
    + now apply (IH n).
Qed.

Lemma three_cached_reachable : reachable Demo.ext Scenario.three_cached.
Proof.
  exists 4, 2%nat,
    ([GetOrCreate "A" Demo.png_a 0; WorkerBegin] ++ whole_job 0 1 ++
     [GetOrCreate "B" Demo.png_c 0; WorkerBegin] ++ whole_job 1 2 ++
     [GetOrCreate "C" Demo.png_e 0; WorkerBegin] ++ whole_job 2 3)%list.
  reflexivity.
Qed.

(** X6.  A hit of [get_or_create] returns the cached entry and makes it
    the most recently used one: when the time of the call is later than
    the access time of every other entry, an eviction that follows takes
    every other entry before it takes this one, so the entry is still in
    the cache afterwards unless the eviction emptied the cache. *)
Theorem touched_entry_is_evicted_last (E : Externals)
    (s : OptimizedFileCache) (fid : string) (file_obj : UploadedFile)
    (now needed : Z) (cf : CachedFile) :
  reachable E s ->
  dict_get fid s.(cache) = Some cf ->
  (forall k t, k <> fid -> dict_get k s.(access_times) = Some t -> t < now) ->
  let s1 := fst (get_or_create fid file_obj now s) in
  let s2 := evict_lru_if_needed needed s1 in
  snd (get_or_create fid file_obj now s) = Ok cf /\
  dict_get fid s1.(access_times) = Some now /\
  (dict_get fid s2.(cache) = Some cf \/ s2.(cache) = []).
Proof.
  intros Hr Hg Hlate s1 s2.
  pose proof (reachable_store_wf E s Hr) as Hwf.
  pose proof (get_or_create_store_wf fid file_obj now s Hwf) as Hwf1.
  fold s1 in Hwf1.
  assert (Hs1 : s1 = set_access_times (dict_set fid now s.(access_times)) s).
  { unfold s1, get_or_create. now rewrite Hg. }
  assert (Ht : dict_get fid s1.(access_times) = Some now).
  { rewrite Hs1. simpl. apply dict_get_set_eq. }
  assert (Hc1 : s1.(cache) = s.(cache)) by (now rewrite Hs1).
  split; [unfold get_or_create; now rewrite Hg|].
  split; [exact Ht|].
  destruct Hwf1 as (Hnc & Hna & Hka).
  destruct (evict_lru_if_needed_prefix needed s1 Hna Hka)
    as (n & _ & Hcache & _).
  fold s2 in Hcache.
  set (order := sorted_by_value s1.(access_times)) in *.
  set (victims := firstn n (keys order)) in *.
  destruct (in_dec string_dec fid victims) as [Hin|Hout].
  - right. rewrite Hcache. apply pop_all_notin. intros k Hk.
    destruct (string_dec k fid) as [->|Hne]; [exact Hin|].
    apply dict_mem_In in Hk. rewrite Hka in Hk. unfold dict_mem in Hk.
    destruct (dict_get k s1.(access_times)) as [t|] eqn:Hkt;
      [|discriminate].
    assert (Hlt : t < now).
    { apply (Hlate k t Hne). rewrite Hs1 in Hkt. simpl in Hkt.
      rewrite dict_get_set_ne in Hkt; [exact Hkt|]. congruence. }
    apply (firstn_sorted_closed order n k fid t now); try assumption.
    + apply (Permutation_NoDup (l := keys s1.(access_times)));
        [|exact Hna].
      symmetry. apply sorted_by_value_keys.
    + apply sorted_by_value_sorted.
    + apply (Permutation_in (l := s1.(access_times)));
        [symmetry; apply sorted_by_value_perm | now apply dict_get_In].
    + apply (Permutation_in (l := s1.(access_times)));
        [symmetry; apply sorted_by_value_perm | now apply dict_get_In].
  - left. rewrite Hcache, dict_get_pop_all.
    destruct (in_dec string_dec fid victims); [contradiction|].
    now rewrite Hc1.
Qed.

Lemma touched_entry_is_evicted_last_witness :
  let s1 := fst (get_or_create "A" Demo.png_a 4 Scenario.three_cached) in
  let s2 := evict_lru_if_needed 3145728 s1 in
  dict_mem "A" s2.(cache) = true \/ s2.(cache) = [].
Proof.
  assert (Hlate : forall k t, k <> "A"%string ->
            dict_get k Scenario.three_cached.(access_times) = Some t ->
            t < 4).
  { intros k t Hne. simpl.
    destruct (String.eqb k "A") eqn:HA;
      [apply String.eqb_eq in HA; contradiction|].
    destruct (String.eqb k "B"); [intros [= <-]; lia|].
    destruct (String.eqb k "C"); [intros [= <-]; lia|].
    discriminate. }
  destruct (touched_entry_is_evicted_last Demo.ext Scenario.three_cached
              "A" Demo.png_a 4 3145728 _ three_cached_reachable eq_refl
              Hlate) as (_ & _ & [H|H]).
  - left. unfold dict_mem. now rewrite H.
  - right. exact H.
Defined.

(** ** The text of a PDF *)

Lemma get_texts_map_Ok (texts : list string) :
  get_texts (map Ok texts) = Ok texts.
Proof.
  induction texts as [|t r IH]; simpl; [reflexivity|]. now rewrite IH.
Qed.

(** X8.  [extract_pdf_text] reads at most [max_pages] pages: when the
    first pages of the document give their texts and the document has no
    more than [max_pages] pages, or these are its first [max_pages]
    pages, the result is these texts joined by blank lines, with no
    error flag, whatever the later pages hold (even pages whose text
    cannot be read); a [max_pages] of zero or less gives the empty text.
    A job processes a PDF with a limit of ten pages, and the cost of the
    entry is the number of bytes of that text. *)
Theorem pdf_text_is_first_pages (E : Externals) (file_data : bytes)
    (max_pages : Z) (texts : list string) (rest : list (result string)) :
  E.(fitz_open) file_data = Ok (map Ok texts ++ rest)%list ->
  (rest = [] /\ len texts <= max_pages) \/ len texts = Z.max 0 max_pages ->
  let text := String.concat (LF ++ LF) texts in
  extract_pdf_text E file_data max_pages = [("text_content", VStr text)] /\
  (max_pages = 10 ->
   forall fid file_obj fhash,
     file_obj.(type) = "application/pdf"%string ->
     process_content E fid file_obj file_data fhash
       = Ok (new_CachedFile fid file_obj.(name) "pdf"
               (VDict [("text_content", VStr text)])
               (len (encode text)) fhash)).
Proof.
  intros Hopen Hcap text.
  assert (Hx : extract_pdf_text E file_data max_pages
               = [("text_content", VStr text)]).
  { unfold extract_pdf_text, read_pdf_pages. rewrite Hopen. simpl.
    assert (Hn : Z.to_nat (Z.min max_pages (len (map Ok texts ++ rest)%list))
                 = List.length (map (@Ok string) texts)).
    { unfold len in *. rewrite length_app, !length_map.
      destruct Hcap as [[-> Hle]|Heq]; simpl; lia. }
    rewrite Hn, firstn_app, Nat.sub_diag, firstn_all. simpl.
    rewrite app_nil_r, get_texts_map_Ok. reflexivity. }
  split; [exact Hx|].
  intros -> fid file_obj fhash Hty.
  unfold process_content. rewrite Hty. simpl. rewrite Hx. reflexivity.
Qed.

Lemma pdf_text_is_first_pages_witness :
  extract_pdf_text Demo.ext (list_byte_of_string "%PDF") 10
    = [("text_content", VStr "%PDF")].
Proof.
  apply (pdf_text_is_first_pages Demo.ext (list_byte_of_string "%PDF") 10
           ["%PDF"%string] []).
  - reflexivity.
  - left. split; [reflexivity|]. vm_compute. discriminate.
Defined.

(** ** From the upload of a file to its entry *)

Lemma find_values_pop_None {V : Type} (p : V -> bool) (k : string)
    (d : dict V) :
  find p (values d) = None -> find p (values (dict_pop k d)) = None.
Proof.
  intros Hn. destruct (find p (values (dict_pop k d))) as [x|] eqn:Hf;
    [|reflexivity].
  apply find_some in Hf. destruct Hf as [Hin Hp].
  apply In_values_pop in Hin.
  pose proof (find_none _ _ Hn x Hin) as Hx. congruence.
Qed.

Lemma find_app_last {A : Type} (p : A -> bool) (l : list A) (x : A) :
  find p l = None -> p x = true -> find p (l ++ [x]) = Some x.
Proof.
  intros Hn Hp. induction l as [|y r IH]; simpl in *; [now rewrite Hp|].
  destruct (p y); [discriminate | now apply IH].
Qed.

(** X9.  The way of a file through the cache.  For an identifier that
    the cache does not know, with a free worker, no other job waiting, no
    cached entry with the fingerprint of the file, and a file that the
    processor accepts: [get_or_create] returns a placeholder; once the
    job has run, the processed entry is in the cache under the
    identifier, with the time of its insertion; the processor has run
    once; a lookup by the fingerprint finds this entry; and the next
    [get_or_create] returns the entry, which is ready. *)
Theorem upload_job_poll_round_trip (E : Externals)
    (s : OptimizedFileCache) (fid : string) (file_obj : UploadedFile)
    (now1 now2 now3 : Z) (file_data : bytes) (cf : CachedFile) :
  dict_get fid s.(cache) = None ->
  dict_get fid s.(processing_queue) = None ->
  first_pending s.(executor).(futures) = None ->
  (running_count s < s.(executor).(max_workers))%nat ->
  file_obj.(getvalue) = Ok file_data ->
  find_by_hash s (get_file_hash E file_data) = None ->
  process_content E fid file_obj file_data (get_file_hash E file_data)
    = Ok cf ->
  let h := List.length s.(executor).(futures) in
  let s' := run E (GetOrCreate fid file_obj now1 :: WorkerBegin
                   :: whole_job h now2) s in
  snd (get_or_create fid file_obj now1 s)
    = Ok (placeholder fid file_obj.(name)) /\
  dict_get fid s'.(cache) = Some cf /\
  dict_get fid s'.(access_times) = Some now2 /\
  s'.(processor_calls) = S s.(processor_calls) /\
  find_by_hash s' (get_file_hash E file_data) = Some cf /\
  is_ready cf = true /\
  snd (get_or_create fid file_obj now3 s') = Ok cf.
Proof.
  intros Hc Hq Hnp Hfree Hget Hmiss Hpc h s'.
  set (fu0 := {| job_file_id := fid; job_file_obj := file_obj;
                 state := PENDING |}).
  set (s1 := fst (get_or_create fid file_obj now1 s)).
  assert (Hs1 : s1 = set_processing_queue
                       (dict_set fid h s.(processing_queue))
                       (set_executor
                          {| max_workers := s.(executor).(max_workers);
                             futures := s.(executor).(futures) ++ [fu0] |}
                          s)).
  { unfold s1, get_or_create. rewrite Hc, Hq. reflexivity. }
  assert (Hf1 : future_at h s1 = Some fu0).
  { rewrite Hs1. unfold future_at. simpl.
    rewrite nth_error_app2 by (unfold h; lia).
    unfold h. now rewrite Nat.sub_diag. }
  set (s2 := worker_begin s1).
  assert (Hs2 : s2 = set_future_state h (RUNNING AtStart) s1).
  { unfold s2, worker_begin.
    assert (Hrc : running_count s1 = running_count s).
    { rewrite Hs1. unfold running_count. simpl.
      rewrite filter_app, length_app. simpl. lia. }
    rewrite Hrc.
    replace s1.(executor).(max_workers) with s.(executor).(max_workers)
      by (now rewrite Hs1).
    apply Nat.ltb_lt in Hfree. rewrite Hfree.
    replace (first_pending s1.(executor).(futures)) with (Some h);
      [reflexivity|].
    rewrite Hs1. simpl. symmetry. now apply first_pending_app_new. }
  pose proof (future_at_set_future_state_eq h (RUNNING AtStart) s1 fu0 Hf1)
    as Hf2.
  rewrite <- Hs2 in Hf2.
  set (s3 := worker_lookup E h s2).
  assert (Hs3 : s3 = set_future_state h (RUNNING (Processed cf))
                       (count_processor_call s2)).
  { unfold s3, worker_lookup. rewrite Hf2. simpl.
    unfold process_lookup. rewrite Hget. simpl.
    replace (find_by_hash s2 (get_file_hash E file_data))
      with (@None CachedFile)
      by (rewrite <- Hmiss, Hs2, Hs1; reflexivity).
    now rewrite Hpc. }
  assert (Hf3 : future_at h s3
                = Some (with_state (RUNNING (Processed cf))
                          (with_state (RUNNING AtStart) fu0))).
  { rewrite Hs3.
    now apply (future_at_set_future_state_eq h _ (count_processor_call s2)). }
  set (se := evict_lru_if_needed cf.(memory_usage) s3).
  pose proof (worker_evict_spec h s3 _ cf Hf3 eq_refl) as Hs4.
  fold se in Hs4. set (s4 := worker_evict h s3) in *.
  assert (Hf4 : future_at h s4
                = Some (with_state (RUNNING (Evicted cf))
                          (with_state (RUNNING (Processed cf))
                             (with_state (RUNNING AtStart) fu0)))).
  { rewrite Hs4. apply future_at_set_future_state_eq.
    unfold se. now rewrite future_at_evict_lru_if_needed. }
  pose proof (worker_insert_spec h now2 s4 _ cf Hf4 eq_refl) as Hs5.
  simpl job_file_id in Hs5. set (s5 := worker_insert h now2 s4) in *.
  assert (Hf5 : future_at h s5
                = Some (with_state (RUNNING (Inserted cf))
                          (with_state (RUNNING (Evicted cf))
                             (with_state (RUNNING (Processed cf))
                                (with_state (RUNNING AtStart) fu0))))).
  { rewrite Hs5. now apply future_at_set_future_state_eq. }
  pose proof (worker_return_spec h s5 _ cf Hf5 eq_refl) as Hs6.
  assert (Hs' : s' = worker_return h s5) by reflexivity.
  rewrite Hs6 in Hs'.
  assert (Hcache : s'.(cache) = dict_set fid cf se.(cache)).
  { rewrite Hs', Hs5, Hs4. reflexivity. }
  assert (Htimes : s'.(access_times) = dict_set fid now2 se.(access_times)).
  { rewrite Hs', Hs5, Hs4. reflexivity. }
  assert (Hget' : dict_get fid s'.(cache) = Some cf).
  { rewrite Hcache. apply dict_get_set_eq. }
  assert (Hc3 : s3.(cache) = s.(cache)).
  { rewrite Hs3, Hs2, Hs1. reflexivity. }
  destruct (process_content_shape E _ _ _ _ _ Hpc) as (_ & _ & Hh & _).
  split; [unfold get_or_create; rewrite Hc, Hq; reflexivity|].
  split; [exact Hget'|].
  split; [rewrite Htimes; apply dict_get_set_eq|].
  split.
  { rewrite Hs', Hs5, Hs4. simpl.
    destruct (evict_lru_if_needed_frame cf.(memory_usage) s3)
      as (_ & _ & _ & Hpcs).
    fold se in Hpcs. rewrite Hpcs, Hs3, Hs2, Hs1. reflexivity. }
  split.
  { unfold find_by_hash. rewrite Hcache.
    assert (Habs : dict_get fid se.(cache) = None).
    { apply absent_after_evict. now rewrite Hc3. }
    rewrite (dict_set_absent _ _ _ Habs). unfold values.
    rewrite map_app. simpl. apply find_app_last.
    - apply (evict_lru_if_needed_keeps
               (fun s0 => find (fun f => String.eqb f.(file_hash)
                                           (get_file_hash E file_data))
                               (values s0.(cache)) = None)).
      + intros s0 k c H0 _. simpl. now apply find_values_pop_None.
      + rewrite Hc3. exact Hmiss.
    - rewrite Hh. apply String.eqb_refl. }
  split.
  { apply (processed_ready E). unfold processed. eauto. }
  unfold get_or_create. now rewrite Hget'.
Qed.

Lemma upload_job_poll_round_trip_witness :
  let s' := run Demo.ext (GetOrCreate "a" Demo.png_a 1 :: WorkerBegin
                          :: whole_job 0 2) Scenario.fresh in
  dict_get "a" s'.(cache) = Some Scenario.entry_a /\
  snd (get_or_create "a" Demo.png_a 3 s') = Ok Scenario.entry_a.
Proof.
  assert (Hfree : (running_count Scenario.fresh
                   < Scenario.fresh.(executor).(max_workers))%nat).
  { apply Nat.ltb_lt. reflexivity. }
  destruct (upload_job_poll_round_trip Demo.ext Scenario.fresh "a"
              Demo.png_a 1 2 3 (list_byte_of_string "PNG-one")
              Scenario.entry_a eq_refl eq_refl eq_refl Hfree eq_refl
              eq_refl eq_refl)
    as (_ & H2 & _ & _ & _ & _ & H7).
  split; [exact H2 | exact H7].
Defined.

(** ** The content of a prompt *)

Lemma collect_ai_content_spec (E : Externals) (clock : nat -> Z)
    (uploaded_files : list SessionFile) :
  forall (i : nat) (s : OptimizedFileCache),
    reachable E s ->
    exists content,
      snd (collect_ai_content clock i uploaded_files s) = Ok content /\
      Forall is_payload content /\
      (List.length content <= List.length uploaded_files)%nat /\
      (fst (collect_ai_content clock i uploaded_files s)).(cache)
        = s.(cache) /\
      (fst (collect_ai_content clock i uploaded_files s))
        .(current_memory_usage) = s.(current_memory_usage) /\
      reachable E (fst (collect_ai_content clock i uploaded_files s)).
Proof.
  induction uploaded_files as [|f r IH]; intros i s Hr; simpl.
  - exists []. repeat split; auto.
  - destruct (reachable_get_or_create_cases E s f.(upload_id) f.(file)
                (clock i) Hr) as (cf & Hres & Hcases).
    pose proof (reachable_step E
                  (GetOrCreate f.(upload_id) f.(file) (clock i)) s Hr)
      as Hr1.
    destruct (get_or_create_store f.(upload_id) f.(file) (clock i) s)
      as (Hc1 & Hu1 & _).
    simpl in Hr1.
    destruct (get_or_create f.(upload_id) f.(file) (clock i) s)
      as [s1 res].
    simpl in Hres, Hr1, Hc1, Hu1. subst res.
    destruct (IH (S i) s1 Hr1) as (tail & Ht & Hall & Hlen & Hc & Hu & Hr2).
    assert (Hskip :
      exists content,
        snd (collect_ai_content clock (S i) r s1) = Ok content /\
        Forall is_payload content /\
        (List.length content <= S (List.length r))%nat /\
        (fst (collect_ai_content clock (S i) r s1)).(cache) = s.(cache) /\
        (fst (collect_ai_content clock (S i) r s1)).(current_memory_usage)
          = s.(current_memory_usage) /\
        reachable E (fst (collect_ai_content clock (S i) r s1))).
    { exists tail. repeat split; auto; try lia; congruence. }
    destruct Hcases as [->|[Hp|(fid' & f' & e & ->)]].
    + exact Hskip.
    + rewrite (processed_ready E cf Hp).
      destruct (processed_payload E cf Hp)
        as [[_ (img & -> & _)]|[_ (text & -> & _)]].
      * destruct (collect_ai_content clock (S i) r s1) as [s2 rest].
        simpl in *. subst rest. simpl.
        exists (VImage img :: tail).
        repeat split; auto; try (simpl; lia); try congruence.
        constructor; [left; eauto | exact Hall].
      * destruct (collect_ai_content clock (S i) r s1) as [s2 rest].
        simpl in *. subst rest. simpl.
        destruct (String.eqb text "") eqn:Hempty; simpl.
        -- exists tail. repeat split; auto; try lia; congruence.
        -- exists (VStr text :: tail).
           repeat split; auto; try (simpl; lia); try congruence.
           constructor; [|exact Hall]. right. exists text.
           split; [reflexivity|]. now apply String.eqb_neq.
    + simpl.
      destruct (collect_ai_content clock (S i) r s1) as [s2 rest].
      simpl in *. subst rest. simpl.
      exists tail. repeat split; auto; try lia; congruence.
Qed.

(** X10.  Putting the content of a prompt together does not raise in any
    state that the cache reaches, and it leaves the entries of the cache
    and the memory usage as they are.  A blank prompt gives nothing and
    does not touch the cache.  Otherwise the content starts with the
    anonymized prompt, and what follows are images and texts that are
    not empty, at most one for each uploaded file: no placeholder, no
    error entry, no [None] and no empty text is sent to the model. *)
Theorem prompt_content_is_ready_payloads (E : Externals)
    (strip : string -> string) (re_sub : string -> string -> string -> string)
    (user_prompt : string) (clock : nat -> Z)
    (uploaded_files : list SessionFile) (s : OptimizedFileCache) :
  reachable E s ->
  let out :=
    model_content_of strip re_sub user_prompt clock uploaded_files s in
  (fst out).(cache) = s.(cache) /\
  (fst out).(current_memory_usage) = s.(current_memory_usage) /\
  reachable E (fst out) /\
  ((strip user_prompt = ""%string /\ out = (s, Ok None)) \/
   (strip user_prompt <> ""%string /\
    exists content,
      snd out
        = Ok (Some (VStr (anonymize_data re_sub user_prompt) :: content)) /\
      Forall is_payload content /\
      (List.length content <= List.length uploaded_files)%nat)).
Proof.
  intros Hr out. unfold out, model_content_of.
  destruct (String.eqb (strip user_prompt) "") eqn:Hb.
  - apply String.eqb_eq in Hb. simpl. repeat split; auto.
  - apply String.eqb_neq in Hb.
    destruct (collect_ai_content_spec E clock uploaded_files 0%nat s Hr)
      as (content & Hres & Hall & Hlen & Hc & Hu & Hr').
    destruct (collect_ai_content clock 0 uploaded_files s) as [s1 rest].
    simpl in *. subst rest.
    split; [exact Hc|]. split; [exact Hu|]. split; [exact Hr'|].
    right. split; [exact Hb|]. exists content. simpl. auto.
Qed.

Lemma prompt_content_is_ready_payloads_witness :
  exists content,
    snd (model_content_of (fun p => p) (fun _ _ text => text) "hi"
           (fun _ => 5)
           [{| upload_id := "a"; size := 7; file := Demo.png_a |}]
           Scenario.a_ready)
      = Ok (Some (VStr "hi" :: content)) /\
    (List.length content <= 1)%nat.
Proof.
  destruct (prompt_content_is_ready_payloads Demo.ext (fun p => p)
              (fun _ _ text => text) "hi" (fun _ => 5)
              [{| upload_id := "a"; size := 7; file := Demo.png_a |}]
              Scenario.a_ready a_ready_reachable)
    as (_ & _ & _ & [[Hb _]|[_ (content & Hres & _ & Hlen)]]).
  - discriminate Hb.
  - exists content. split; [exact Hres | exact Hlen].
Defined.

(** ** The files that the file manager accepts *)

Lemma check_sizes_accepts (l : list SessionFile) (f : SessionFile) :
  In f (snd (check_sizes l)) ->
  In f l /\
  (String.prefix "image/" f.(file).(type) = true ->
   f.(size) <= MAX_IMAGE_SIZE_MB * 1024 * 1024) /\
  (f.(file).(type) = "application/pdf"%string ->
   f.(size) <= PDF_MAX_SIZE_MB * 1024 * 1024).
Proof.
  unfold MAX_IMAGE_SIZE_MB, PDF_MAX_SIZE_MB.
  induction l as [|g r IH]; simpl; [intros []|].
  destruct (check_sizes r) as [errs ok]. simpl in IH.
  destruct (String.prefix _ _ && _) eqn:H1.
  { simpl. intros H. destruct (IH H) as (Ha & Hb). auto. }
  destruct (String.eqb _ _ && _) eqn:H2.
  { simpl. intros H. destruct (IH H) as (Ha & Hb). auto. }
  simpl. intros [<-|H]; [|destruct (IH H) as (Ha & Hb); auto].
  split; [now left|]. split.
  - intros Hp. rewrite Hp in H1. simpl in H1. lia.
  - intros Heq. rewrite Heq in H2. simpl in H2. lia.
Qed.

(** Each file is accepted or reported. *)
Lemma check_sizes_total (l : list SessionFile) (f : SessionFile) :
  In f l -> In f (snd (check_sizes l)) \/ fst (check_sizes l) <> [].
Proof.
  induction l as [|g r IH]; simpl; [intros []|].
  destruct (check_sizes r) as [errs ok]. simpl in IH.
  intros Hin.
  destruct (String.prefix _ _ && _); [right; discriminate|].
  destruct (String.eqb _ _ && _); [right; discriminate|].
  simpl. destruct Hin as [->|Hin]; [left; now left|].
  destruct (IH Hin) as [H|H]; [left; now right | now right].
Qed.

Lemma py_slice_to_nonneg {A : Type} (n : Z) (l : list A) :
  0 <= n ->
  py_slice_to n l = firstn (Z.to_nat n) l.
Proof.
  intros Hn. unfold py_slice_to.
  destruct (0 <=? n) eqn:H; [reflexivity|]. lia.
Qed.

(** X11.  The files of an upload that the file manager adds to the
    session.  If the session holds at most [MAX_CONCURRENT_FILES] files,
    it still does after the accepted files are added.  Every accepted
    file is one of the upload whose identifier is not in the session,
    of at most 5 MiB if it is an image and at most 20 MiB if it is a
    PDF.  And no file is dropped without a word: a file of the upload
    is already in the session, or it is accepted, or an error about a
    size or the warning about too many files is shown. *)
Theorem select_uploads_respects_limits
    (files_nella_sessione nuovi_file_caricati : list SessionFile) :
  len files_nella_sessione <= MAX_CONCURRENT_FILES ->
  let out := select_uploads files_nella_sessione nuovi_file_caricati in
  len (files_nella_sessione ++ out.(file_finali)) <= MAX_CONCURRENT_FILES /\
  (forall f, In f out.(file_finali) ->
     In f nuovi_file_caricati /\
     ~ In f.(upload_id) (map upload_id files_nella_sessione) /\
     (String.prefix "image/" f.(file).(type) = true ->
      f.(size) <= 5 * 1024 * 1024) /\
     (f.(file).(type) = "application/pdf"%string ->
      f.(size) <= 20 * 1024 * 1024)) /\
  (forall f, In f nuovi_file_caricati ->
     In f.(upload_id) (map upload_id files_nella_sessione) \/
     In f out.(file_finali) \/
     out.(errori_dimensioni) <> [] \/
     out.(warning_troppi_file) <> None).
Proof.
  intros Hlen out. unfold out, select_uploads.
  set (id_esistenti := map upload_id files_nella_sessione).
  set (file_potenziali :=
         filter (fun f : SessionFile =>
                   negb (existsb (String.eqb f.(upload_id)) id_esistenti))
                nuovi_file_caricati).
  assert (Hknown : forall f : SessionFile,
            existsb (String.eqb f.(upload_id)) id_esistenti = true <->
            In f.(upload_id) id_esistenti).
  { intros f. rewrite existsb_exists. split.
    - intros (x & Hin & Heq). apply String.eqb_eq in Heq. now subst.
    - intros Hin. exists f.(upload_id). split; [exact Hin|].
      apply String.eqb_refl. }
  pose proof (check_sizes_accepts file_potenziali) as Hacc.
  pose proof (check_sizes_total file_potenziali) as Htot.
  destruct (check_sizes file_potenziali) as [errori file_validi].
  simpl in Hacc, Htot.
  cbn [errori_dimensioni warning_troppi_file file_finali].
  set (spazio := MAX_CONCURRENT_FILES - len files_nella_sessione) in *.
  assert (Hsp : 0 <= spazio) by (unfold spazio; lia).
  rewrite (py_slice_to_nonneg _ _ Hsp).
  split; [|split].
  - unfold len in *. rewrite length_app, length_firstn.
    unfold spazio. lia.
  - intros f Hin. apply In_firstn in Hin.
    destruct (Hacc f Hin) as (Hpot & Himg & Hpdf).
    unfold file_potenziali in Hpot. apply filter_In in Hpot.
    destruct Hpot as [Hnew Hnk].
    split; [exact Hnew|]. split; [|split; assumption].
    intros Hk. apply Hknown in Hk. rewrite Hk in Hnk. discriminate.
  - intros f Hin.
    destruct (existsb (String.eqb f.(upload_id)) id_esistenti) eqn:Hk;
      [left; now apply Hknown|].
    right.
    assert (Hpot : In f file_potenziali).
    { unfold file_potenziali. apply filter_In. split; [exact Hin|].
      now rewrite Hk. }
    destruct (Htot f Hpot) as [Hv|He]; [|right; now left].
    destruct (len file_validi >? spazio) eqn:Hmany;
      [right; right; discriminate|].
    left. rewrite firstn_all2; [exact Hv|]. unfold len in Hmany. lia.
Qed.

Lemma select_uploads_respects_limits_witness :
  let session := [{| upload_id := "a"; size := 7; file := Demo.png_a |}] in
  let upload := [{| upload_id := "a"; size := 7; file := Demo.png_a |};
                 {| upload_id := "c"; size := 7; file := Demo.png_c |};
                 {| upload_id := "d"; size := 6000000;
                    file := Demo.big_d |}] in
  len (session ++ (select_uploads session upload).(file_finali))
    <= MAX_CONCURRENT_FILES.
Proof.
  assert (H : len [{| upload_id := "a"; size := 7; file := Demo.png_a |}]
              <= MAX_CONCURRENT_FILES) by (vm_compute; discriminate).
  exact (proj1 (select_uploads_respects_limits
                  [{| upload_id := "a"; size := 7; file := Demo.png_a |}]
                  [{| upload_id := "a"; size := 7; file := Demo.png_a |};
                   {| upload_id := "c"; size := 7; file := Demo.png_c |};
                   {| upload_id := "d"; size := 6000000;
                      file := Demo.big_d |}] H)).
Defined.

(** X12.  Registering the accepted files of an upload.  When the
    identifiers of the files are distinct and the cache knows none of
    them, the loop of the file manager over the files does not raise and
    submits one job for each file, in their order: the executor has one
    more waiting job per file, for that file, and [processing_queue]
    records each identifier with the handle of its job.  Nothing is
    processed by the caller: the entries of the cache, the access times,
    the memory usage and the number of calls of the processors are as
    before. *)
Theorem register_files_submits_each_once (clock : nat -> Z)
    (files : list SessionFile) :
  forall (i : nat) (s : OptimizedFileCache),
    NoDup (map upload_id files) ->
    (forall f, In f files ->
       dict_get f.(upload_id) s.(cache) = None /\
       dict_get f.(upload_id) s.(processing_queue) = None) ->
    let s' := fst (register_files clock i files s) in
    snd (register_files clock i files s) = Ok tt /\
    s'.(executor).(futures)
      = (s.(executor).(futures) ++
         map (fun f => {| job_file_id := f.(upload_id);
                          job_file_obj := f.(file);
                          state := PENDING |}) files)%list /\
    s'.(processing_queue)
      = (s.(processing_queue) ++
         combine (map upload_id files)
                 (seq (List.length s.(executor).(futures))
                      (List.length files)))%list /\
    s'.(cache) = s.(cache) /\
    s'.(access_times) = s.(access_times) /\
    s'.(current_memory_usage) = s.(current_memory_usage) /\
    s'.(processor_calls) = s.(processor_calls).
Proof.
  induction files as [|f r IH]; intros i s Hnd Hnew; simpl.
  - rewrite !app_nil_r. repeat split; reflexivity.
  - inversion Hnd as [|? ? Hnotin Hnd']; subst.
    destruct (Hnew f (or_introl eq_refl)) as [Hc Hq].
    destruct (get_or_create_unknown f.(upload_id) f.(file) (clock i) s
                Hc Hq)
      as (Hres & Hfs & Hqs & Hcs & Has & Hus & Hps & _).
    destruct (get_or_create f.(upload_id) f.(file) (clock i) s)
      as [s1 res].
    simpl in Hres, Hfs, Hqs, Hcs, Has, Hus, Hps. subst res.
    assert (Hnew1 : forall g, In g r ->
              dict_get g.(upload_id) s1.(cache) = None /\
              dict_get g.(upload_id) s1.(processing_queue) = None).
    { intros g Hg. destruct (Hnew g (or_intror Hg)) as [Hgc Hgq].
      split; [now rewrite Hcs|]. rewrite Hqs.
      rewrite <- (dict_set_absent _ _ _ Hq).
      rewrite dict_get_set_ne; [exact Hgq|].
      intros Heq. apply Hnotin. rewrite Heq. now apply in_map. }
    destruct (IH (S i) s1 Hnd' Hnew1)
      as (Hr & Hf & Hqq & Hcc & Haa & Huu & Hpp).
    split; [exact Hr|].
    split; [rewrite Hf, Hfs, <- app_assoc; reflexivity|].
    split.
    { rewrite Hqq, Hqs, Hfs, <- app_assoc, length_app. simpl.
      now rewrite Nat.add_1_r. }
    repeat split; congruence.
Qed.

Lemma register_files_submits_each_once_witness :
  let files := [{| upload_id := "a"; size := 7; file := Demo.png_a |};
                {| upload_id := "c"; size := 7; file := Demo.png_c |}] in
  let s' := fst (register_files (fun _ => 1) 0 files Scenario.fresh) in
  s'.(processing_queue) = [("a"%string, 0%nat); ("c"%string, 1%nat)] /\
  s'.(cache) = [].
Proof.
  assert (Hnd : NoDup (map upload_id
            [{| upload_id := "a"; size := 7; file := Demo.png_a |};
             {| upload_id := "c"; size := 7; file := Demo.png_c |}])).
  { simpl. constructor; [intros [H|[]]; discriminate H|].
    constructor; [intros []|constructor]. }
  destruct (register_files_submits_each_once (fun _ => 1)
              [{| upload_id := "a"; size := 7; file := Demo.png_a |};
               {| upload_id := "c"; size := 7; file := Demo.png_c |}]
              0%nat Scenario.fresh Hnd)
    as (_ & _ & Hq & Hc & _).
  - intros f _. split; reflexivity.
  - split; [exact Hq | exact Hc].
Defined.

(** ** Removing a file *)

(** X7.  [remove_file] forgets one entry and nothing else.  In every
    state that the cache reaches, after [remove_file] the identifier has
    no entry and no access time, every other identifier has what it had,
    the memory usage is lower by the cost of the removed entry, and the
    jobs and their handles are untouched; if the counter was the sum of
    the costs before, it is so afterwards.  An identifier without an
    entry leaves the cache as it is, so removing twice is the same as
    removing once.  If no job is recorded for the identifier, the next
    [get_or_create] starts over: it returns a placeholder and submits a
    new job. *)
Theorem remove_file_forgets_one_entry (E : Externals)
    (s : OptimizedFileCache) (fid : string) (file_obj : UploadedFile)
    (now : Z) :
  reachable E s ->
  let s' := remove_file fid s in
  dict_get fid s'.(cache) = None /\
  dict_get fid s'.(access_times) = None /\
  (forall k, k <> fid ->
     dict_get k s'.(cache) = dict_get k s.(cache) /\
     dict_get k s'.(access_times) = dict_get k s.(access_times)) /\
  s'.(current_memory_usage)
    = s.(current_memory_usage) - cost_in s.(cache) fid /\
  s'.(processing_queue) = s.(processing_queue) /\
  s'.(executor) = s.(executor) /\
  (accounted s -> accounted s') /\
  (dict_get fid s.(cache) = None -> s' = s) /\
  remove_file fid s' = s' /\
  (dict_get fid s.(processing_queue) = None ->
   snd (get_or_create fid file_obj now s')
     = Ok (placeholder fid file_obj.(name)) /\
   pending_on fid (List.length s.(executor).(futures))
     (fst (get_or_create fid file_obj now s'))).
Proof.
  intros Hr s'.
  destruct (reachable_store_wf E s Hr) as (Hnc & Hna & Hka).
  assert (Hgone : dict_get fid s'.(cache) = None).
  { unfold s', remove_file.
    destruct (dict_get fid s.(cache)) eqn:Hg; [|exact Hg].
    simpl. apply dict_get_pop_eq. }
  assert (Hq : s'.(processing_queue) = s.(processing_queue)).
  { unfold s', remove_file. now destruct (dict_get fid s.(cache)). }
  assert (Hex : s'.(executor) = s.(executor)).
  { unfold s', remove_file. now destruct (dict_get fid s.(cache)). }
  split; [exact Hgone|].
  split.
  { unfold s', remove_file.
    destruct (dict_get fid s.(cache)) eqn:Hg;
      [simpl; apply dict_get_pop_eq|].
    specialize (Hka fid). unfold dict_mem in Hka. rewrite Hg in Hka.
    now destruct (dict_get fid s.(access_times)). }
  split.
  { intros k Hne. unfold s', remove_file.
    destruct (dict_get fid s.(cache)); [|now split].
    simpl. split; apply dict_get_pop_ne; congruence. }
  split.
  { unfold s', remove_file, cost_in.
    destruct (dict_get fid s.(cache)); simpl; lia. }
  split; [exact Hq|]. split; [exact Hex|].
  split.
  { intros Hacc. unfold s'. rewrite remove_file_pop_entry.
    destruct (dict_get fid s.(cache)) eqn:Hg; [|exact Hacc].
    now apply accounted_pop_entry. }
  split.
  { intros Hg. unfold s', remove_file. now rewrite Hg. }
  split.
  { unfold remove_file at 1. now rewrite Hgone. }
  intros Hnq. rewrite <- Hq in Hnq.
  destruct (get_or_create_unknown fid file_obj now s' Hgone Hnq)
    as (H1 & _ & _ & _ & _ & _ & _ & H8).
  rewrite Hex in H8. split; [exact H1 | exact H8].
Qed.

Lemma remove_file_forgets_one_entry_witness :
  (remove_file "a" Scenario.a_ready).(cache) = [] /\
  (remove_file "a" Scenario.a_ready).(current_memory_usage) = 0.
Proof.
  destruct (remove_file_forgets_one_entry Demo.ext Scenario.a_ready "a"
              Demo.png_a 3 a_ready_reachable)
    as (_ & _ & _ & Hu & _).
  split; [reflexivity | exact Hu].
Defined.

(** ** The accounting of the memory when jobs are interleaved *)

(** X13.  As long as [clear] is not called, the accounting of the memory
    is exact under every interleaving of callers and workers: after every
    step of a run of a new cache that has no [clear], the memory usage
    is the sum of the costs of the cached entries, and the two dicts of
    the store have the same keys.  Each identifier has at most one job
    that is not over, and the cache has no entry under the identifier
    until that job inserts one, so no insertion replaces an entry whose
    cost was counted. *)
Theorem accounting_exact_without_clear (E : Externals) (max_memory_mb : Z)
    (workers : nat) (evs : list Event) :
  forallb no_clear evs = true ->
  let s := run E evs (new_OptimizedFileCache max_memory_mb workers) in
  s.(current_memory_usage) = cached_bytes s /\ store_wf s /\ jobs_tracked s.
Proof.
  intros Hnc.
  assert (H0 : accounted (new_OptimizedFileCache max_memory_mb workers) /\
               jobs_tracked (new_OptimizedFileCache max_memory_mb workers)).
  { split.
    - split; [|reflexivity]. unfold store_wf, keys_agree. simpl.
      repeat split; constructor.
    - intros [|h] fu H; discriminate H. }
  revert H0. generalize (new_OptimizedFileCache max_memory_mb workers).
  induction evs as [|ev r IH]; intros s0 H0; simpl in *.
  - destruct H0 as [[Hwf Hsum] Ht]. auto.
  - apply andb_prop in Hnc. destruct Hnc as [Hev Hr].
    apply (IH Hr). now apply step_accounted_tracked.
Qed.

Lemma accounting_exact_without_clear_witness :
  let s := run Demo.ext
             [GetOrCreate "a" Demo.png_a 1; GetOrCreate "c" Demo.png_c 1;
              WorkerBegin; WorkerBegin; WorkerLookup 0; WorkerLookup 1;
              WorkerEvict 0; WorkerEvict 1;
              WorkerInsert 0 2; WorkerInsert 1 3;
              WorkerReturn 0; WorkerReturn 1]
             (new_OptimizedFileCache 1 2) in
  s.(current_memory_usage) = cached_bytes s.
Proof.
  exact (proj1 (accounting_exact_without_clear Demo.ext 1 2
                  [GetOrCreate "a" Demo.png_a 1; GetOrCreate "c" Demo.png_c 1;
                   WorkerBegin; WorkerBegin; WorkerLookup 0; WorkerLookup 1;
                   WorkerEvict 0; WorkerEvict 1;
                   WorkerInsert 0 2; WorkerInsert 1 3;
                   WorkerReturn 0; WorkerReturn 1] eq_refl)).
Defined.
